(** * Dual-bucket blob routing of the CalcpadS3 API

    A shallow embedding of [BlobStorageService] (the service that routes
    uploads, downloads, tag updates and version listings to the working and
    the stable bucket of an S3-compatible store), together with the
    properties of its bucket resolution, tag codec and fallback loops. *)

From stdpp Require Import base strings pretty list gmap sorting.

Local Open Scope string_scope.
Local Open Scope list_scope.
Local Open Scope Z_scope.

(** ** JavaScript values and objects *)

Module Js.

(** A plain object used as a property bag: own enumerable string keys in
    insertion order.  (Keys that are canonical array indices would be
    enumerated first; the service never writes such keys into the objects
    whose enumeration order it observes.) *)
Definition object (V : Type) : Type := list (string * V).

(** [o[k] = v]: overwrite in place when the key exists, append otherwise. *)
Fixpoint set {V} (o : object V) (k : string) (v : V) : object V :=
  match o with
  | [] => [(k, v)]
  | (k', v') :: o' =>
      if bool_decide (k' = k) then (k, v) :: o' else (k', v') :: set o' k v
  end.

(** [o[k]] *)
Fixpoint get {V} (o : object V) (k : string) : option V :=
  match o with
  | [] => None
  | (k', v') :: o' => if bool_decide (k' = k) then Some v' else get o' k
  end.

(** [Object.keys(o)] and [Object.values(o)] *)
Definition keys {V} (o : object V) : list string := o.*1.
Definition values {V} (o : object V) : list V := o.*2.

(** [{ ...target, ...source }]: the properties of [source] are assigned
    onto [target] in order. *)
Definition assign {V} (target source : object V) : object V :=
  foldl (fun acc kv => set acc kv.1 kv.2) target source.

(** The values a backend response can hold at run time. *)
#[local] Unset Elimination Schemes.
Inductive value : Type :=
| VUndefined
| VNull
| VBool (b : bool)
| VNumber (n : Z)
| VString (s : string)
| VObject (props : list (string * value)).
#[local] Set Elimination Schemes.

(** [a || b] on optional strings: [undefined] and the empty string are
    falsy. *)
Definition or_string (a : option string) (b : string) : string :=
  match a with
  | Some s => if bool_decide (s = "") then b else s
  | None => b
  end.

(** Truthiness of an optional string. *)
Definition truthy (a : option string) : bool :=
  match a with
  | Some s => negb (bool_decide (s = ""))
  | None => false
  end.

End Js.

(** ** Tag codec *)

(** The key written for position [index]: [`tag-${index}`]. *)
Definition tagKey (index : nat) : string := "tag-" +:+ pretty index.

(** [tags.forEach((tag, index) => { tagMap[`tag-${index}`] = tag; })],
    started at position [index] with the map built so far. *)
Fixpoint forEachTag (index : nat) (tags : list string)
    (tagMap : Js.object string) : Js.object string :=
  match tags with
  | [] => tagMap
  | tag :: rest =>
      forEachTag (S index) rest (Js.set tagMap (tagKey index) tag)
  end.

(** The encoder shared by [uploadFileAsync] and [setFileTagsAsync]. *)
Definition encodeTags (tags : list string) : Js.object string :=
  forEachTag 0 tags [].

(** [typeof s === 'string' && s.length > 0] on a string. *)
Definition nonEmpty (s : string) : bool := bool_decide (0 < String.length s)%nat.

(** The filter predicate of [getFileTagsAsync]:
    [typeof value === 'string' && value.length > 0]. *)
Definition isNonEmptyString (v : Js.value) : bool :=
  match v with
  | Js.VString s => nonEmpty s
  | _ => false
  end.

(** [.map(String)] on the values that passed the filter. *)
Definition toStrings (vs : list Js.value) : list string :=
  omap (fun v => match v with Js.VString s => Some s | _ => None end) vs.

(** The decoder of [getFileTagsAsync], applied to the value the backend
    returned: [if (result && typeof result === 'object')] keeps objects
    only ([null] is falsy); anything else decodes to [[]]. *)
Definition decodeTags (result : Js.value) : list string :=
  match result with
  | Js.VObject props =>
      toStrings (List.filter isNonEmptyString (Js.values props))
  | _ => []
  end.

(** What a backend that preserves insertion order hands back for a stored
    tag map. *)
Definition taggingResponse (tagMap : Js.object string) : Js.value :=
  Js.VObject (prod_map id Js.VString <$> tagMap).

(** ** Promises over the state of the object store *)

(** What an [await] can throw: an [Error] built by the service itself, or
    an error raised by the object-store client. *)
Inductive exn : Type :=
| JsError (message : string)
| S3Error (code : string).

Inductive settled (A : Type) : Type :=
| Resolved (a : A)
| Rejected (e : exn).
Arguments Resolved {A} a.
Arguments Rejected {A} e.

(** An asynchronous computation: it runs against the store in state [W],
    settles, and leaves the store in a new state. *)
Definition Promise (W A : Type) : Type := W → settled A * W.

Definition resolve {W A} (a : A) : Promise W A := fun w => (Resolved a, w).

Definition throw {W A} (e : exn) : Promise W A := fun w => (Rejected e, w).

(** [const x = await p; k x] *)
Definition await {W A B} (p : Promise W A) (k : A → Promise W B) : Promise W B :=
  fun w =>
    match p w with
    | (Resolved a, w') => k a w'
    | (Rejected e, w') => (Rejected e, w')
    end.

(** [try { p } catch (error) { handler error }] *)
Definition tryCatch {W A} (p : Promise W A) (handler : exn → Promise W A)
    : Promise W A :=
  fun w =>
    match p w with
    | (Resolved a, w') => (Resolved a, w')
    | (Rejected e, w') => handler e w'
    end.

Notation "'let!' x ':=' p 'in' k" := (await p (fun x => k))
  (at level 10, x pattern, p at level 100, k at level 200, only parsing).
Notation "p ';;' k" := (await p (fun _ => k))
  (at level 100, k at level 200, right associativity, only parsing).

Definition isResolved {A} (r : settled A) : bool :=
  match r with Resolved _ => true | Rejected _ => false end.

(** ** Models ([models/User.ts], [models/BlobMetadata.ts]) *)

Inductive UserRole : Type := Viewer | Contributor | Admin.

(** The numeric value of the enum member. *)
Definition roleValue (r : UserRole) : Z :=
  match r with Viewer => 1 | Contributor => 2 | Admin => 3 end.

Record UserContext : Type := {
  userId : string;
  username : string;
  role : UserRole }.

Record BlobMetadata : Type := {
  bm_fileName : string;
  bm_category : option string;
  bm_created : option string;
  bm_updated : option string;
  bm_reviewed : option string;
  bm_tested : option string;
  bm_createdBy : option string;
  bm_size : Z;
  bm_lastModified : string;
  bm_contentType : option string;
  bm_etag : string;
  bm_versionId : option string;
  bm_isDir : bool;
  bm_isLatest : bool }.

Record FileVersion : Type := {
  fv_versionId : string;
  fv_lastModified : string;
  fv_size : Z;
  fv_etag : string;
  fv_isLatest : bool }.

(** ** The object-store client ([Minio.Client]) *)

(** The bytes a [Readable] delivers. *)
Definition Readable : Type := string.

(** An entry yielded by [listObjects]; every field may be missing. *)
Record BucketItem : Type := {
  item_name : option string;
  item_size : option Z;
  item_lastModified : option Z;
  item_etag : option string;
  item_versionId : option string;
  item_isLatest : option bool }.

(** The answer of [statObject]. *)
Record BucketItemStat : Type := {
  stat_size : Z;
  stat_lastModified : Z;
  stat_etag : string;
  stat_metaData : option (Js.object string) }.

(** The object stream of [listObjects], as consumed by [for await]: the
    entries it yields and, when the iteration throws after them, the error. *)
Record ObjectStream : Type := {
  yielded : list BucketItem;
  failure : option exn }.

(** The calls the service makes on the client.  Arguments are the bucket
    name first, then the object name (for [listObjects] the prefix and the
    recursive flag; for [getObject] the optional [versionId]). *)
Record Client (W : Type) : Type := {
  putObject : string → string → Readable → Js.object string → Promise W unit;
  getObject : string → string → option string → Promise W Readable;
  statObject : string → string → Promise W BucketItemStat;
  removeObject : string → string → Promise W unit;
  listObjects : string → string → bool → W → ObjectStream * W;
  getObjectTagging : string → string → Promise W Js.value;
  setObjectTagging : string → string → Js.object string → Promise W unit }.
Arguments putObject {W} _ _ _ _ _.
Arguments getObject {W} _ _ _ _.
Arguments statObject {W} _ _ _.
Arguments removeObject {W} _ _ _.
Arguments listObjects {W} _ _ _ _.
Arguments getObjectTagging {W} _ _ _.
Arguments setObjectTagging {W} _ _ _ _.

(** The [Date] built-in: reading the clock ([new Date()], in milliseconds
    since the epoch), formatting an instant ([toISOString]) and reading an
    ISO string back ([new Date(s).getTime()]). *)
Record JsDate (W : Type) : Type := {
  newDate : W → Z * W;
  toISOString : Z → string;
  getTime : string → Z }.
Arguments newDate {W} _ _.
Arguments toISOString {W} _ _.
Arguments getTime {W} _ _.

(** ** The service ([services/BlobStorageService.ts]) *)

Record MinioConfig : Type := {
  endpoint : string;
  accessKey : string;
  secretKey : string;
  bucketName : string;
  useSSL : bool }.

Record BlobStorageService (W : Type) : Type := {
  client : Client W;
  workingBucket : string;
  stableBucket : string }.
Arguments client {W} _.
Arguments workingBucket {W} _.
Arguments stableBucket {W} _.

(** [constructor(config)]; the client it creates from the endpoint and the
    credentials is passed in. *)
Definition constructor {W} (config : MinioConfig) (minio : Client W)
    : BlobStorageService W :=
  {| client := minio;
     workingBucket := bucketName config +:+ "-working";
     stableBucket := bucketName config +:+ "-stable" |}.


Section Service.
Context {W : Type} (Date : JsDate W) (this : BlobStorageService W).

(** [getBucketName(userContext)]: the bucket a role writes to and reads
    first. *)
Definition getBucketName (userContext : UserContext) : string :=
  if bool_decide (roleValue (role userContext) ≤ 2)
  then workingBucket this else stableBucket this.

(** The bucket list every read operation starts with:
    [[const buckets = [this.getBucketName(userContext)];
      if (userContext.role === 3) {
        buckets.push(userContext.role <= 2 ? this.stableBucket : this.workingBucket);
      }]] *)
Definition readBuckets (userContext : UserContext) : list string :=
  let buckets := [getBucketName userContext] in
  if bool_decide (roleValue (role userContext) = 3)
  then buckets ++ [if bool_decide (roleValue (role userContext) ≤ 2)
                   then stableBucket this else workingBucket this]
  else buckets.

(** The metadata object literal of [uploadFileAsync], built at instant
    [createdAt]. *)
Definition uploadMetaData (userContext : UserContext)
    (contentType : option string) (metadata : option (Js.object string))
    (createdAt : Z) : Js.object string :=
  Js.assign
    [("Content-Type", Js.or_string contentType "application/octet-stream");
     ("created-by", username userContext);
     ("created-at", toISOString Date createdAt)]
    (default [] metadata).

Definition uploadFileAsync (fileName : string) (stream : Readable)
    (userContext : UserContext) (contentType : option string)
    (tags : option (list string)) (metadata : option (Js.object string))
    : Promise W string :=
  fun w =>
    let bucketName := getBucketName userContext in
    let '(createdAt, w) := newDate Date w in
    let metaData := uploadMetaData userContext contentType metadata createdAt in
    (putObject (client this) bucketName fileName stream metaData ;;
     match tags with
     | Some (tag :: rest) =>
         setObjectTagging (client this) bucketName fileName
           (encodeTags (tag :: rest))
     | _ => resolve ()
     end ;;
     resolve fileName) w.

(** The loop of [downloadFileAsync] over the remaining buckets. *)
Fixpoint downloadFrom (fileName : string) (buckets : list string)
    : Promise W Readable :=
  match buckets with
  | [] => throw (JsError ("File " +:+ fileName +:+ " not found"))
  | bucket :: rest =>
      tryCatch (getObject (client this) bucket fileName None)
               (fun _ => downloadFrom fileName rest)
  end.

Definition downloadFileAsync (fileName : string) (userContext : UserContext)
    : Promise W Readable :=
  downloadFrom fileName (readBuckets userContext).

(** The loop of [downloadFileVersionAsync]. *)
Fixpoint downloadVersionFrom (fileName versionId : string)
    (buckets : list string) : Promise W Readable :=
  match buckets with
  | [] =>
      throw (JsError ("File " +:+ fileName +:+ " version " +:+ versionId
                      +:+ " not found"))
  | bucket :: rest =>
      tryCatch (getObject (client this) bucket fileName (Some versionId))
               (fun _ => downloadVersionFrom fileName versionId rest)
  end.

Definition downloadFileVersionAsync (fileName versionId : string)
    (userContext : UserContext) : Promise W Readable :=
  downloadVersionFrom fileName versionId (readBuckets userContext).

(** The loop of [fileExistsAsync]. *)
Fixpoint existsIn (fileName : string) (buckets : list string)
    : Promise W bool :=
  match buckets with
  | [] => resolve false
  | bucket :: rest =>
      tryCatch (statObject (client this) bucket fileName ;; resolve true)
               (fun _ => existsIn fileName rest)
  end.

Definition fileExistsAsync (fileName : string) (userContext : UserContext)
    : Promise W bool :=
  existsIn fileName (readBuckets userContext).

(** The loop of [deleteFileAsync], with the flag [deleted] so far. *)
Fixpoint deleteFrom (fileName : string) (buckets : list string)
    (deleted : bool) : Promise W bool :=
  match buckets with
  | [] => resolve deleted
  | bucket :: rest =>
      let! deleted :=
        tryCatch (removeObject (client this) bucket fileName ;; resolve true)
                 (fun _ => resolve deleted) in
      deleteFrom fileName rest deleted
  end.

Definition deleteFileAsync (fileName : string) (userContext : UserContext)
    : Promise W bool :=
  let buckets := [workingBucket this; stableBucket this] in
  deleteFrom fileName buckets false.

(** The body of the [for await] of [listFilesAsync]:
    [if (obj.name && !files.includes(obj.name)) files.push(obj.name)]. *)
Definition pushName (files : list string) (obj : BucketItem) : list string :=
  match item_name obj with
  | Some name =>
      if Js.truthy (Some name) && negb (bool_decide (name ∈ files))
      then files ++ [name] else files
  | None => files
  end.

(** The loop of [listFilesAsync].  Names pushed before a stream error stay
    in [files]; the error itself is dropped by the empty [catch]. *)
Fixpoint listFrom (buckets : list string) (files : list string)
    : Promise W (list string) :=
  match buckets with
  | [] => resolve files
  | bucket :: rest => fun w =>
      let '(stream, w) := listObjects (client this) bucket "" true w in
      listFrom rest (foldl pushName files (yielded stream)) w
  end.

Definition listFilesAsync (userContext : UserContext)
    : Promise W (list string) :=
  listFrom (readBuckets userContext) [].

(** [obj.lastModified?.toISOString() || new Date().toISOString()]: the clock
    is read only when the entry carries no date. *)
Definition lastModifiedOrNow (obj : BucketItem) (w : W) : string * W :=
  match item_lastModified obj with
  | Some t => (toISOString Date t, w)
  | None => let '(t, w) := newDate Date w in (toISOString Date t, w)
  end.

(** [stat.metaData?.[key]] *)
Definition metaField (stat : BucketItemStat) (key : string) : option string :=
  metaData ← stat_metaData stat; Js.get metaData key.

(** One entry of [listFilesWithMetadataAsync]: the entry is pushed when its
    [statObject] resolves and skipped when it rejects. *)
Definition pushMetadata (bucket : string) (files : list BlobMetadata)
    (obj : BucketItem) (w : W) : list BlobMetadata * W :=
  match item_name obj with
  | Some name =>
      if Js.truthy (Some name) then
        match statObject (client this) bucket name w with
        | (Resolved stat, w) =>
            let '(lastModified, w) := lastModifiedOrNow obj w in
            (files ++ [{|
               bm_fileName := name;
               bm_size := default 0 (item_size obj);
               bm_lastModified := lastModified;
               bm_etag := Js.or_string (item_etag obj) "";
               bm_contentType := metaField stat "content-type";
               bm_versionId := None;
               bm_isDir := false;
               bm_isLatest := true;
               bm_category := metaField stat "category";
               bm_created := metaField stat "created";
               bm_updated := metaField stat "updated";
               bm_reviewed := metaField stat "reviewed";
               bm_tested := metaField stat "tested";
               bm_createdBy := metaField stat "created-by" |}], w)
        | (Rejected _, w) => (files, w)
        end
      else (files, w)
  | None => (files, w)
  end.

Fixpoint forAwaitMetadata (bucket : string) (objs : list BucketItem)
    (files : list BlobMetadata) (w : W) : list BlobMetadata * W :=
  match objs with
  | [] => (files, w)
  | obj :: rest =>
      let '(files, w) := pushMetadata bucket files obj w in
      forAwaitMetadata bucket rest files w
  end.

Fixpoint listWithMetadataFrom (buckets : list string)
    (files : list BlobMetadata) : Promise W (list BlobMetadata) :=
  match buckets with
  | [] => resolve files
  | bucket :: rest => fun w =>
      let '(stream, w) := listObjects (client this) bucket "" true w in
      let '(files, w) := forAwaitMetadata bucket (yielded stream) files w in
      listWithMetadataFrom rest files w
  end.

Definition listFilesWithMetadataAsync (userContext : UserContext)
    : Promise W (list BlobMetadata) :=
  listWithMetadataFrom (readBuckets userContext) [].

(** The loop of [getFileTagsAsync]: whatever the tag read resolves to is
    decoded and returned; a rejection moves on to the next bucket. *)
Fixpoint tagsFrom (fileName : string) (buckets : list string)
    : Promise W (list string) :=
  match buckets with
  | [] => resolve []
  | bucket :: rest =>
      tryCatch (let! result := getObjectTagging (client this) bucket fileName in
                resolve (decodeTags result))
               (fun _ => tagsFrom fileName rest)
  end.

Definition getFileTagsAsync (fileName : string) (userContext : UserContext)
    : Promise W (list string) :=
  let buckets := [getBucketName userContext] in
  let buckets :=
    if bool_decide (roleValue (role userContext) = 3)
    then buckets ++ [workingBucket this] else buckets in
  tagsFrom fileName buckets.

Definition setFileTagsAsync (fileName : string) (tags : list string)
    (userContext : UserContext) : Promise W bool :=
  let bucketName := getBucketName userContext in
  tryCatch (setObjectTagging (client this) bucketName fileName (encodeTags tags) ;;
            resolve true)
           (fun _ => resolve false).

Definition deleteFileTagsAsync (fileName : string) (userContext : UserContext)
    : Promise W bool :=
  let bucketName := getBucketName userContext in
  tryCatch (setObjectTagging (client this) bucketName fileName [] ;;
            resolve true)
           (fun _ => resolve false).

(** One entry of the [for await] of [listFileVersionsAsync]. *)
Definition pushVersion (fileName : string) (versions : list FileVersion)
    (obj : BucketItem) (w : W) : list FileVersion * W :=
  if bool_decide (item_name obj = Some fileName) then
    let '(lastModified, w) := lastModifiedOrNow obj w in
    (versions ++ [{|
       fv_versionId := Js.or_string (item_versionId obj) "null";
       fv_lastModified := lastModified;
       fv_size := default 0 (item_size obj);
       fv_etag := Js.or_string (item_etag obj) "";
       fv_isLatest := default false (item_isLatest obj) |}], w)
  else (versions, w).

Fixpoint forAwaitVersions (fileName : string) (objs : list BucketItem)
    (versions : list FileVersion) (w : W) : list FileVersion * W :=
  match objs with
  | [] => (versions, w)
  | obj :: rest =>
      let '(versions, w) := pushVersion fileName versions obj w in
      forAwaitVersions fileName rest versions w
  end.

(** The comparator handed to [versions.sort]. *)
Definition newestFirst (a b : FileVersion) : Z :=
  getTime Date (fv_lastModified b) - getTime Date (fv_lastModified a).

(** [Array.prototype.sort] with a comparator: the sort is stable, an
    element stays in front of the later elements it does not compare
    greater than. *)
Fixpoint sortInsert {A} (compareFn : A → A → Z) (x : A) (sorted : list A)
    : list A :=
  match sorted with
  | [] => [x]
  | y :: rest =>
      if bool_decide (compareFn x y ≤ 0) then x :: y :: rest
      else y :: sortInsert compareFn x rest
  end.

Fixpoint arraySort {A} (compareFn : A → A → Z) (l : list A) : list A :=
  match l with
  | [] => []
  | x :: rest => sortInsert compareFn x (arraySort compareFn rest)
  end.

(** The loop of [listFileVersionsAsync]. *)
Fixpoint versionsFrom (fileName : string) (buckets : list string)
    : Promise W (list FileVersion) :=
  match buckets with
  | [] => resolve []
  | bucket :: rest => fun w =>
      let '(stream, w) := listObjects (client this) bucket fileName true w in
      let '(versions, w) := forAwaitVersions fileName (yielded stream) [] w in
      match failure stream with
      | Some _ => versionsFrom fileName rest w
      | None =>
          if bool_decide (0 < length versions)%nat
          then (Resolved (arraySort newestFirst versions), w)
          else versionsFrom fileName rest w
      end
  end.

Definition listFileVersionsAsync (fileName : string)
    (userContext : UserContext) : Promise W (list FileVersion) :=
  versionsFrom fileName (readBuckets userContext).

End Service.


(** ** Recording the calls made on the client *)

(** One call on the client, with the bucket it addresses. *)
Inductive Call : Type :=
| PutObject (bucket key : string) (metaData : Js.object string)
| GetObject (bucket key : string) (versionId : option string)
| StatObject (bucket key : string)
| RemoveObject (bucket key : string)
| ListObjects (bucket prefix : string) (recursive : bool)
| GetObjectTagging (bucket key : string)
| SetObjectTagging (bucket key : string) (tags : Js.object string).

Definition callBucket (c : Call) : string :=
  match c with
  | PutObject b _ _ | GetObject b _ _ | StatObject b _ | RemoveObject b _
  | ListObjects b _ _ | GetObjectTagging b _ | SetObjectTagging b _ _ => b
  end.

Definition isWrite (c : Call) : bool :=
  match c with
  | PutObject _ _ _ | RemoveObject _ _ | SetObjectTagging _ _ _ => true
  | _ => false
  end.

(** Run [p] on the store and append [c] to the log. *)
Definition logged {W A} (c : Call) (p : W → A * W) : W * list Call → A * (W * list Call) :=
  fun '(w, log) => let '(a, w) := p w in (a, (w, log ++ [c])).

(** A client that behaves as [c] does and keeps the list of the calls it
    received, oldest first. *)
Definition traced {W} (c : Client W) : Client (W * list Call) :=
  {| putObject b k stream metaData :=
       logged (PutObject b k metaData) (putObject c b k stream metaData);
     getObject b k versionId :=
       logged (GetObject b k versionId) (getObject c b k versionId);
     statObject b k := logged (StatObject b k) (statObject c b k);
     removeObject b k := logged (RemoveObject b k) (removeObject c b k);
     listObjects b prefix recursive :=
       logged (ListObjects b prefix recursive) (listObjects c b prefix recursive);
     getObjectTagging b k := logged (GetObjectTagging b k) (getObjectTagging c b k);
     setObjectTagging b k tags :=
       logged (SetObjectTagging b k tags) (setObjectTagging c b k tags) |}.

(** The clock next to a traced client: reading it is not a client call. *)
Definition tracedDate {W} (d : JsDate W) : JsDate (W * list Call) :=
  {| newDate := fun '(w, log) => let '(t, w) := newDate d w in (t, (w, log));
     toISOString := toISOString d;
     getTime := getTime d |}.

(** ** An in-memory object store *)

(** A reference implementation of the client contract: two or more named
    buckets holding object versions, any of which can be offline. *)
Module MemStore.

Record StoredObject : Type := {
  so_key : string;
  so_versionId : string;
  so_body : Readable;
  so_metaData : Js.object string;
  so_tagging : Js.object string;
  so_lastModified : Z;
  so_isLatest : bool }.

Record World : Type := {
  buckets : gmap string (list StoredObject);
  offline : list string;
  clock : Z }.

(** The content of bucket [b], or the error every call on it raises. *)
Definition bucket (w : World) (b : string) : settled (list StoredObject) :=
  if bool_decide (b ∈ offline w) then Rejected (S3Error "ServiceUnavailable")
  else match buckets w !! b with
       | Some objs => Resolved objs
       | None => Rejected (S3Error "NoSuchBucket")
       end.

Definition isCurrent (k : string) (o : StoredObject) : bool :=
  bool_decide (so_key o = k) && so_isLatest o.

Definition isVersion (k v : string) (o : StoredObject) : bool :=
  bool_decide (so_key o = k) && bool_decide (so_versionId o = v).

Definition retire (k : string) (o : StoredObject) : StoredObject :=
  if bool_decide (so_key o = k)
  then {| so_key := so_key o; so_versionId := so_versionId o;
          so_body := so_body o; so_metaData := so_metaData o;
          so_tagging := so_tagging o; so_lastModified := so_lastModified o;
          so_isLatest := false |}
  else o.

Definition retag (k : string) (tags : Js.object string) (o : StoredObject)
    : StoredObject :=
  if isCurrent k o
  then {| so_key := so_key o; so_versionId := so_versionId o;
          so_body := so_body o; so_metaData := so_metaData o;
          so_tagging := tags; so_lastModified := so_lastModified o;
          so_isLatest := so_isLatest o |}
  else o.

Definition setBucket (w : World) (b : string) (objs : list StoredObject)
    (tick : Z) : World :=
  {| buckets := <[b := objs]> (buckets w);
     offline := offline w;
     clock := clock w + tick |}.

Definition mem_putObject (b k : string) (stream : Readable)
    (metaData : Js.object string) : Promise World unit :=
  fun w =>
    match bucket w b with
    | Resolved objs =>
        let o := {| so_key := k; so_versionId := pretty (clock w);
                    so_body := stream; so_metaData := metaData;
                    so_tagging := []; so_lastModified := clock w;
                    so_isLatest := true |} in
        (Resolved (), setBucket w b ((retire k <$> objs) ++ [o]) 1)
    | Rejected e => (Rejected e, w)
    end.

Definition mem_getObject (b k : string) (versionId : option string)
    : Promise World Readable :=
  fun w =>
    match bucket w b with
    | Resolved objs =>
        match List.find (from_option (isVersion k) (isCurrent k) versionId) objs with
        | Some o => (Resolved (so_body o), w)
        | None => (Rejected (S3Error "NoSuchKey"), w)
        end
    | Rejected e => (Rejected e, w)
    end.

Definition mem_statObject (b k : string) : Promise World BucketItemStat :=
  fun w =>
    match bucket w b with
    | Resolved objs =>
        match List.find (isCurrent k) objs with
        | Some o =>
            (Resolved {| stat_size := Z.of_nat (String.length (so_body o));
                         stat_lastModified := so_lastModified o;
                         stat_etag := so_versionId o;
                         stat_metaData := Some (so_metaData o) |}, w)
        | None => (Rejected (S3Error "NotFound"), w)
        end
    | Rejected e => (Rejected e, w)
    end.

(** Removal deletes every version; as in S3, removing an absent key is not
    an error. *)
Definition mem_removeObject (b k : string) : Promise World unit :=
  fun w =>
    match bucket w b with
    | Resolved objs =>
        (Resolved (),
         setBucket w b (List.filter (fun o => negb (bool_decide (so_key o = k))) objs) 0)
    | Rejected e => (Rejected e, w)
    end.

Definition toItem (o : StoredObject) : BucketItem :=
  {| item_name := Some (so_key o);
     item_size := Some (Z.of_nat (String.length (so_body o)));
     item_lastModified := Some (so_lastModified o);
     item_etag := Some (so_versionId o);
     item_versionId := Some (so_versionId o);
     item_isLatest := Some (so_isLatest o) |}.

Definition mem_listObjects (b prefix : string) (recursive : bool)
    : World → ObjectStream * World :=
  fun w =>
    match bucket w b with
    | Resolved objs =>
        ({| yielded := toItem <$> List.filter (fun o => String.prefix prefix (so_key o)) objs;
            failure := None |}, w)
    | Rejected e => ({| yielded := []; failure := Some e |}, w)
    end.

Definition mem_getObjectTagging (b k : string) : Promise World Js.value :=
  fun w =>
    match bucket w b with
    | Resolved objs =>
        match List.find (isCurrent k) objs with
        | Some o => (Resolved (taggingResponse (so_tagging o)), w)
        | None => (Rejected (S3Error "NoSuchKey"), w)
        end
    | Rejected e => (Rejected e, w)
    end.

Definition mem_setObjectTagging (b k : string) (tags : Js.object string)
    : Promise World unit :=
  fun w =>
    match bucket w b with
    | Resolved objs =>
        match List.find (isCurrent k) objs with
        | Some _ => (Resolved (), setBucket w b (retag k tags <$> objs) 0)
        | None => (Rejected (S3Error "NoSuchKey"), w)
        end
    | Rejected e => (Rejected e, w)
    end.

Definition minio : Client World :=
  {| putObject := mem_putObject;
     getObject := mem_getObject;
     statObject := mem_statObject;
     removeObject := mem_removeObject;
     listObjects := mem_listObjects;
     getObjectTagging := mem_getObjectTagging;
     setObjectTagging := mem_setObjectTagging |}.

(** Instants are printed in decimal and read back digit by digit. *)
Fixpoint readDigits (s : string) (acc : Z) : Z :=
  match s with
  | EmptyString => acc
  | String c rest =>
      readDigits rest (10 * acc + (Z.of_nat (Ascii.nat_of_ascii c) - 48))
  end.

Definition date : JsDate World :=
  {| newDate w := (clock w, {| buckets := buckets w; offline := offline w;
                               clock := clock w + 1 |});
     toISOString := pretty;
     getTime s := readDigits s 0 |}.

(** A store with the two buckets of [config], both empty. *)
Definition fresh (config : MinioConfig) : World :=
  {| buckets := {[ bucketName config +:+ "-working" := [];
                   bucketName config +:+ "-stable" := [] ]};
     offline := [];
     clock := 1000 |}.

End MemStore.

(** ** Vocabulary of the properties *)

(** Run [p] and keep the state it leaves. *)
Definition after {W A} (p : Promise W A) (w : W) : W := (p w).2.

(** The calls a computation on a traced client adds to the log. *)
Definition callsOf {W A} (p : Promise (W * list Call) A) (w : W) : list Call :=
  (p (w, [])).2.2.

(** The service [this] with its client replaced by the traced one. *)
Definition withTrace {W} (this : BlobStorageService W)
    : BlobStorageService (W * list Call) :=
  {| client := traced (client this);
     workingBucket := workingBucket this;
     stableBucket := stableBucket this |}.

(** Every bucket of the list, tried in order from state [w], rejects the
    call; [w'] is the state left after the last attempt. *)
Inductive allReject {W A} (call : string → Promise W A)
    : list string → W → W → Prop :=
| allReject_nil w : allReject call [] w w
| allReject_cons b bs w e w1 w2 :
    call b w = (Rejected e, w1) →
    allReject call bs w1 w2 →
    allReject call (b :: bs) w w2.

(** The shape shared by the fallback loops: [call] is tried on each bucket
    in order, the first resolution is the answer, a rejection moves on to
    the next bucket, and [otherwise] runs once every bucket has rejected. *)
Fixpoint firstResolved {W A} (call : string → Promise W A)
    (otherwise : Promise W A) (buckets : list string) : Promise W A :=
  match buckets with
  | [] => otherwise
  | bucket :: rest =>
      tryCatch (call bucket) (fun _ => firstResolved call otherwise rest)
  end.

(** [obj.name === fileName] *)
Definition exactName (fileName : string) (obj : BucketItem) : bool :=
  bool_decide (item_name obj = Some fileName).

(** [v] is the version entry built from the listing entry [obj]. *)
Definition versionOf {W} (Date : JsDate W) (obj : BucketItem) (v : FileVersion)
    : Prop :=
  fv_versionId v = Js.or_string (item_versionId obj) "null" ∧
  fv_size v = default 0 (item_size obj) ∧
  fv_etag v = Js.or_string (item_etag obj) "" ∧
  fv_isLatest v = default false (item_isLatest obj) ∧
  ∀ t, item_lastModified obj = Some t → fv_lastModified v = toISOString Date t.

(** Every bucket of the list, tried in order from state [w], contributes no
    version of [fileName]: its listing failed, or held no entry of exactly
    that name. *)
Inductive noVersions {W} (Date : JsDate W) (this : BlobStorageService W)
    (fileName : string) : list string → W → W → Prop :=
| noVersions_nil w : noVersions Date this fileName [] w w
| noVersions_cons b bs w stream w1 versions w2 w3 :
    listObjects (client this) b fileName true w = (stream, w1) →
    forAwaitVersions Date fileName (yielded stream) [] w1 = (versions, w2) →
    failure stream ≠ None ∨ versions = [] →
    noVersions Date this fileName bs w2 w3 →
    noVersions Date this fileName (b :: bs) w w3.

(** The times of a version list, as the comparator of the sort reads them. *)
Definition versionTimes {W} (Date : JsDate W) (l : list FileVersion) : list Z :=
  (fun v => getTime Date (fv_lastModified v)) <$> l.

(** ** Scenarios on the in-memory store *)

Definition calcpad : MinioConfig :=
  {| endpoint := "localhost:9000"; accessKey := "minio"; secretKey := "minio123";
     bucketName := "calcpad"; useSSL := false |}.

Definition memService : BlobStorageService MemStore.World :=
  constructor calcpad MemStore.minio.

Definition alice : UserContext :=
  {| userId := "u1"; username := "alice"; role := Contributor |}.
Definition victor : UserContext :=
  {| userId := "u2"; username := "victor"; role := Viewer |}.
Definition root : UserContext :=
  {| userId := "u0"; username := "root"; role := Admin |}.

(** [report.pdf] uploaded by a contributor and, with other bytes, by an
    admin: the name lives in both buckets. *)
Definition bothBuckets : MemStore.World :=
  after (uploadFileAsync MemStore.date memService "report.pdf" "stable bytes"
           root None None None)
    (after (uploadFileAsync MemStore.date memService "report.pdf" "working bytes"
              alice (Some "application/pdf") (Some ["Draft"; "Reviewed"]) None)
       (MemStore.fresh calcpad)).

(** [release.pdf] uploaded by an admin only. *)
Definition stableOnly : MemStore.World :=
  after (uploadFileAsync MemStore.date memService "release.pdf" "released"
           root None None None)
    (MemStore.fresh calcpad).

(** The same store with the stable bucket unreachable. *)
Definition stableOffline : MemStore.World :=
  {| MemStore.buckets := MemStore.buckets bothBuckets;
     MemStore.offline := ["calcpad-stable"];
     MemStore.clock := MemStore.clock bothBuckets |}.

(** An empty store whose working bucket is unreachable. *)
Definition workingOffline : MemStore.World :=
  {| MemStore.buckets := MemStore.buckets (MemStore.fresh calcpad);
     MemStore.offline := ["calcpad-working"];
     MemStore.clock := 1000 |}.

(** Two versions of [report.pdf] in the working bucket that carry the same
    last-modified instant. *)
Definition sameInstant : MemStore.World :=
  {| MemStore.buckets :=
       {[ "calcpad-working" :=
            [ {| MemStore.so_key := "report.pdf"; MemStore.so_versionId := "v1";
                 MemStore.so_body := "first"; MemStore.so_metaData := [];
                 MemStore.so_tagging := []; MemStore.so_lastModified := 1000;
                 MemStore.so_isLatest := false |};
              {| MemStore.so_key := "report.pdf"; MemStore.so_versionId := "v2";
                 MemStore.so_body := "second"; MemStore.so_metaData := [];
                 MemStore.so_tagging := []; MemStore.so_lastModified := 1000;
                 MemStore.so_isLatest := true |} ];
          "calcpad-stable" := [] ]};
     MemStore.offline := [];
     MemStore.clock := 1001 |}.

(** Three uploads of [report.pdf] by a contributor, at three instants. *)
Definition threeUploads : MemStore.World :=
  let upload body :=
    after (uploadFileAsync MemStore.date memService "report.pdf" body alice
             None None None) in
  upload "third" (upload "second" (upload "first" (MemStore.fresh calcpad))).

(** * The rest of the service and its callers *)

(** ** Metadata and base64 reads ([services/BlobStorageService.ts]) *)

Section ServiceReads.
Context {W : Type} (Date : JsDate W) (this : BlobStorageService W).

(** The object literal of [getFileMetadataAsync], built from the answer of
    [statObject]. *)
Definition statMetadata (fileName : string) (stat : BucketItemStat)
    : BlobMetadata :=
  {| bm_fileName := fileName;
     bm_size := stat_size stat;
     bm_lastModified := toISOString Date (stat_lastModified stat);
     bm_etag := stat_etag stat;
     bm_contentType := metaField stat "content-type";
     bm_versionId := None;
     bm_isDir := false;
     bm_isLatest := true;
     bm_category := metaField stat "category";
     bm_created := metaField stat "created";
     bm_updated := metaField stat "updated";
     bm_reviewed := metaField stat "reviewed";
     bm_tested := metaField stat "tested";
     bm_createdBy := metaField stat "created-by" |}.

(** The loop of [getFileMetadataAsync]; [None] is [null]. *)
Fixpoint metadataFrom (fileName : string) (buckets : list string)
    : Promise W (option BlobMetadata) :=
  match buckets with
  | [] => resolve None
  | bucket :: rest =>
      tryCatch (let! stat := statObject (client this) bucket fileName in
                resolve (Some (statMetadata fileName stat)))
               (fun _ => metadataFrom fileName rest)
  end.

Definition getFileMetadataAsync (fileName : string) (userContext : UserContext)
    : Promise W (option BlobMetadata) :=
  metadataFrom fileName (readBuckets this userContext).

(** [getFileBase64Async]: the chunks of the downloaded stream are
    concatenated and encoded; [toBase64] is [Buffer.toString('base64')]. *)
Definition getFileBase64Async (toBase64 : string → string) (fileName : string)
    (userContext : UserContext) : Promise W string :=
  let! stream := downloadFileAsync this fileName userContext in
  resolve (toBase64 stream).

End ServiceReads.

(** ** Bucket management ([services/BlobStorageService.ts], [index.ts]) *)

(** The two bucket calls of the client that the service uses at start-up. *)
Record BucketClient (W : Type) : Type := {
  client_bucketExists : string → Promise W bool;
  client_makeBucket : string → Promise W unit }.
Arguments client_bucketExists {W} _ _.
Arguments client_makeBucket {W} _ _.

Section Buckets.
Context {W : Type} (minio : BucketClient W).

(** [bucketExists(bucketName)]: an error of the client is logged and
    answered with [false]. *)
Definition bucketExists (bucketName : string) : Promise W bool :=
  tryCatch (client_bucketExists minio bucketName) (fun _ => resolve false).

(** [createBucket(bucketName)]: an error is logged and thrown again. *)
Definition createBucket (bucketName : string) : Promise W unit :=
  tryCatch (client_makeBucket minio bucketName) (fun error => throw error).

(** [enableVersioning(bucketName)] only writes a note to the log. *)
Definition enableVersioning (bucketName : string) : Promise W unit :=
  tryCatch (resolve ()) (fun error => throw error).

(** The [for] loop of [initializeMinIOBuckets] over the remaining names. *)
Fixpoint initializeFrom (buckets : list string) : Promise W unit :=
  match buckets with
  | [] => resolve ()
  | bucketName :: rest =>
      let! exists_ := bucketExists bucketName in
      (if negb exists_
       then createBucket bucketName ;; enableVersioning bucketName
       else resolve ()) ;;
      initializeFrom rest
  end.

(** The bucket names written in [initializeMinIOBuckets]. *)
Definition initialBuckets : list string :=
  ["calcpad-storage-working"; "calcpad-storage-stable"].

Definition initializeMinIOBuckets : Promise W unit :=
  tryCatch (initializeFrom initialBuckets) (fun error => throw error).

End Buckets.

(** A bucket call, for the log of a traced bucket client. *)
Inductive BucketCall : Type :=
| BucketExists (bucket : string)
| MakeBucket (bucket : string).

Definition loggedBucket {W A} (c : BucketCall) (p : W → A * W)
    : W * list BucketCall → A * (W * list BucketCall) :=
  fun '(w, log) => let '(a, w) := p w in (a, (w, log ++ [c])).

Definition tracedBuckets {W} (c : BucketClient W)
    : BucketClient (W * list BucketCall) :=
  {| client_bucketExists b := loggedBucket (BucketExists b) (client_bucketExists c b);
     client_makeBucket b := loggedBucket (MakeBucket b) (client_makeBucket c b) |}.

(** The bucket calls of the in-memory store. *)
Definition mem_bucketExists (b : string) : Promise MemStore.World bool :=
  fun w =>
    if bool_decide (b ∈ MemStore.offline w)
    then (Rejected (S3Error "ServiceUnavailable"), w)
    else (Resolved (bool_decide (is_Some (MemStore.buckets w !! b))), w).

Definition mem_makeBucket (b : string) : Promise MemStore.World unit :=
  fun w =>
    if bool_decide (b ∈ MemStore.offline w)
    then (Rejected (S3Error "ServiceUnavailable"), w)
    else if bool_decide (is_Some (MemStore.buckets w !! b))
    then (Rejected (S3Error "BucketAlreadyOwnedByYou"), w)
    else (Resolved (), MemStore.setBucket w b [] 0).

Definition memBuckets : BucketClient MemStore.World :=
  {| client_bucketExists := mem_bucketExists;
     client_makeBucket := mem_makeBucket |}.

(** A store without any bucket. *)
Definition noBuckets : MemStore.World :=
  {| MemStore.buckets := ∅; MemStore.offline := []; MemStore.clock := 1000 |}.


(** ** Vocabulary of the further properties *)

(** The entries that the listings of the buckets yield, one bucket after
    the other from state [w], and the state left. *)
Fixpoint listedItems {W} (this : BlobStorageService W) (buckets : list string)
    (w : W) : list BucketItem * W :=
  match buckets with
  | [] => ([], w)
  | bucket :: rest =>
      let '(stream, w) := listObjects (client this) bucket "" true w in
      let '(items, w) := listedItems this rest w in
      (yielded stream ++ items, w)
  end.

(** The names of listing entries that [obj.name &&] lets through. *)
Definition truthyNames (items : list BucketItem) : list string :=
  omap (fun obj => if Js.truthy (item_name obj) then item_name obj else None)
       items.


(** Start-up makes sure of bucket [b]: the client reports it present, or
    it does not (it answers [false], or its call fails) and the creation
    succeeds.  The list holds the calls made. *)
Inductive ensureBucket {W} (c : BucketClient W) (b : string)
    : W → list BucketCall → W → Prop :=
| ensure_present w w1 :
    client_bucketExists c b w = (Resolved true, w1) →
    ensureBucket c b w [BucketExists b] w1
| ensure_created w r w1 w2 :
    client_bucketExists c b w = (r, w1) → r ≠ Resolved true →
    client_makeBucket c b w1 = (Resolved (), w2) →
    ensureBucket c b w [BucketExists b; MakeBucket b] w2.

(** Start-up fails on bucket [b]: the client does not report it present
    and the creation is rejected with [e]. *)
Inductive createFails {W} (c : BucketClient W) (b : string)
    : W → list BucketCall → exn → W → Prop :=
| create_fails w r w1 e w2 :
    client_bucketExists c b w = (r, w1) → r ≠ Resolved true →
    client_makeBucket c b w1 = (Rejected e, w2) →
    createFails c b w [BucketExists b; MakeBucket b] e w2.


(** ** Requests and responses ([express]) *)

(** [req.file], as the upload middleware provides it. *)
Record MulterFile : Type := {
  originalname : string;
  mimetype : string;
  buffer : string }.

(** The parts of a request that the blob routes read.  The two multipart
    fields of an upload are kept as the text received; [req_body] is the
    parsed JSON body. *)
Record Request : Type := {
  req_authorization : option string;
  req_userContext : option UserContext;
  req_fileName : string;
  req_versionId : string;
  req_file : option MulterFile;
  req_tags : option string;
  req_metadata : option string;
  req_body : Js.value }.

Inductive ResponseBody : Type :=
| JsonMessage (message : string)
| JsonUploaded (fileName message : string)
| JsonNames (files : list string)
| JsonMetadataList (files : list BlobMetadata)
| JsonExists (fileName : string) (found : bool)
| JsonMetadata (metadata : option BlobMetadata)
| JsonTags (fileName : string) (tags : list string)
| JsonVersions (versions : list FileVersion)
| JsonBase64 (fileName base64 : string)
| Attachment (contentDisposition contentType : string) (stream : Readable).

Record Response : Type := {
  status : Z;
  payload : ResponseBody }.

(** [res.status(code).json({ message })] and [res.json(payload)]. *)
Definition respond (code : Z) (message : string) : Response :=
  {| status := code; payload := JsonMessage message |}.
Definition ok (body : ResponseBody) : Response :=
  {| status := 200; payload := body |}.

(** The double quote character. *)
Definition dquote : string := String (Ascii.ascii_of_nat 34) EmptyString.

(** The library calls of the controller: [JSON.parse] on the two multipart
    fields (read at the types the service declares for them; a rejection is
    the [SyntaxError]), the Joi schema of a tag update (an error message or
    the validated tags) and [Buffer.toString('base64')]. *)
Record Libraries : Type := {
  parseTags : string → settled (list string);
  parseMetadata : string → settled (Js.object string);
  validateTags : Js.value → string + list string;
  toBase64 : string → string }.

(** ** The authentication middleware ([middleware/auth.ts], [utils/jwt.ts]) *)

(** A verified token carries the context it was signed for. *)
Record JwtPayload : Type := {
  payload_userId : string;
  payload_username : string;
  payload_role : UserRole }.

(** [JwtService.verifyToken]: [jwtVerify] is [jwt.verify] with the secret,
    issuer and audience of the service; whatever it throws becomes
    [null]. *)
Definition verifyToken (jwtVerify : string → settled JwtPayload)
    (token : string) : option JwtPayload :=
  match jwtVerify token with
  | Resolved decoded => Some decoded
  | Rejected _ => None
  end.

(** A middleware answers the request or hands it on ([next()]). *)
Definition Middleware : Type := Request → Response + Request.

Definition authenticate (jwtVerify : string → settled JwtPayload) : Middleware :=
  fun req =>
    match req_authorization req with
    | Some authHeader =>
        if String.prefix "Bearer " authHeader then
          let token := String.substring 7 (String.length authHeader - 7) authHeader in
          match verifyToken jwtVerify token with
          | Some payload =>
              inr {| req_authorization := req_authorization req;
                     req_userContext :=
                       Some {| userId := payload_userId payload;
                               username := payload_username payload;
                               role := payload_role payload |};
                     req_fileName := req_fileName req;
                     req_versionId := req_versionId req;
                     req_file := req_file req;
                     req_tags := req_tags req;
                     req_metadata := req_metadata req;
                     req_body := req_body req |}
          | None => inl (respond 401 "Invalid or expired token")
          end
        else inl (respond 401 "Authorization header missing or invalid")
    | None => inl (respond 401 "Authorization header missing or invalid")
    end.

Definition requireRole (requiredRole : UserRole) : Middleware :=
  fun req =>
    match req_userContext req with
    | None => inl (respond 401 "Authentication required")
    | Some userContext =>
        if bool_decide (roleValue (role userContext) < roleValue requiredRole)
        then inl (respond 403 "Insufficient permissions")
        else inr req
    end.


(** ** The blob storage controller ([controllers/BlobStorageController.ts]) *)

Section Controller.
Context {W : Type} (Date : JsDate W) (lib : Libraries)
        (blobStorageService : BlobStorageService W).

(** [try { body } catch (error) { res.status(500).json(...) }]: every
    handler is wrapped this way. *)
Definition handle (body : Promise W Response) : Promise W Response :=
  tryCatch body (fun _ => resolve (respond 500 "Internal server error")).

(** A library call made inside a handler. *)
Definition sync {A} (r : settled A) : Promise W A := fun w => (r, w).

(** [field ? JSON.parse(field) : undefined] *)
Definition parseField {A} (parse : string → settled A) (field : option string)
    : Promise W (option A) :=
  match field with
  | Some text =>
      if Js.truthy (Some text)
      then let! value := sync (parse text) in resolve (Some value)
      else resolve None
  | None => resolve None
  end.

(** [`File '${fileName}' not found`] *)
Definition fileNotFound (fileName : string) : Response :=
  respond 404 ("File '" +:+ fileName +:+ "' not found").

Definition uploadFile (req : Request) : Promise W Response :=
  handle
    match req_userContext req with
    | Some userContext =>
        if bool_decide (roleValue (role userContext) < roleValue Contributor)
        then resolve (respond 403 "Insufficient permissions")
        else
          match req_file req with
          | None => resolve (respond 400 "No file provided")
          | Some file =>
              let! tags := parseField (parseTags lib) (req_tags req) in
              let! metadata := parseField (parseMetadata lib) (req_metadata req) in
              let fileStream := buffer file in
              let! fileName :=
                uploadFileAsync Date blobStorageService (originalname file)
                  fileStream userContext (Some (mimetype file)) tags metadata in
              resolve (ok (JsonUploaded fileName "File uploaded successfully"))
          end
    | None => resolve (respond 403 "Insufficient permissions")
    end.

Definition downloadFile (req : Request) : Promise W Response :=
  handle
    match req_userContext req with
    | None => resolve (respond 401 "Authentication required")
    | Some userContext =>
        let fileName := req_fileName req in
        let! found := fileExistsAsync blobStorageService fileName userContext in
        if negb found then resolve (fileNotFound fileName)
        else
          let! fileStream :=
            downloadFileAsync blobStorageService fileName userContext in
          resolve (ok (Attachment
                         ("attachment; filename=" +:+ dquote +:+ fileName +:+ dquote)
                         "application/octet-stream" fileStream))
    end.

Definition deleteFile (req : Request) : Promise W Response :=
  handle
    match req_userContext req with
    | Some userContext =>
        if bool_decide (roleValue (role userContext) < roleValue Admin)
        then resolve (respond 403 "Insufficient permissions")
        else
          let fileName := req_fileName req in
          let! found := fileExistsAsync blobStorageService fileName userContext in
          if negb found then resolve (fileNotFound fileName)
          else
            let! deleted :=
              deleteFileAsync blobStorageService fileName userContext in
            if deleted
            then resolve (ok (JsonMessage
                                ("File '" +:+ fileName +:+ "' deleted successfully")))
            else resolve (respond 500 "Failed to delete file")
    | None => resolve (respond 403 "Insufficient permissions")
    end.

Definition listFiles (req : Request) : Promise W Response :=
  handle
    match req_userContext req with
    | None => resolve (respond 401 "Authentication required")
    | Some userContext =>
        let! files := listFilesAsync blobStorageService userContext in
        resolve (ok (JsonNames files))
    end.

Definition listFilesWithMetadata (req : Request) : Promise W Response :=
  handle
    match req_userContext req with
    | None => resolve (respond 401 "Authentication required")
    | Some userContext =>
        let! files :=
          listFilesWithMetadataAsync Date blobStorageService userContext in
        resolve (ok (JsonMetadataList files))
    end.

Definition fileExists (req : Request) : Promise W Response :=
  handle
    match req_userContext req with
    | None => resolve (respond 401 "Authentication required")
    | Some userContext =>
        let fileName := req_fileName req in
        let! found := fileExistsAsync blobStorageService fileName userContext in
        resolve (ok (JsonExists fileName found))
    end.

Definition getFileMetadata (req : Request) : Promise W Response :=
  handle
    match req_userContext req with
    | None => resolve (respond 401 "Authentication required")
    | Some userContext =>
        let fileName := req_fileName req in
        let! found := fileExistsAsync blobStorageService fileName userContext in
        if negb found then resolve (fileNotFound fileName)
        else
          let! metadata :=
            getFileMetadataAsync Date blobStorageService fileName userContext in
          resolve (ok (JsonMetadata metadata))
    end.

Definition getFileTags (req : Request) : Promise W Response :=
  handle
    match req_userContext req with
    | None => resolve (respond 401 "Authentication required")
    | Some userContext =>
        let fileName := req_fileName req in
        let! found := fileExistsAsync blobStorageService fileName userContext in
        if negb found then resolve (fileNotFound fileName)
        else
          let! tags := getFileTagsAsync blobStorageService fileName userContext in
          resolve (ok (JsonTags fileName tags))
    end.

Definition setFileTags (req : Request) : Promise W Response :=
  handle
    match req_userContext req with
    | Some userContext =>
        if bool_decide (roleValue (role userContext) < roleValue Contributor)
        then resolve (respond 403 "Insufficient permissions")
        else
          let fileName := req_fileName req in
          let! found := fileExistsAsync blobStorageService fileName userContext in
          if negb found then resolve (fileNotFound fileName)
          else
            match validateTags lib (req_body req) with
            | inl message => resolve (respond 400 message)
            | inr tags =>
                let! success :=
                  setFileTagsAsync blobStorageService fileName tags userContext in
                if success
                then resolve (ok (JsonMessage
                                    ("Tags updated for file '" +:+ fileName +:+ "'")))
                else resolve (respond 500 "Failed to update tags")
            end
    | None => resolve (respond 403 "Insufficient permissions")
    end.

Definition deleteFileTags (req : Request) : Promise W Response :=
  handle
    match req_userContext req with
    | Some userContext =>
        if bool_decide (roleValue (role userContext) < roleValue Contributor)
        then resolve (respond 403 "Insufficient permissions")
        else
          let fileName := req_fileName req in
          let! found := fileExistsAsync blobStorageService fileName userContext in
          if negb found then resolve (fileNotFound fileName)
          else
            let! success :=
              deleteFileTagsAsync blobStorageService fileName userContext in
            if success
            then resolve (ok (JsonMessage
                                ("Tags removed for file '" +:+ fileName +:+ "'")))
            else resolve (respond 500 "Failed to remove tags")
    | None => resolve (respond 403 "Insufficient permissions")
    end.

Definition getFileVersions (req : Request) : Promise W Response :=
  handle
    match req_userContext req with
    | None => resolve (respond 401 "Authentication required")
    | Some userContext =>
        let fileName := req_fileName req in
        let! found := fileExistsAsync blobStorageService fileName userContext in
        if negb found then resolve (fileNotFound fileName)
        else
          let! versions :=
            listFileVersionsAsync Date blobStorageService fileName userContext in
          resolve (ok (JsonVersions versions))
    end.

Definition downloadFileVersion (req : Request) : Promise W Response :=
  handle
    match req_userContext req with
    | None => resolve (respond 401 "Authentication required")
    | Some userContext =>
        let fileName := req_fileName req in
        let versionId := req_versionId req in
        let! found := fileExistsAsync blobStorageService fileName userContext in
        if negb found then resolve (fileNotFound fileName)
        else
          let! fileStream :=
            downloadFileVersionAsync blobStorageService fileName versionId
              userContext in
          resolve (ok (Attachment
                         ("attachment; filename=" +:+ dquote +:+ fileName +:+ dquote)
                         "application/octet-stream" fileStream))
    end.

Definition getFileBase64 (req : Request) : Promise W Response :=
  handle
    match req_userContext req with
    | None => resolve (respond 401 "Authentication required")
    | Some userContext =>
        let fileName := req_fileName req in
        let! found := fileExistsAsync blobStorageService fileName userContext in
        if negb found then resolve (fileNotFound fileName)
        else
          let! base64String :=
            getFileBase64Async blobStorageService (toBase64 lib) fileName
              userContext in
          resolve (ok (JsonBase64 fileName base64String))
    end.

End Controller.

(** ** The blob routes ([routes/index.ts]) *)

Inductive BlobRoute : Type :=
| PostUpload
| GetDownload
| DeleteFile
| GetList
| GetListWithMetadata
| GetExists
| GetMetadata
| GetTags
| PutTags
| DeleteTags
| GetVersions
| GetDownloadVersion
| GetBase64.

Section Routes.
Context {W : Type} (Date : JsDate W) (lib : Libraries)
        (jwtVerify : string → settled JwtPayload)
        (blobStorageService : BlobStorageService W).

(** The middlewares and the handler registered for each route, in the
    order of [createRoutes].  (The multipart parser of the upload route
    runs after the role check; the request here already holds the file and
    the fields it extracts.) *)
Definition createRoutes (route : BlobRoute)
    : list Middleware * (Request → Promise W Response) :=
  match route with
  | PostUpload =>
      ([authenticate jwtVerify; requireRole Contributor],
       uploadFile Date lib blobStorageService)
  | GetDownload =>
      ([authenticate jwtVerify], downloadFile blobStorageService)
  | DeleteFile =>
      ([authenticate jwtVerify; requireRole Admin],
       deleteFile blobStorageService)
  | GetList => ([authenticate jwtVerify], listFiles blobStorageService)
  | GetListWithMetadata =>
      ([authenticate jwtVerify], listFilesWithMetadata Date blobStorageService)
  | GetExists => ([authenticate jwtVerify], fileExists blobStorageService)
  | GetMetadata =>
      ([authenticate jwtVerify], getFileMetadata Date blobStorageService)
  | GetTags => ([authenticate jwtVerify], getFileTags blobStorageService)
  | PutTags =>
      ([authenticate jwtVerify; requireRole Contributor],
       setFileTags lib blobStorageService)
  | DeleteTags =>
      ([authenticate jwtVerify; requireRole Contributor],
       deleteFileTags blobStorageService)
  | GetVersions =>
      ([authenticate jwtVerify], getFileVersions Date blobStorageService)
  | GetDownloadVersion =>
      ([authenticate jwtVerify], downloadFileVersion blobStorageService)
  | GetBase64 =>
      ([authenticate jwtVerify], getFileBase64 lib blobStorageService)
  end.

(** The middlewares run in order; the first that answers ends the request,
    otherwise the handler runs on the request they handed on. *)
Fixpoint dispatch (middlewares : list Middleware)
    (handler : Request → Promise W Response) (req : Request)
    : Promise W Response :=
  match middlewares with
  | [] => handler req
  | middleware :: rest =>
      match middleware req with
      | inl res => resolve res
      | inr req => dispatch rest handler req
      end
  end.

Definition serve (route : BlobRoute) (req : Request) : Promise W Response :=
  dispatch (createRoutes route).1 (createRoutes route).2 req.

End Routes.


(** ** Vocabulary of the request properties *)

(** The caller that [authenticate] attaches to a request, if it lets the
    request through. *)
Definition caller (jwtVerify : string → settled JwtPayload) (req : Request)
    : option UserContext :=
  match authenticate jwtVerify req with
  | inr req => req_userContext req
  | inl _ => None
  end.

(** The role that the middlewares of a route ask for; a route without
    [requireRole] lets every authenticated caller through. *)
Definition requiredRole (route : BlobRoute) : UserRole :=
  match route with
  | PostUpload | PutTags | DeleteTags => Contributor
  | DeleteFile => Admin
  | _ => Viewer
  end.

(** The routes whose handler first checks that the file exists. *)
Definition checksExistence (route : BlobRoute) : bool :=
  match route with
  | PostUpload | GetList | GetListWithMetadata | GetExists => false
  | _ => true
  end.

Definition isRemove (c : Call) : bool :=
  match c with RemoveObject _ _ => true | _ => false end.

(** A computation on a traced client keeps the log within [P]: every call
    it adds satisfies [P]. *)
Definition preserves {W A} (P : Call → Prop)
    (p : W * list Call → A * (W * list Call)) : Prop :=
  ∀ w log, Forall P log → Forall P (p (w, log)).2.2.

(** Whatever a computation resolves to satisfies [Q]. *)
Definition yields {W A} (Q : A → Prop) (p : Promise W A) : Prop :=
  ∀ w r w', p w = (Resolved r, w') → Q r.

(** The statuses of a request that got past the middlewares. *)
Definition served (res : Response) : Prop :=
  status res = 200 ∨ status res = 400 ∨ status res = 404 ∨ status res = 500.

(** ** A sample deployment of the routes *)

(** A verification that knows three tokens. *)
Definition tokens (token : string) : settled JwtPayload :=
  if bool_decide (token = "alice-token")
  then Resolved {| payload_userId := "u1"; payload_username := "alice";
                   payload_role := Contributor |}
  else if bool_decide (token = "victor-token")
  then Resolved {| payload_userId := "u2"; payload_username := "victor";
                   payload_role := Viewer |}
  else if bool_decide (token = "root-token")
  then Resolved {| payload_userId := "u0"; payload_username := "root";
                   payload_role := Admin |}
  else Rejected (JsError "invalid signature").

(** Library calls that accept nothing: every multipart field is malformed
    and every tag update is refused. *)
Definition strictLibraries : Libraries :=
  {| parseTags _ := Rejected (JsError "Unexpected token");
     parseMetadata _ := Rejected (JsError "Unexpected token");
     validateTags _ := inl "tags is required";
     toBase64 text := text |}.

(** A request for [fileName] that carries [token] and nothing else. *)
Definition requestFor (token fileName : string) : Request :=
  {| req_authorization := Some ("Bearer " +:+ token);
     req_userContext := None;
     req_fileName := fileName;
     req_versionId := "";
     req_file := None;
     req_tags := None;
     req_metadata := None;
     req_body := Js.VUndefined |}.





(** The routes whose service calls catch every error of the store. *)
Definition catchesStoreErrors (route : BlobRoute) : bool :=
  match route with
  | GetList | GetListWithMetadata | GetExists | GetMetadata | GetTags
  | GetVersions => true
  | _ => false
  end.

(** A computation that resolves from every state, to a value within [Q]. *)
Definition answers {W A} (Q : A → Prop) (p : Promise W A) : Prop :=
  ∀ w, ∃ r w', p w = (Resolved r, w') ∧ Q r.


(** * Properties *)

Example encodeTags_two :
  encodeTags ["Draft"; "Reviewed"] = [("tag-0", "Draft"); ("tag-1", "Reviewed")].
Proof. reflexivity. Qed.

Example decode_encode_two :
  decodeTags (taggingResponse (encodeTags ["Draft"; ""; "Draft"])) = ["Draft"; "Draft"].
Proof. reflexivity. Qed.

(** *** Facts about property bags *)

Lemma set_fresh {V} (o : Js.object V) k v :
  k ∉ Js.keys o → Js.set o k v = o ++ [(k, v)].
Proof.
  induction o as [|[k' v'] o IH]; simpl; [done|].
  intros Hk. apply not_elem_of_cons in Hk as [Hne Hk].
  rewrite bool_decide_eq_false_2 by congruence.
  by rewrite (IH Hk).
Qed.

Lemma get_set_eq {V} (o : Js.object V) k v : Js.get (Js.set o k v) k = Some v.
Proof.
  induction o as [|[k' v'] o IH]; simpl.
  - by rewrite bool_decide_eq_true_2.
  - case_bool_decide as Hk; simpl.
    + by rewrite bool_decide_eq_true_2.
    + by rewrite bool_decide_eq_false_2.
Qed.

Lemma get_set_ne {V} (o : Js.object V) k k' v :
  k ≠ k' → Js.get (Js.set o k v) k' = Js.get o k'.
Proof.
  intros Hne. induction o as [|[k0 v0] o IH]; simpl.
  - by rewrite bool_decide_eq_false_2.
  - case_bool_decide as Hk; simpl.
    + subst k0. by rewrite !bool_decide_eq_false_2.
    + by rewrite IH.
Qed.

Lemma get_assign {V} (target source : Js.object V) k :
  Js.get (Js.assign target source) k =
  match Js.get (reverse source) k with
  | Some v => Some v
  | None => Js.get target k
  end.
Proof.
  revert target. induction source as [|[k0 v0] source IH]; intros target.
  { done. }
  unfold Js.assign in *. simpl. rewrite IH. rewrite reverse_cons.
  assert (Hsnoc : ∀ (o : Js.object V),
    Js.get (o ++ [(k0, v0)]) k =
    match Js.get o k with
    | Some v => Some v
    | None => if bool_decide (k0 = k) then Some v0 else None
    end).
  { induction o as [|[k1 v1] o IHo]; simpl.
    - reflexivity.
    - destruct (bool_decide (k1 = k)); [done|]. apply IHo. }
  rewrite Hsnoc. destruct (Js.get (reverse source) k) as [v|]; [done|].
  case_bool_decide as Hk.
  - subst k0. apply get_set_eq.
  - by apply get_set_ne.
Qed.

(** Whether a key occurs at all is the same read from either end. *)
Lemma get_reverse_None {V} (o : Js.object V) k :
  Js.get (reverse o) k = None ↔ Js.get o k = None.
Proof.
  assert (Hnone : ∀ (o' : Js.object V), Js.get o' k = None ↔ k ∉ Js.keys o').
  { induction o' as [|[k1 v1] o' IHo]; simpl.
    - split; [intros _; apply not_elem_of_nil | done].
    - case_bool_decide as Hk.
      + subst. split; [done|]. intros []. by left.
      + rewrite IHo, not_elem_of_cons. split; [by intros ?; split; [congruence|] | by intros [_ ?]]. }
  rewrite !Hnone. unfold Js.keys. rewrite fmap_reverse, elem_of_reverse. done.
Qed.

(** *** The encoder writes one fresh key per position *)

Lemma tagKey_inj : Inj (=) (=) tagKey.
Proof.
  intros i j Hij. unfold tagKey in Hij.
  apply (inj (String.app "tag-")) in Hij. by apply (inj pretty) in Hij.
Qed.

Lemma forEachTag_spec (tags : list string) : ∀ index tagMap,
  (∀ k, k ∈ Js.keys tagMap → ∃ j, (j < index)%nat ∧ k = tagKey j) →
  forEachTag index tags tagMap =
  tagMap ++ imap (fun j tag => (tagKey (index + j), tag)) tags.
Proof.
  induction tags as [|tag rest IH]; intros index tagMap Hkeys; simpl.
  { by rewrite app_nil_r. }
  assert (Hfresh : tagKey index ∉ Js.keys tagMap).
  { intros Hin. destruct (Hkeys _ Hin) as (j & Hlt & Heq).
    apply tagKey_inj in Heq. lia. }
  rewrite (set_fresh _ _ _ Hfresh). rewrite IH.
  - rewrite <- app_assoc. simpl. rewrite Nat.add_0_r. do 2 f_equal.
    apply imap_ext. intros j t _. simpl. do 2 f_equal. lia.
  - intros k Hk. unfold Js.keys in Hk. rewrite fmap_app in Hk.
    apply elem_of_app in Hk as [Hk|Hk].
    + destruct (Hkeys _ Hk) as (j & Hlt & ->). exists j. split; [lia|done].
    + simpl in Hk. apply list_elem_of_singleton in Hk as ->.
      exists index. split; [lia|done].
Qed.

Lemma encodeTags_spec (tags : list string) :
  encodeTags tags = imap (fun j tag => (tagKey j, tag)) tags.
Proof.
  unfold encodeTags. rewrite forEachTag_spec; [done|].
  intros k Hk. by apply elem_of_nil in Hk.
Qed.

Lemma values_encodeTags (tags : list string) :
  Js.values (encodeTags tags) = tags.
Proof.
  rewrite encodeTags_spec. unfold Js.values.
  assert (H : ∀ (f : nat → string), (imap (fun j tag => (f j, tag)) tags).*2 = tags).
  { induction tags as [|t ts IH]; intros f; simpl; [done|].
    f_equal. apply (IH (f ∘ S)). }
  apply (H tagKey).
Qed.

Lemma toStrings_filter_strings (l : list string) :
  toStrings (List.filter isNonEmptyString (Js.VString <$> l)) =
  List.filter nonEmpty l.
Proof.
  induction l as [|s l IH]; simpl; [done|].
  destruct (nonEmpty s); simpl; by rewrite <- IH.
Qed.

Lemma decodeTags_response (tagMap : Js.object string) :
  decodeTags (taggingResponse tagMap) = List.filter nonEmpty (Js.values tagMap).
Proof.
  unfold decodeTags, taggingResponse, Js.values.
  rewrite <- toStrings_filter_strings. do 2 f_equal.
  rewrite <- !list_fmap_compose. by apply list_fmap_ext; intros ? [k v].
Qed.

(** ** Bucket resolution *)


Lemma roleValue_le_2 (r : UserRole) :
  roleValue r ≤ 2 ↔ r = Viewer ∨ r = Contributor.
Proof.
  destruct r; simpl; split; intros H; try lia; auto;
    by destruct H as [H|H]; discriminate H.
Qed.

Lemma roleValue_eq_3 (r : UserRole) : roleValue r = 3 ↔ r = Admin.
Proof. destruct r; simpl; split; intros H; try lia; auto; discriminate H. Qed.

Section Resolution.
Context {W : Type} (this : BlobStorageService W).

Lemma getBucketName_nonadmin ctx :
  role ctx ≠ Admin → getBucketName this ctx = workingBucket this.
Proof. unfold getBucketName. by destruct (role ctx). Qed.

Lemma getBucketName_admin ctx :
  role ctx = Admin → getBucketName this ctx = stableBucket this.
Proof. unfold getBucketName. by intros ->. Qed.

Lemma readBuckets_nonadmin ctx :
  role ctx ≠ Admin → readBuckets this ctx = [workingBucket this].
Proof. unfold readBuckets, getBucketName. by destruct (role ctx). Qed.

Lemma readBuckets_admin ctx :
  role ctx = Admin →
  readBuckets this ctx = [stableBucket this; workingBucket this].
Proof. unfold readBuckets, getBucketName. by intros ->. Qed.

End Resolution.

(** ** Tag codec *)

Lemma nonEmpty_true (s : string) : s ≠ "" → nonEmpty s = true.
Proof.
  destruct s as [|c s]; [done|]. intros _.
  apply bool_decide_eq_true_2. simpl. lia.
Qed.

Lemma filter_nonEmpty_id (tags : list string) :
  Forall (fun tag => tag ≠ "") tags → List.filter nonEmpty tags = tags.
Proof.
  induction 1 as [|tag tags Hne _ IH]; simpl; [done|].
  by rewrite (nonEmpty_true _ Hne), IH.
Qed.


(** ** Upload metadata *)

Lemma get_Some_NoDup {V} (o : Js.object V) k v :
  NoDup (Js.keys o) → Js.get o k = Some v ↔ (k, v) ∈ o.
Proof.
  induction o as [|[k1 v1] o IH]; simpl; intros Hnd.
  { split; [done|]. intros H. by apply elem_of_nil in H. }
  apply NoDup_cons in Hnd as [Hk1 Hnd]. rewrite elem_of_cons.
  case_bool_decide as Hk.
  - subst k1. split.
    + intros [= ->]. by left.
    + intros [[= ->]|Hin]; [done|]. destruct Hk1.
      unfold Js.keys. apply list_elem_of_fmap. by exists (k, v).
  - rewrite (IH Hnd). split; [by right|].
    intros [[= ? ?]|Hin]; [by subst|done].
Qed.

Lemma get_reverse_NoDup {V} (o : Js.object V) k :
  NoDup (Js.keys o) → Js.get (reverse o) k = Js.get o k.
Proof.
  intros Hnd. apply option_eq. intros v.
  rewrite !get_Some_NoDup, ?elem_of_reverse; [done..|].
  unfold Js.keys. by rewrite fmap_reverse, reverse_Permutation.
Qed.

Section Upload.
Context {W : Type} (Date : JsDate W).

Lemma uploadMetaData_caller ctx contentType metadata createdAt key v :
  NoDup (Js.keys (default [] metadata)) →
  Js.get (default [] metadata) key = Some v →
  Js.get (uploadMetaData Date ctx contentType metadata createdAt) key = Some v.
Proof.
  intros Hnd Hget. unfold uploadMetaData.
  by rewrite get_assign, (get_reverse_NoDup _ _ Hnd), Hget.
Qed.

Lemma uploadMetaData_system ctx contentType metadata createdAt key :
  Js.get (default [] metadata) key = None →
  Js.get (uploadMetaData Date ctx contentType metadata createdAt) key =
  Js.get [("Content-Type", Js.or_string contentType "application/octet-stream");
          ("created-by", username ctx);
          ("created-at", toISOString Date createdAt)] key.
Proof.
  intros Hget. unfold uploadMetaData. rewrite get_assign.
  apply get_reverse_None in Hget. by rewrite Hget.
Qed.

End Upload.

(** ** Running a service call *)

(** Unfold the promise combinators and split on the outcome of every client
    call that the goal inspects. *)
Ltac run_step :=
  match goal with
  | |- context [match ?p ?w with _ => _ end] =>
      lazymatch type of (p w) with
      | (settled _ * _)%type => destruct (p w) as [[?|?] ?] eqn:?
      | (_ * _)%type => destruct (p w) as [? ?] eqn:?
      end
  end.

Ltac run :=
  simpl;
  repeat (first
    [ progress (unfold callsOf, await, tryCatch, resolve, throw, logged; simpl)
    | run_step; simpl ]).

Section Writes.
Context {W : Type} (Date : JsDate W) (this : BlobStorageService W).

Lemma getBucketName_withTrace ctx :
  getBucketName (withTrace this) ctx = getBucketName this ctx.
Proof. done. Qed.

(** The calls of an upload: one [putObject] on the caller's bucket carrying
    the merged metadata, then at most one [setObjectTagging] on the same
    bucket. *)
Lemma upload_calls fileName stream ctx contentType tags metadata w :
  ∃ rest,
    callsOf (uploadFileAsync (tracedDate Date) (withTrace this) fileName stream
               ctx contentType tags metadata) w =
    PutObject (getBucketName this ctx) fileName
      (uploadMetaData Date ctx contentType metadata (newDate Date w).1) :: rest ∧
    (rest = [] ∨
     rest = [SetObjectTagging (getBucketName this ctx) fileName
               (encodeTags (default [] tags))]).
Proof.
  unfold uploadFileAsync.
  destruct tags as [[|tag tags]|]; run; simplify_eq; simpl; eauto.
Qed.

Lemma setFileTags_calls fileName tags ctx w :
  callsOf (setFileTagsAsync (withTrace this) fileName tags ctx) w =
  [SetObjectTagging (getBucketName this ctx) fileName (encodeTags tags)].
Proof. unfold setFileTagsAsync. by run. Qed.

Lemma deleteFileTags_calls fileName ctx w :
  callsOf (deleteFileTagsAsync (withTrace this) fileName ctx) w =
  [SetObjectTagging (getBucketName this ctx) fileName []].
Proof. unfold deleteFileTagsAsync. by run. Qed.

End Writes.

(** C10: the metadata an upload hands to the store carries, for every key
    the caller supplied (so also for [created-by], [created-at] and
    [Content-Type]), the caller's value; when the caller supplied none of
    [created-by], [created-at], [Content-Type], the stored value is the
    username of the caller, the instant of the upload, and the content type
    (or its default). *)
Theorem upload_metadata_caller_wins {W} (Date : JsDate W)
    (this : BlobStorageService W) fileName stream ctx contentType tags
    metadata w :
  NoDup (Js.keys (default [] metadata)) →
  ∃ stored rest,
    callsOf (uploadFileAsync (tracedDate Date) (withTrace this) fileName stream
               ctx contentType tags metadata) w =
      PutObject (getBucketName this ctx) fileName stored :: rest ∧
    (∀ key v, Js.get (default [] metadata) key = Some v →
              Js.get stored key = Some v) ∧
    (Js.get (default [] metadata) "created-by" = None →
     Js.get stored "created-by" = Some (username ctx)) ∧
    (Js.get (default [] metadata) "created-at" = None →
     Js.get stored "created-at" = Some (toISOString Date (newDate Date w).1)) ∧
    (Js.get (default [] metadata) "Content-Type" = None →
     Js.get stored "Content-Type" =
       Some (Js.or_string contentType "application/octet-stream")).
Proof.
  intros Hnd.
  destruct (upload_calls Date this fileName stream ctx contentType tags
              metadata w) as (rest & Hcalls & _).
  eexists _, rest. split; [exact Hcalls|].
  split; [|split; [|split]].
  - intros key v. by apply uploadMetaData_caller.
  - intros Hnone. by rewrite uploadMetaData_system.
  - intros Hnone. by rewrite uploadMetaData_system.
  - intros Hnone. by rewrite uploadMetaData_system.
Qed.

Lemma upload_metadata_caller_wins_witness :
  NoDup (Js.keys [("created-by", "mallory")]) ∧
  ∃ stored rest,
    callsOf (uploadFileAsync (tracedDate MemStore.date) (withTrace memService)
               "report.pdf" "bytes" alice (Some "application/pdf") None
               (Some [("created-by", "mallory")])) (MemStore.fresh calcpad) =
      PutObject "calcpad-working" "report.pdf" stored :: rest ∧
    Js.get stored "created-by" = Some "mallory" ∧
    Js.get stored "created-at" = Some "1000" ∧
    Js.get stored "Content-Type" = Some "application/pdf".
Proof.
  assert (Hnd : NoDup (Js.keys [("created-by", "mallory")])).
  { apply NoDup_singleton. }
  split; [exact Hnd|].
  destruct (upload_metadata_caller_wins MemStore.date memService "report.pdf"
              "bytes" alice (Some "application/pdf") None
              (Some [("created-by", "mallory")]) (MemStore.fresh calcpad) Hnd)
    as (stored & rest & Hcalls & Hcaller & _ & Hat & Htype).
  exists stored, rest. split; [exact Hcalls|].
  split; [by apply Hcaller|]. split; [by apply Hat|by apply Htype].
Defined.

(** C8: the bucket of a caller is the configured base name followed by
    [-working] when the role is Viewer or Contributor (value at most 2) and
    by [-stable] when it is Admin (value 3); it depends on the role only,
    and every call that upload, set-tags and delete-tags make on the store
    addresses that bucket. *)
Theorem write_bucket_by_role {W} (Date : JsDate W) (minio : Client W)
    (config : MinioConfig) (ctx : UserContext) :
  let this := constructor config minio in
  let primary :=
    match role ctx with
    | Viewer | Contributor => bucketName config +:+ "-working"
    | Admin => bucketName config +:+ "-stable"
    end in
  (roleValue (role ctx) ≤ 2 ↔ role ctx = Viewer ∨ role ctx = Contributor) ∧
  (roleValue (role ctx) = 3 ↔ role ctx = Admin) ∧
  getBucketName this ctx = primary ∧
  (∀ ctx', role ctx' = role ctx → getBucketName this ctx' = primary) ∧
  (∀ fileName stream contentType tags metadata w,
     let calls := callsOf (uploadFileAsync (tracedDate Date) (withTrace this)
                             fileName stream ctx contentType tags metadata) w in
     calls ≠ [] ∧ Forall (fun c => callBucket c = primary ∧ isWrite c = true) calls) ∧
  (∀ fileName tags w,
     let calls := callsOf (setFileTagsAsync (withTrace this) fileName tags ctx) w in
     calls ≠ [] ∧ Forall (fun c => callBucket c = primary ∧ isWrite c = true) calls) ∧
  (∀ fileName w,
     let calls := callsOf (deleteFileTagsAsync (withTrace this) fileName ctx) w in
     calls ≠ [] ∧ Forall (fun c => callBucket c = primary ∧ isWrite c = true) calls).
Proof.
  intros this primary.
  assert (Hprimary : ∀ ctx', role ctx' = role ctx →
                             getBucketName this ctx' = primary).
  { intros ctx' Hrole. unfold getBucketName, primary. rewrite Hrole.
    by destruct (role ctx). }
  split; [apply roleValue_le_2|]. split; [apply roleValue_eq_3|].
  split; [by apply Hprimary|]. split; [exact Hprimary|].
  split; [|split].
  - intros fileName stream contentType tags metadata w calls.
    destruct (upload_calls Date this fileName stream ctx contentType tags
                metadata w) as (rest & Hcalls & Hrest).
    subst calls. rewrite Hcalls. split; [done|].
    rewrite (Hprimary ctx eq_refl) in *.
    destruct Hrest as [->| ->]; repeat constructor.
  - intros fileName tags w calls. subst calls.
    rewrite setFileTags_calls, (Hprimary ctx eq_refl).
    split; [done|]. repeat constructor.
  - intros fileName w calls. subst calls.
    rewrite deleteFileTags_calls, (Hprimary ctx eq_refl).
    split; [done|]. repeat constructor.
Qed.

Lemma write_bucket_by_role_witness :
  getBucketName memService root = "calcpad-stable" ∧
  getBucketName memService victor = "calcpad-working" ∧
  getBucketName memService alice = "calcpad-working".
Proof.
  destruct (write_bucket_by_role MemStore.date MemStore.minio calcpad root)
    as (_ & _ & Hroot & _).
  destruct (write_bucket_by_role MemStore.date MemStore.minio calcpad victor)
    as (_ & _ & Hvictor & _).
  destruct (write_bucket_by_role MemStore.date MemStore.minio calcpad
              {| userId := "u3"; username := "carol"; role := Contributor |})
    as (_ & _ & _ & Hsame & _).
  split; [exact Hroot|]. split; [exact Hvictor|].
  apply (Hsame alice). reflexivity.
Defined.

(** ** Fallback loops *)

Section Fallback.
Context {W A : Type} (call : string → Promise W A) (otherwise : Promise W A).

Lemma firstResolved_resolved pre b post w w1 r w2 :
  allReject call pre w w1 →
  call b w1 = (Resolved r, w2) →
  firstResolved call otherwise (pre ++ b :: post) w = (Resolved r, w2).
Proof.
  intros Hpre Hb. induction Hpre as [w|b0 bs w e w1 w1' Hcall _ IH]; simpl.
  - unfold tryCatch. by rewrite Hb.
  - unfold tryCatch at 1. rewrite Hcall. by apply IH.
Qed.

Lemma firstResolved_rejected bs w w' :
  allReject call bs w w' →
  firstResolved call otherwise bs w = otherwise w'.
Proof.
  induction 1 as [w|b0 bs w e w1 w1' Hcall _ IH]; simpl; [done|].
  unfold tryCatch at 1. by rewrite Hcall.
Qed.

(** A fallback loop ends in exactly one of two ways. *)
Lemma firstResolved_cases bs w :
  (∃ pre b post w1 r w2,
     bs = pre ++ b :: post ∧ allReject call pre w w1 ∧
     call b w1 = (Resolved r, w2) ∧
     firstResolved call otherwise bs w = (Resolved r, w2)) ∨
  (∃ w', allReject call bs w w' ∧
         firstResolved call otherwise bs w = otherwise w').
Proof.
  revert w. induction bs as [|b bs IH]; intros w; simpl.
  { right. exists w. split; [constructor|done]. }
  unfold tryCatch. destruct (call b w) as [[r|e] w1] eqn:Hcall.
  - left. exists [], b, bs, w, r, w1. repeat split; [constructor|done].
  - destruct (IH w1) as [(pre & b' & post & w2 & r & w3 & -> & Hpre & Hb & Hres)
                        |(w' & Hall & Hres)].
    + left. exists (b :: pre), b', post, w2, r, w3.
      repeat split; [by econstructor|done|done].
    + right. exists w'. split; [by econstructor|done].
Qed.

End Fallback.

Lemma allReject_await {W A B} (p : string → Promise W A) (f : A → B) bs w w' :
  allReject (fun b => let! a := p b in resolve (f a)) bs w w' ↔
  allReject p bs w w'.
Proof.
  split; induction 1 as [w|b0 bs w e w1 w1' Hcall _ IH]; try constructor.
  - unfold await, resolve in Hcall.
    destruct (p b0 w) as [[a|e'] w2] eqn:Hp; simplify_eq.
    by econstructor.
  - econstructor; [|done]. unfold await. by rewrite Hcall.
Qed.

Section Loops.
Context {W : Type} (this : BlobStorageService W).

Lemma downloadFrom_firstResolved fileName bs :
  downloadFrom this fileName bs =
  firstResolved (fun b => getObject (client this) b fileName None)
    (throw (JsError ("File " +:+ fileName +:+ " not found"))) bs.
Proof. induction bs as [|b bs IH]; simpl; by rewrite ?IH. Qed.

Lemma downloadVersionFrom_firstResolved fileName versionId bs :
  downloadVersionFrom this fileName versionId bs =
  firstResolved (fun b => getObject (client this) b fileName (Some versionId))
    (throw (JsError ("File " +:+ fileName +:+ " version " +:+ versionId
                     +:+ " not found"))) bs.
Proof. induction bs as [|b bs IH]; simpl; by rewrite ?IH. Qed.

Lemma existsIn_firstResolved fileName bs :
  existsIn this fileName bs =
  firstResolved
    (fun b => let! stat := statObject (client this) b fileName in resolve true)
    (resolve false) bs.
Proof. induction bs as [|b bs IH]; simpl; by rewrite ?IH. Qed.

Lemma tagsFrom_firstResolved fileName bs :
  tagsFrom this fileName bs =
  firstResolved
    (fun b => let! result := getObjectTagging (client this) b fileName in
              resolve (decodeTags result))
    (resolve []) bs.
Proof. induction bs as [|b bs IH]; simpl; by rewrite ?IH. Qed.

End Loops.

Section FallbackReads.
Context {W : Type} (this : BlobStorageService W).

Lemma firstResolved_throw_rejected {A} (call : string → Promise W A) err bs w e w' :
  firstResolved call (throw err) bs w = (Rejected e, w') ↔
  allReject call bs w w' ∧ e = err.
Proof.
  split.
  - intros Hres.
    destruct (firstResolved_cases call (throw err) bs w)
      as [(pre & b & post & w1 & r & w2 & _ & _ & _ & Heq)|(w'' & Hall & Heq)];
      rewrite Heq in Hres; [discriminate|].
    unfold throw in Hres. by simplify_eq.
  - intros [Hall ->]. by rewrite (firstResolved_rejected _ _ _ _ _ Hall).
Qed.

Lemma downloadFileAsync_resolved fileName ctx w pre b post w1 r w2 :
  readBuckets this ctx = pre ++ b :: post →
  allReject (fun b => getObject (client this) b fileName None) pre w w1 →
  getObject (client this) b fileName None w1 = (Resolved r, w2) →
  downloadFileAsync this fileName ctx w = (Resolved r, w2).
Proof.
  intros Hbs Hpre Hb. unfold downloadFileAsync.
  rewrite downloadFrom_firstResolved, Hbs. by eapply firstResolved_resolved.
Qed.

Lemma downloadFileAsync_rejected fileName ctx w e w' :
  downloadFileAsync this fileName ctx w = (Rejected e, w') ↔
  allReject (fun b => getObject (client this) b fileName None)
    (readBuckets this ctx) w w' ∧
  e = JsError ("File " +:+ fileName +:+ " not found").
Proof.
  unfold downloadFileAsync. rewrite downloadFrom_firstResolved.
  apply firstResolved_throw_rejected.
Qed.

Lemma downloadFileVersionAsync_resolved fileName versionId ctx w pre b post
    w1 r w2 :
  readBuckets this ctx = pre ++ b :: post →
  allReject (fun b => getObject (client this) b fileName (Some versionId)) pre w w1 →
  getObject (client this) b fileName (Some versionId) w1 = (Resolved r, w2) →
  downloadFileVersionAsync this fileName versionId ctx w = (Resolved r, w2).
Proof.
  intros Hbs Hpre Hb. unfold downloadFileVersionAsync.
  rewrite downloadVersionFrom_firstResolved, Hbs.
  by eapply firstResolved_resolved.
Qed.

Lemma downloadFileVersionAsync_rejected fileName versionId ctx w e w' :
  downloadFileVersionAsync this fileName versionId ctx w = (Rejected e, w') ↔
  allReject (fun b => getObject (client this) b fileName (Some versionId))
    (readBuckets this ctx) w w' ∧
  e = JsError ("File " +:+ fileName +:+ " version " +:+ versionId
               +:+ " not found").
Proof.
  unfold downloadFileVersionAsync. rewrite downloadVersionFrom_firstResolved.
  apply firstResolved_throw_rejected.
Qed.

Lemma fileExistsAsync_true fileName ctx w pre b post w1 s w2 :
  readBuckets this ctx = pre ++ b :: post →
  allReject (fun b => statObject (client this) b fileName) pre w w1 →
  statObject (client this) b fileName w1 = (Resolved s, w2) →
  fileExistsAsync this fileName ctx w = (Resolved true, w2).
Proof.
  intros Hbs Hpre Hb. unfold fileExistsAsync.
  rewrite existsIn_firstResolved, Hbs. eapply firstResolved_resolved.
  - by apply (allReject_await _ (fun _ => true)).
  - unfold await, resolve. by rewrite Hb.
Qed.

Lemma fileExistsAsync_false fileName ctx w w' :
  allReject (fun b => statObject (client this) b fileName)
    (readBuckets this ctx) w w' →
  fileExistsAsync this fileName ctx w = (Resolved false, w').
Proof.
  intros Hall. unfold fileExistsAsync. rewrite existsIn_firstResolved.
  apply (allReject_await _ (fun _ => true)) in Hall.
  by rewrite (firstResolved_rejected _ _ _ _ _ Hall).
Qed.

Lemma fileExistsAsync_cases fileName ctx w r w' :
  fileExistsAsync this fileName ctx w = (r, w') →
  r = Resolved true ∨
  r = Resolved false ∧
  allReject (fun b => statObject (client this) b fileName)
    (readBuckets this ctx) w w'.
Proof.
  intros Hres. unfold fileExistsAsync in Hres.
  rewrite existsIn_firstResolved in Hres.
  destruct (firstResolved_cases
              (fun b => let! _ := statObject (client this) b fileName in
                        resolve true) (resolve false) (readBuckets this ctx) w)
    as [(pre & b & post & w1 & r' & w2 & _ & _ & Hb & Heq)|(w'' & Hall & Heq)];
    rewrite Heq in Hres.
  - left. unfold await, resolve in Hb.
    destruct (statObject (client this) b fileName w1) as [[?|?] ?];
      by simplify_eq.
  - right. unfold resolve in Hres. simplify_eq. split; [done|].
    by apply (allReject_await _ (fun _ => true)).
Qed.

End FallbackReads.



(** C5: in download, download-version and exists, a bucket whose call
    rejects is skipped and the next bucket of the search order is tried;
    the first bucket whose call resolves gives the result, whatever
    happened on the buckets before it; download and download-version
    reject only when every bucket of the search order rejected, and then
    with the service's own "not found" error; exists then resolves to
    false, and never rejects. *)
Theorem fallback_reads {W} (this : BlobStorageService W) fileName versionId
    ctx w :
  let buckets := readBuckets this ctx in
  let get b := getObject (client this) b fileName None in
  let getVersion b := getObject (client this) b fileName (Some versionId) in
  let stat b := statObject (client this) b fileName in
  let notFound := JsError ("File " +:+ fileName +:+ " not found") in
  let versionNotFound :=
    JsError ("File " +:+ fileName +:+ " version " +:+ versionId +:+ " not found") in
  (∀ pre b post w1 r w2,
     buckets = pre ++ b :: post → allReject get pre w w1 →
     get b w1 = (Resolved r, w2) →
     downloadFileAsync this fileName ctx w = (Resolved r, w2)) ∧
  (∀ e w', downloadFileAsync this fileName ctx w = (Rejected e, w') ↔
           allReject get buckets w w' ∧ e = notFound) ∧
  (∀ pre b post w1 r w2,
     buckets = pre ++ b :: post → allReject getVersion pre w w1 →
     getVersion b w1 = (Resolved r, w2) →
     downloadFileVersionAsync this fileName versionId ctx w = (Resolved r, w2)) ∧
  (∀ e w', downloadFileVersionAsync this fileName versionId ctx w = (Rejected e, w') ↔
           allReject getVersion buckets w w' ∧ e = versionNotFound) ∧
  (∀ pre b post w1 s w2,
     buckets = pre ++ b :: post → allReject stat pre w w1 →
     stat b w1 = (Resolved s, w2) →
     fileExistsAsync this fileName ctx w = (Resolved true, w2)) ∧
  (∀ r w', fileExistsAsync this fileName ctx w = (r, w') →
           r = Resolved true ∨ r = Resolved false ∧ allReject stat buckets w w') ∧
  (∀ w', allReject stat buckets w w' →
         fileExistsAsync this fileName ctx w = (Resolved false, w')).
Proof.
  intros buckets get getVersion stat notFound versionNotFound.
  split; [apply downloadFileAsync_resolved|].
  split; [apply downloadFileAsync_rejected|].
  split; [apply downloadFileVersionAsync_resolved|].
  split; [apply downloadFileVersionAsync_rejected|].
  split; [apply fileExistsAsync_true|].
  split; [apply fileExistsAsync_cases|apply fileExistsAsync_false].
Qed.

Lemma fallback_reads_witness :
  downloadFileAsync memService "report.pdf" root stableOffline =
    (Resolved "working bytes", stableOffline) ∧
  fileExistsAsync memService "report.pdf" root stableOffline =
    (Resolved true, stableOffline) ∧
  downloadFileAsync memService "missing.pdf" root stableOffline =
    (Rejected (JsError "File missing.pdf not found"), stableOffline).
Proof.
  assert (Hbuckets : readBuckets memService root =
                     ["calcpad-stable"] ++ "calcpad-working" :: []) by reflexivity.
  split; [|split].
  - apply (fallback_reads memService "report.pdf" "1001" root stableOffline)
      with (pre := ["calcpad-stable"]) (b := "calcpad-working") (post := [])
           (w1 := stableOffline).
    + exact Hbuckets.
    + apply allReject_cons with (e := S3Error "ServiceUnavailable")
                                (w1 := stableOffline); [|constructor].
      vm_compute. reflexivity.
    + vm_compute. reflexivity.
  - destruct (fallback_reads memService "report.pdf" "1001" root stableOffline)
      as (_ & _ & _ & _ & Hexists & _).
    apply Hexists
      with (pre := ["calcpad-stable"]) (b := "calcpad-working") (post := [])
           (w1 := stableOffline)
           (s := {| stat_size := 13; stat_lastModified := 1001;
                    stat_etag := "1001";
                    stat_metaData := Some
                      [("Content-Type", "application/pdf");
                       ("created-by", "alice"); ("created-at", "1000")] |}).
    + exact Hbuckets.
    + apply allReject_cons with (e := S3Error "ServiceUnavailable")
                                (w1 := stableOffline); [|constructor].
      vm_compute. reflexivity.
    + vm_compute. reflexivity.
  - destruct (fallback_reads memService "missing.pdf" "1001" root stableOffline)
      as (_ & Hrejected & _).
    apply Hrejected. split; [|reflexivity].
    apply allReject_cons with (e := S3Error "ServiceUnavailable")
                              (w1 := stableOffline).
    { vm_compute. reflexivity. }
    apply allReject_cons with (e := S3Error "NoSuchKey") (w1 := stableOffline);
      [|constructor].
    vm_compute. reflexivity.
Defined.

Lemma tagBuckets_readBuckets {W} (this : BlobStorageService W) ctx :
  (let buckets := [getBucketName this ctx] in
   if bool_decide (roleValue (role ctx) = 3)
   then buckets ++ [workingBucket this] else buckets) = readBuckets this ctx.
Proof. unfold readBuckets. by destruct (role ctx). Qed.

(** C9: get-tags returns the decoded tag set of the first bucket of the
    search order whose tag read resolves; when the caller's own bucket
    answers, whatever the decoded list (also the empty one), no other
    bucket is asked; when the tag read rejects in every bucket the result
    is the empty list; get-tags never rejects. *)
Theorem get_tags_first_readable {W} (this : BlobStorageService W) fileName
    ctx w :
  let buckets := readBuckets this ctx in
  let read b := getObjectTagging (client this) b fileName in
  (∀ pre b post w1 result w2,
     buckets = pre ++ b :: post → allReject read pre w w1 →
     read b w1 = (Resolved result, w2) →
     getFileTagsAsync this fileName ctx w = (Resolved (decodeTags result), w2)) ∧
  (∀ result w1,
     read (getBucketName this ctx) w = (Resolved result, w1) →
     getFileTagsAsync this fileName ctx w = (Resolved (decodeTags result), w1) ∧
     callsOf (getFileTagsAsync (withTrace this) fileName ctx) w =
       [GetObjectTagging (getBucketName this ctx) fileName]) ∧
  (∀ w', allReject read buckets w w' →
         getFileTagsAsync this fileName ctx w = (Resolved [], w')) ∧
  (∃ tags w', getFileTagsAsync this fileName ctx w = (Resolved tags, w')).
Proof.
  intros buckets read.
  assert (Hloop : getFileTagsAsync this fileName ctx =
    firstResolved (fun b => let! result := read b in resolve (decodeTags result))
      (resolve []) buckets).
  { unfold getFileTagsAsync. rewrite tagBuckets_readBuckets.
    apply tagsFrom_firstResolved. }
  assert (Hfirst : ∀ pre b post w1 result w2,
     buckets = pre ++ b :: post → allReject read pre w w1 →
     read b w1 = (Resolved result, w2) →
     getFileTagsAsync this fileName ctx w = (Resolved (decodeTags result), w2)).
  { intros pre b post w1 result w2 Hbs Hpre Hb. rewrite Hloop, Hbs.
    eapply firstResolved_resolved.
    - by apply (allReject_await _ decodeTags).
    - unfold await, resolve. by rewrite Hb. }
  split; [exact Hfirst|]. split; [|split].
  - intros result w1 Hread. split.
    + assert (∃ post, buckets = [] ++ getBucketName this ctx :: post) as [post Hbs].
      { unfold buckets, readBuckets. case_bool_decide; by eexists. }
      eapply Hfirst; [exact Hbs|constructor|exact Hread].
    + unfold getFileTagsAsync, callsOf. rewrite tagBuckets_readBuckets.
      unfold readBuckets. rewrite getBucketName_withTrace.
      case_bool_decide; simpl; unfold tryCatch, await, logged, read in *;
        by rewrite Hread.
  - intros w' Hall. rewrite Hloop.
    apply (allReject_await _ decodeTags) in Hall.
    by rewrite (firstResolved_rejected _ _ _ _ _ Hall).
  - rewrite Hloop.
    destruct (firstResolved_cases
                (fun b => let! result := read b in resolve (decodeTags result))
                (resolve []) buckets w)
      as [(pre & b & post & w1 & r & w2 & _ & _ & _ & Heq)|(w' & _ & Heq)];
      rewrite Heq; by eexists _, _.
Qed.

Lemma get_tags_first_readable_witness :
  getFileTagsAsync memService "report.pdf" root bothBuckets =
    (Resolved [], bothBuckets) ∧
  getFileTagsAsync memService "report.pdf" alice bothBuckets =
    (Resolved ["Draft"; "Reviewed"], bothBuckets).
Proof.
  split.
  - apply (get_tags_first_readable memService "report.pdf" root bothBuckets)
      with (result := Js.VObject []).
    vm_compute. reflexivity.
  - apply (get_tags_first_readable memService "report.pdf" alice bothBuckets)
      with (result := taggingResponse [("tag-0", "Draft"); ("tag-1", "Reviewed")]).
    vm_compute. reflexivity.
Defined.

(** ** Errors of the write operations *)

(** C7, as stated, fails for set-tags (and likewise for delete-tags): the
    store rejects the tag write for an object that does not exist, and the
    service resolves to [false] instead of rejecting with that error. *)
Lemma set_tags_swallows_backend_error :
  setObjectTagging (client memService) (getBucketName memService alice)
      "ghost.pdf" (encodeTags ["Draft"]) (MemStore.fresh calcpad) =
    (Rejected (S3Error "NoSuchKey"), MemStore.fresh calcpad) ∧
  setFileTagsAsync memService "ghost.pdf" ["Draft"] alice (MemStore.fresh calcpad) =
    (Resolved false, MemStore.fresh calcpad) ∧
  setFileTagsAsync memService "ghost.pdf" ["Draft"] alice workingOffline =
    (Resolved false, workingOffline) ∧
  deleteFileTagsAsync memService "ghost.pdf" alice workingOffline =
    (Resolved false, workingOffline).
Proof. repeat split; vm_compute; reflexivity. Qed.

(** C7 (amended): upload passes the first backend error on to its caller
    unchanged, without a further call; set-tags and delete-tags make their
    one backend call and never reject: they resolve to [true] when the call
    resolved and to [false] when it rejected, whatever the error was. *)
Theorem write_errors {W} (Date : JsDate W) (this : BlobStorageService W)
    fileName (ctx : UserContext) :
  let bucketName := getBucketName this ctx in
  (∀ stream contentType tags metadata w createdAt w0 e w1,
     newDate Date w = (createdAt, w0) →
     putObject (client this) bucketName fileName stream
       (uploadMetaData Date ctx contentType metadata createdAt) w0 = (Rejected e, w1) →
     uploadFileAsync Date this fileName stream ctx contentType tags metadata w =
       (Rejected e, w1) ∧
     callsOf (uploadFileAsync (tracedDate Date) (withTrace this) fileName stream
                ctx contentType tags metadata) w =
       [PutObject bucketName fileName
          (uploadMetaData Date ctx contentType metadata createdAt)]) ∧
  (∀ stream contentType tag tags metadata w createdAt w0 w1 e w2,
     newDate Date w = (createdAt, w0) →
     putObject (client this) bucketName fileName stream
       (uploadMetaData Date ctx contentType metadata createdAt) w0 = (Resolved (), w1) →
     setObjectTagging (client this) bucketName fileName
       (encodeTags (tag :: tags)) w1 = (Rejected e, w2) →
     uploadFileAsync Date this fileName stream ctx contentType
       (Some (tag :: tags)) metadata w = (Rejected e, w2)) ∧
  (∀ tags w,
     setFileTagsAsync this fileName tags ctx w =
     let '(r, w') := setObjectTagging (client this) bucketName fileName
                       (encodeTags tags) w in
     (Resolved (isResolved r), w')) ∧
  (∀ w,
     deleteFileTagsAsync this fileName ctx w =
     let '(r, w') := setObjectTagging (client this) bucketName fileName [] w in
     (Resolved (isResolved r), w')) ∧
  (∀ tags w,
     length (callsOf (setFileTagsAsync (withTrace this) fileName tags ctx) w) = 1%nat ∧
     length (callsOf (deleteFileTagsAsync (withTrace this) fileName ctx) w) = 1%nat).
Proof.
  intros bucketName.
  split; [|split; [|split; [|split]]].
  - intros stream contentType tags metadata w createdAt w0 e w1 Hdate Hput.
    split.
    + unfold uploadFileAsync. rewrite Hdate. unfold await.
      fold bucketName. by rewrite Hput.
    + unfold uploadFileAsync, callsOf. simpl. rewrite Hdate.
      unfold await, logged. simpl.
      change (getBucketName (withTrace this) ctx) with bucketName.
      change (uploadMetaData (tracedDate Date)) with (uploadMetaData Date).
      by rewrite Hput.
  - intros stream contentType tag tags metadata w createdAt w0 w1 e w2
      Hdate Hput Htag.
    unfold uploadFileAsync. rewrite Hdate. unfold await.
    fold bucketName. by rewrite Hput, Htag.
  - intros tags w. unfold setFileTagsAsync, tryCatch, await, resolve.
    fold bucketName.
    by destruct (setObjectTagging _ _ _ _ w) as [[?|?] ?].
  - intros w. unfold deleteFileTagsAsync, tryCatch, await, resolve.
    fold bucketName.
    by destruct (setObjectTagging _ _ _ _ w) as [[?|?] ?].
  - intros tags w. by rewrite setFileTags_calls, deleteFileTags_calls.
Qed.

Lemma write_errors_witness :
  uploadFileAsync MemStore.date memService "report.pdf" "bytes" alice None
    (Some ["Draft"]) None workingOffline =
  (Rejected (S3Error "ServiceUnavailable"),
   {| MemStore.buckets := MemStore.buckets workingOffline;
      MemStore.offline := MemStore.offline workingOffline;
      MemStore.clock := 1001 |}).
Proof.
  apply (write_errors MemStore.date memService "report.pdf" alice)
    with (createdAt := 1000)
         (w0 := {| MemStore.buckets := MemStore.buckets workingOffline;
                   MemStore.offline := MemStore.offline workingOffline;
                   MemStore.clock := 1001 |}).
  - reflexivity.
  - vm_compute. reflexivity.
Defined.

(** ** The in-memory store *)

Section MemFacts.
Import MemStore.

Lemma bucket_setBucket_eq w b objs0 objs tick :
  bucket w b = Resolved objs0 → bucket (setBucket w b objs tick) b = Resolved objs.
Proof.
  unfold bucket, setBucket. simpl. case_bool_decide; [done|].
  intros _. by rewrite lookup_insert_eq.
Qed.






End MemFacts.

(** ** Delete *)

Section Delete.
Context {W : Type} (this : BlobStorageService W).

Lemma deleteFileAsync_unfold fileName ctx w :
  deleteFileAsync this fileName ctx w =
  let '(r1, w1) := removeObject (client this) (workingBucket this) fileName w in
  let '(r2, w2) := removeObject (client this) (stableBucket this) fileName w1 in
  (Resolved (isResolved r1 || isResolved r2), w2).
Proof.
  unfold deleteFileAsync. simpl. unfold await, tryCatch, resolve.
  destruct (removeObject _ _ _ w) as [[?|?] w1];
    by destruct (removeObject _ _ _ w1) as [[?|?] w2].
Qed.


End Delete.



(** ** Version listing *)

Section Sorting.
Context {A : Type} (key : A → Z).

(** The comparator [(a, b) => key(b) - key(a)]. *)
Let descending (a b : A) : Z := key b - key a.

Lemma sortInsert_Permutation x l : sortInsert descending x l ≡ₚ x :: l.
Proof.
  induction l as [|y l IH]; simpl; [done|].
  case_bool_decide; [done|]. by rewrite IH, Permutation_swap.
Qed.

Lemma arraySort_Permutation l : arraySort descending l ≡ₚ l.
Proof.
  induction l as [|x l IH]; simpl; [done|].
  by rewrite sortInsert_Permutation, IH.
Qed.

Lemma sortInsert_Sorted x l :
  Sorted (fun a b => key b ≤ key a) l →
  Sorted (fun a b => key b ≤ key a) (sortInsert descending x l).
Proof.
  induction 1 as [|y l Hl IH Hhd]; simpl.
  { repeat constructor. }
  unfold descending at 1. case_bool_decide as Hcmp.
  - constructor; [by constructor|]. constructor. lia.
  - constructor; [exact IH|].
    destruct l as [|z l]; simpl.
    + constructor. lia.
    + unfold descending at 1. case_bool_decide.
      * constructor. lia.
      * constructor. by inversion Hhd.
Qed.

Lemma arraySort_Sorted l :
  Sorted (fun a b => key b ≤ key a) (arraySort descending l).
Proof.
  induction l as [|x l IH]; simpl; [constructor|].
  by apply sortInsert_Sorted.
Qed.

Lemma Sorted_strict l :
  Sorted (fun a b => key b ≤ key a) l → NoDup (key <$> l) →
  Sorted (fun a b => key b < key a) l.
Proof.
  induction 1 as [|x l Hl IH Hhd]; simpl; intros Hnd; [constructor|].
  apply NoDup_cons in Hnd as [Hx Hnd].
  constructor; [by apply IH|].
  destruct Hhd as [|y l Hxy]; constructor.
  assert (key y ≠ key x); [|lia].
  intros Heq. apply Hx. rewrite <- Heq. simpl. by left.
Qed.

End Sorting.

Section Versions.
Context {W : Type} (Date : JsDate W) (this : BlobStorageService W).

Lemma forAwaitVersions_spec fileName objs : ∀ versions w versions' w',
  forAwaitVersions Date fileName objs versions w = (versions', w') →
  ∃ new, versions' = versions ++ new ∧
         Forall2 (versionOf Date) (List.filter (exactName fileName) objs) new.
Proof.
  induction objs as [|obj objs IH]; simpl; intros versions w versions' w' Hrun.
  { simplify_eq. exists []. by rewrite app_nil_r. }
  unfold pushVersion, exactName in *.
  destruct (bool_decide (item_name obj = Some fileName)).
  - destruct (lastModifiedOrNow Date obj w) as [lastModified w1] eqn:Hlm.
    apply IH in Hrun as (new & -> & Hnew).
    eexists (_ :: new). rewrite <- app_assoc. split; [done|].
    constructor; [|done]. repeat split. simpl.
    intros t Ht. unfold lastModifiedOrNow in Hlm. rewrite Ht in Hlm.
    by simplify_eq.
  - by apply IH in Hrun.
Qed.

Lemma versionsFrom_cases fileName bs : ∀ w,
  ∃ result w',
    versionsFrom Date this fileName bs w = (Resolved result, w') ∧
    ((result = [] ∧ noVersions Date this fileName bs w w') ∨
     (∃ pre b post w1 stream w2 versions,
        bs = pre ++ b :: post ∧
        noVersions Date this fileName pre w w1 ∧
        listObjects (client this) b fileName true w1 = (stream, w2) ∧
        failure stream = None ∧
        forAwaitVersions Date fileName (yielded stream) [] w2 = (versions, w') ∧
        versions ≠ [] ∧
        result = arraySort (newestFirst Date) versions)).
Proof.
  induction bs as [|b bs IH]; intros w; simpl.
  { exists [], w. split; [done|]. left. split; [done|constructor]. }
  destruct (listObjects (client this) b fileName true w) as [stream w1] eqn:Hlist.
  destruct (forAwaitVersions Date fileName (yielded stream) [] w1)
    as [versions w2] eqn:Hrun.
  assert (Hskip : failure stream ≠ None ∨ versions = [] →
    ∃ result w',
      versionsFrom Date this fileName bs w2 = (Resolved result, w') ∧
      ((result = [] ∧ noVersions Date this fileName (b :: bs) w w') ∨
       (∃ pre b' post w1' stream' w2' versions',
          b :: bs = pre ++ b' :: post ∧
          noVersions Date this fileName pre w w1' ∧
          listObjects (client this) b' fileName true w1' = (stream', w2') ∧
          failure stream' = None ∧
          forAwaitVersions Date fileName (yielded stream') [] w2' = (versions', w') ∧
          versions' ≠ [] ∧
          result = arraySort (newestFirst Date) versions'))).
  { intros Hno. destruct (IH w2) as (result & w' & Hres & Hcases).
    exists result, w'. split; [done|].
    destruct Hcases as [[-> Hall]
      |(pre & b' & post & w1' & stream' & w2' & versions' & -> & Hpre & Hrest)].
    - left. split; [done|]. by econstructor.
    - right. exists (b :: pre), b', post, w1', stream', w2', versions'.
      split; [done|]. split; [by econstructor|done]. }
  destruct (failure stream) as [e|] eqn:Hfail.
  { apply Hskip. by left. }
  case_bool_decide as Hlen.
  - eexists _, w2. split; [done|]. right.
    exists [], b, bs, w, stream, w1, versions.
    repeat split; [constructor|done..|].
    intros ->. simpl in Hlen. lia.
  - apply Hskip. right. destruct versions; [done|]. simpl in Hlen. lia.
Qed.

End Versions.

(** C6, as stated, fails: two entries of the requested name that carry the
    same last-modified instant are both returned, so the result is not in
    strictly descending order. *)
Lemma versions_tie_not_strictly_descending :
  ∃ result,
    (listFileVersionsAsync MemStore.date memService "report.pdf" alice
       sameInstant).1 = Resolved result ∧
    versionTimes MemStore.date result = [1000; 1000] ∧
    ¬ Sorted (fun a b => getTime MemStore.date (fv_lastModified b)
                         < getTime MemStore.date (fv_lastModified a)) result.
Proof.
  eexists. split; [vm_compute; reflexivity|]. split; [reflexivity|].
  intros Hsorted. apply Sorted_inv in Hsorted as [_ Hhd].
  apply HdRel_inv in Hhd. vm_compute in Hhd. discriminate Hhd.
Qed.

(** C6 (amended): version-list asks each bucket of the search order for the
    entries under the name as prefix and keeps those whose name is exactly
    the requested one; the first bucket whose listing completes with at
    least one such entry gives the result, which holds the versions of that
    bucket only, sorted by last-modified time newest first (each time at
    least the next one, and strictly so when the times are pairwise
    distinct); a bucket whose listing fails or holds no such entry is
    passed over; when no bucket qualifies the result is empty; the call
    never rejects. *)
Theorem versions_newest_first {W} (Date : JsDate W)
    (this : BlobStorageService W) fileName ctx w :
  let time v := getTime Date (fv_lastModified v) in
  ∃ result w',
    listFileVersionsAsync Date this fileName ctx w = (Resolved result, w') ∧
    Sorted (fun a b => time b ≤ time a) result ∧
    (NoDup (versionTimes Date result) →
     Sorted (fun a b => time b < time a) result) ∧
    ((result = [] ∧ noVersions Date this fileName (readBuckets this ctx) w w') ∨
     (∃ pre b post w1 stream w2 versions,
        readBuckets this ctx = pre ++ b :: post ∧
        noVersions Date this fileName pre w w1 ∧
        listObjects (client this) b fileName true w1 = (stream, w2) ∧
        failure stream = None ∧
        forAwaitVersions Date fileName (yielded stream) [] w2 = (versions, w') ∧
        versions ≠ [] ∧
        Forall2 (versionOf Date)
          (List.filter (exactName fileName) (yielded stream)) versions ∧
        result ≡ₚ versions)).
Proof.
  intros time. unfold listFileVersionsAsync.
  destruct (versionsFrom_cases Date this fileName (readBuckets this ctx) w)
    as (result & w' & Hres & Hcases).
  exists result, w'. split; [done|].
  assert (Hsorted : Sorted (fun a b => time b ≤ time a) result).
  { destruct Hcases as [[-> _]|(? & ? & ? & ? & ? & ? & versions & _ & _ & _ & _ & _ & _ & ->)].
    - constructor.
    - apply (arraySort_Sorted time). }
  split; [done|]. split; [by apply Sorted_strict|].
  destruct Hcases as [?|(pre & b & post & w1 & stream & w2 & versions
                         & Hbs & Hpre & Hlist & Hfail & Hrun & Hne & ->)];
    [by left|right].
  exists pre, b, post, w1, stream, w2, versions.
  repeat split; try done.
  - apply forAwaitVersions_spec in Hrun as (new & -> & Hnew). done.
  - apply (arraySort_Permutation time).
Qed.

Lemma versions_newest_first_witness :
  ∃ result,
    (listFileVersionsAsync MemStore.date memService "report.pdf" alice
       threeUploads).1 = Resolved result ∧
    versionTimes MemStore.date result = [1005; 1003; 1001] ∧
    Sorted (fun a b => getTime MemStore.date (fv_lastModified b)
                       < getTime MemStore.date (fv_lastModified a)) result.
Proof.
  destruct (versions_newest_first MemStore.date memService "report.pdf" alice
              threeUploads) as (result & w' & Hres & _ & Hstrict & _).
  exists result.
  rewrite Hres. split; [done|].
  assert (Htimes : versionTimes MemStore.date result = [1005; 1003; 1001]).
  { vm_compute in Hres. by simplify_eq. }
  split; [exact Htimes|]. apply Hstrict. rewrite Htimes.
  by apply (bool_decide_unpack _).
Defined.



(** ** What a Viewer or a Contributor can read *)

Section ReadCalls.
Context {W : Type} (Date : JsDate W) (this : BlobStorageService W).

(** A read of the working bucket. *)
Let onWorking (c : Call) : Prop :=
  callBucket c = workingBucket this ∧ isWrite c = false.

Lemma forAwaitMetadata_calls b objs : ∀ files w log,
  ∃ new,
    (forAwaitMetadata (tracedDate Date) (withTrace this) b objs files (w, log)).2.2
      = log ++ new ∧
    Forall (fun c => callBucket c = b ∧ isWrite c = false) new.
Proof.
  induction objs as [|obj objs IH]; intros files w log; simpl.
  { exists []. by rewrite app_nil_r. }
  assert (Hstep : ∃ files1 w1 new1,
    pushMetadata (tracedDate Date) (withTrace this) b files obj (w, log) =
      (files1, (w1, log ++ new1)) ∧
    Forall (fun c => callBucket c = b ∧ isWrite c = false) new1).
  { unfold pushMetadata, lastModifiedOrNow.
    destruct (item_name obj) as [name|];
      [|by exists files, w, []; rewrite app_nil_r].
    destruct (Js.truthy (Some name));
      [|by exists files, w, []; rewrite app_nil_r].
    simpl. unfold logged.
    destruct (statObject (client this) b name w) as [[stat|e] w1];
      [|by eexists _, _, [_]; split; [done|repeat constructor]].
    destruct (item_lastModified obj) as [t|]; simpl.
    - eexists _, _, [_]. split; [done|]. by repeat constructor.
    - destruct (newDate Date w1) as [t w2].
      eexists _, _, [_]. split; [done|]. by repeat constructor. }
  destruct Hstep as (files1 & w1 & new1 & -> & Hnew1).
  destruct (IH files1 w1 (log ++ new1)) as (new & -> & Hnew).
  exists (new1 ++ new). rewrite app_assoc. split; [done|].
  by apply Forall_app.
Qed.

Lemma forAwaitVersions_calls fileName objs : ∀ versions w log,
  (forAwaitVersions (tracedDate Date) fileName objs versions (w, log)).2.2 = log.
Proof.
  induction objs as [|obj objs IH]; intros versions w log; simpl; [done|].
  unfold pushVersion, lastModifiedOrNow.
  destruct (bool_decide (item_name obj = Some fileName)); [|apply IH].
  destruct (item_lastModified obj) as [t|]; simpl; [apply IH|].
  destruct (newDate Date w) as [t w1]. apply IH.
Qed.

(** Every call that a read operation of a Viewer or a Contributor makes on
    the store is a read of the working bucket. *)
Lemma nonadmin_read_calls fileName versionId ctx w :
  role ctx ≠ Admin →
  Forall onWorking (callsOf (downloadFileAsync (withTrace this) fileName ctx) w) ∧
  Forall onWorking
    (callsOf (downloadFileVersionAsync (withTrace this) fileName versionId ctx) w) ∧
  Forall onWorking (callsOf (fileExistsAsync (withTrace this) fileName ctx) w) ∧
  Forall onWorking (callsOf (listFilesAsync (withTrace this) ctx) w) ∧
  Forall onWorking
    (callsOf (listFilesWithMetadataAsync (tracedDate Date) (withTrace this) ctx) w) ∧
  Forall onWorking (callsOf (getFileTagsAsync (withTrace this) fileName ctx) w) ∧
  Forall onWorking
    (callsOf (listFileVersionsAsync (tracedDate Date) (withTrace this) fileName ctx) w).
Proof.
  intros Hrole.
  pose proof (readBuckets_nonadmin (withTrace this) ctx Hrole) as Hbs.
  simpl in Hbs. unfold onWorking.
  split; [|split; [|split; [|split; [|split; [|split]]]]].
  - unfold downloadFileAsync. rewrite Hbs. run; by repeat constructor.
  - unfold downloadFileVersionAsync. rewrite Hbs. run; by repeat constructor.
  - unfold fileExistsAsync. rewrite Hbs. run; by repeat constructor.
  - unfold listFilesAsync. rewrite Hbs. run; by repeat constructor.
  - unfold listFilesWithMetadataAsync, callsOf. rewrite Hbs. simpl.
    destruct (listObjects (client this) (workingBucket this) "" true w)
      as [stream w1].
    destruct (forAwaitMetadata_calls (workingBucket this) (yielded stream) [] w1
                [ListObjects (workingBucket this) "" true])
      as (new & Hlog & Hnew).
    destruct (forAwaitMetadata _ _ _ _ _ _) as [files [w2 log2]].
    simpl in *. rewrite Hlog. constructor; [done|exact Hnew].
  - unfold getFileTagsAsync. rewrite tagBuckets_readBuckets, Hbs.
    run; by repeat constructor.
  - unfold listFileVersionsAsync, callsOf. rewrite Hbs. simpl.
    destruct (listObjects (client this) (workingBucket this) fileName true w)
      as [stream w1].
    pose proof (forAwaitVersions_calls fileName (yielded stream) [] w1
                  [ListObjects (workingBucket this) fileName true])
      as Hlog.
    destruct (forAwaitVersions _ _ _ _ _) as [versions [w2 log2]].
    simpl in *. subst log2.
    destruct (failure stream); [by repeat constructor|].
    case_bool_decide; by repeat constructor.
Qed.

End ReadCalls.

Section MemReads.
Import MemStore.

Lemma getObject_agree b k v w w' :
  bucket w b = bucket w' b →
  ∃ r, mem_getObject b k v w = (r, w) ∧ mem_getObject b k v w' = (r, w').
Proof.
  intros Hb. unfold mem_getObject. rewrite <- Hb.
  destruct (bucket w b) as [objs|e]; [|by eexists].
  destruct (List.find _ objs); by eexists.
Qed.

Lemma statObject_agree b k w w' :
  bucket w b = bucket w' b →
  ∃ r, mem_statObject b k w = (r, w) ∧ mem_statObject b k w' = (r, w').
Proof.
  intros Hb. unfold mem_statObject. rewrite <- Hb.
  destruct (bucket w b) as [objs|e]; [|by eexists].
  destruct (List.find _ objs); by eexists.
Qed.

Lemma getObjectTagging_agree b k w w' :
  bucket w b = bucket w' b →
  ∃ r, mem_getObjectTagging b k w = (r, w) ∧ mem_getObjectTagging b k w' = (r, w').
Proof.
  intros Hb. unfold mem_getObjectTagging. rewrite <- Hb.
  destruct (bucket w b) as [objs|e]; [|by eexists].
  destruct (List.find _ objs); by eexists.
Qed.

Lemma listObjects_agree b prefix recursive w w' :
  bucket w b = bucket w' b →
  ∃ objs fail,
    mem_listObjects b prefix recursive w =
      ({| yielded := toItem <$> objs; failure := fail |}, w) ∧
    mem_listObjects b prefix recursive w' =
      ({| yielded := toItem <$> objs; failure := fail |}, w').
Proof.
  intros Hb. unfold mem_listObjects. rewrite <- Hb.
  destruct (bucket w b) as [objs|e]; [by eexists _, _|].
  by exists [], (Some e).
Qed.

Context (this : BlobStorageService World) (Hclient : client this = minio).

Lemma forAwaitMetadata_agree b objs : ∀ files w w',
  bucket w b = bucket w' b →
  ∃ files',
    forAwaitMetadata date this b (toItem <$> objs) files w = (files', w) ∧
    forAwaitMetadata date this b (toItem <$> objs) files w' = (files', w').
Proof.
  induction objs as [|o objs IH]; intros files w w' Hb; simpl.
  { by exists files. }
  unfold pushMetadata. simpl.
  destruct (negb (bool_decide (so_key o = ""))); [|by apply IH].
  rewrite Hclient. simpl.
  destruct (statObject_agree b (so_key o) w w' Hb) as (r & -> & ->).
  destruct r as [stat|e]; by apply IH.
Qed.

Lemma forAwaitVersions_mem fileName objs : ∀ versions,
  ∃ versions', ∀ w,
    forAwaitVersions date fileName (toItem <$> objs) versions w = (versions', w).
Proof.
  induction objs as [|o objs IH]; intros versions; simpl.
  { by exists versions. }
  unfold pushVersion. simpl.
  destruct (bool_decide (Some (so_key o) = Some fileName)); apply IH.
Qed.

(** Two stores that hold the same working bucket give a Viewer or a
    Contributor the same answers, whatever else they hold. *)
Lemma nonadmin_reads_agree fileName versionId ctx w w' :
  role ctx ≠ Admin →
  bucket w (workingBucket this) = bucket w' (workingBucket this) →
  (downloadFileAsync this fileName ctx w).1 =
    (downloadFileAsync this fileName ctx w').1 ∧
  (downloadFileVersionAsync this fileName versionId ctx w).1 =
    (downloadFileVersionAsync this fileName versionId ctx w').1 ∧
  (fileExistsAsync this fileName ctx w).1 =
    (fileExistsAsync this fileName ctx w').1 ∧
  (listFilesAsync this ctx w).1 = (listFilesAsync this ctx w').1 ∧
  (listFilesWithMetadataAsync date this ctx w).1 =
    (listFilesWithMetadataAsync date this ctx w').1 ∧
  (getFileTagsAsync this fileName ctx w).1 =
    (getFileTagsAsync this fileName ctx w').1 ∧
  (listFileVersionsAsync date this fileName ctx w).1 =
    (listFileVersionsAsync date this fileName ctx w').1.
Proof.
  intros Hrole Hb.
  pose proof (readBuckets_nonadmin this ctx Hrole) as Hbs.
  split; [|split; [|split; [|split; [|split; [|split]]]]].
  - unfold downloadFileAsync. rewrite Hbs. simpl. unfold tryCatch.
    rewrite Hclient. simpl.
    destruct (getObject_agree _ fileName None w w' Hb) as (r & -> & ->).
    by destruct r.
  - unfold downloadFileVersionAsync. rewrite Hbs. simpl. unfold tryCatch.
    rewrite Hclient. simpl.
    destruct (getObject_agree _ fileName (Some versionId) w w' Hb)
      as (r & -> & ->).
    by destruct r.
  - unfold fileExistsAsync. rewrite Hbs. simpl. unfold tryCatch, await.
    rewrite Hclient. simpl.
    destruct (statObject_agree _ fileName w w' Hb) as (r & -> & ->).
    by destruct r.
  - unfold listFilesAsync. rewrite Hbs. simpl. rewrite Hclient. simpl.
    by destruct (listObjects_agree _ "" true w w' Hb) as (objs & fail & -> & ->).
  - unfold listFilesWithMetadataAsync. rewrite Hbs. simpl.
    rewrite Hclient. simpl.
    destruct (listObjects_agree _ "" true w w' Hb) as (objs & fail & -> & ->).
    simpl.
    by destruct (forAwaitMetadata_agree _ objs [] w w' Hb) as (files & -> & ->).
  - unfold getFileTagsAsync. rewrite tagBuckets_readBuckets, Hbs. simpl.
    unfold tryCatch, await. rewrite Hclient. simpl.
    destruct (getObjectTagging_agree _ fileName w w' Hb) as (r & -> & ->).
    by destruct r.
  - unfold listFileVersionsAsync. rewrite Hbs. simpl. rewrite Hclient. simpl.
    destruct (listObjects_agree _ fileName true w w' Hb)
      as (objs & fail & -> & ->).
    simpl. destruct (forAwaitVersions_mem fileName objs []) as (versions & Hrun).
    rewrite !Hrun. destruct fail; [done|]. by case_bool_decide.
Qed.

End MemReads.

Lemma elem_of_pushName_fold items : ∀ files x,
  x ∈ foldl pushName files items ↔
  x ∈ files ∨ (x ≠ "" ∧ Some x ∈ item_name <$> items).
Proof.
  induction items as [|obj items IH]; intros files x; simpl.
  { split; [by left|]. intros [?|[_ Hin]]; [done|]. by apply elem_of_nil in Hin. }
  rewrite IH, elem_of_cons. unfold pushName.
  destruct (item_name obj) as [name|]; simpl.
  2: { split; [intros [?|[? ?]]; auto|intros [?|[? [?|?]]]; auto; done]. }
  destruct (bool_decide (name = "")) eqn:Hempty; simpl.
  { apply bool_decide_eq_true_1 in Hempty. subst name.
    split; [intros [?|[? ?]]; auto|].
    intros [?|[Hx [[= Hx']|?]]]; auto. by destruct Hx. }
  apply bool_decide_eq_false_1 in Hempty.
  case_bool_decide as Hin; simpl.
  - split; [intros [?|[? ?]]; auto|].
    intros [?|[Hx [[= <-]|?]]]; auto.
  - rewrite elem_of_app, list_elem_of_singleton.
    split.
    + intros [[?| ->]|[? ?]]; auto.
    + intros [?|[Hx [[= <-]|?]]]; auto.
Qed.

Section MemScenario.
Import MemStore.

Lemma find_current_None k objs :
  k ∉ so_key <$> objs → List.find (isCurrent k) objs = None.
Proof.
  induction objs as [|o objs IH]; simpl; [done|].
  intros Hk. apply not_elem_of_cons in Hk as [Hne Hk].
  unfold isCurrent at 1. rewrite bool_decide_eq_false_2 by congruence.
  by apply IH.
Qed.

Lemma find_current_Some k objs o :
  List.find (isCurrent k) objs = Some o → o ∈ objs ∧ so_key o = k.
Proof.
  intros Hfind. apply find_some in Hfind as [Hin Hcur].
  split; [by apply list_elem_of_In|].
  unfold isCurrent in Hcur. apply andb_prop in Hcur as [Hk _].
  by apply bool_decide_eq_true_1 in Hk.
Qed.

Lemma getObject_resolved b k w content w' :
  mem_getObject b k None w = (Resolved content, w') →
  w' = w ∧ ∃ objs o, bucket w b = Resolved objs ∧
                     List.find (isCurrent k) objs = Some o.
Proof.
  unfold mem_getObject. destruct (bucket w b) as [objs|e]; [|done]. simpl.
  destruct (List.find (isCurrent k) objs) as [o|] eqn:Hfind; [|done].
  intros [= _ <-]. split; [done|]. by exists objs, o.
Qed.

Context (this : BlobStorageService World) (Hclient : client this = minio).

(** No version of [k] is stored in bucket [b]. *)
Let absent (w : World) (b k : string) : Prop :=
  ∀ objs, bucket w b = Resolved objs → k ∉ so_key <$> objs.

Lemma listed_names_absent w b k :
  absent w b k →
  Some k ∉ item_name <$> yielded (listObjects (client this) b "" true w).1.
Proof.
  intros Habsent. rewrite Hclient. simpl. unfold mem_listObjects.
  destruct (bucket w b) as [objs|e] eqn:Hb; simpl; [|apply not_elem_of_nil].
  specialize (Habsent objs Hb). intros Hin. apply Habsent.
  apply list_elem_of_fmap in Hin as (item & Hname & Hin).
  apply list_elem_of_fmap in Hin as (o & -> & Hin).
  apply list_elem_of_In, filter_In in Hin as [Hin _].
  simpl in Hname. injection Hname as ->.
  apply list_elem_of_fmap. exists o. split; [done|]. by apply list_elem_of_In.
Qed.

Lemma listed_names_present w b k objs o :
  bucket w b = Resolved objs → List.find (isCurrent k) objs = Some o →
  Some k ∈ item_name <$> yielded (listObjects (client this) b "" true w).1.
Proof.
  intros Hb Hfind. apply find_current_Some in Hfind as [Hin <-].
  rewrite Hclient. simpl. unfold mem_listObjects. rewrite Hb. simpl.
  apply list_elem_of_fmap. exists (toItem o). split; [done|].
  apply list_elem_of_fmap. exists o. split; [done|].
  apply list_elem_of_In, filter_In. split; [by apply list_elem_of_In|].
  by destruct (so_key o).
Qed.

Lemma listObjects_state b prefix recursive w :
  (listObjects (client this) b prefix recursive w).2 = w.
Proof.
  rewrite Hclient. simpl. unfold mem_listObjects. by destruct (bucket w b).
Qed.

(** A name stored in the stable bucket only: what each kind of caller
    gets. *)
Lemma stable_only_visibility fileName ctx admin w content :
  role ctx ≠ Admin → role admin = Admin → fileName ≠ "" →
  getObject (client this) (stableBucket this) fileName None w = (Resolved content, w) →
  absent w (workingBucket this) fileName →
  downloadFileAsync this fileName ctx w =
    (Rejected (JsError ("File " +:+ fileName +:+ " not found")), w) ∧
  fileExistsAsync this fileName ctx w = (Resolved false, w) ∧
  (∃ files, listFilesAsync this ctx w = (Resolved files, w) ∧ fileName ∉ files) ∧
  downloadFileAsync this fileName admin w = (Resolved content, w) ∧
  fileExistsAsync this fileName admin w = (Resolved true, w) ∧
  (∃ files, listFilesAsync this admin w = (Resolved files, w) ∧ fileName ∈ files).
Proof.
  intros Hrole Hadmin Hname Hstable Habsent.
  pose proof (readBuckets_nonadmin this ctx Hrole) as Hbs.
  pose proof (readBuckets_admin this admin Hadmin) as Hbs'.
  assert (Hget : ∃ e, getObject (client this) (workingBucket this) fileName None w
                      = (Rejected e, w)).
  { rewrite Hclient. simpl. unfold mem_getObject.
    destruct (bucket w (workingBucket this)) as [objs|e] eqn:Hb; [|by eexists].
    simpl. rewrite find_current_None; [by eexists|]. by apply Habsent. }
  assert (Hstat : ∃ e, statObject (client this) (workingBucket this) fileName w
                       = (Rejected e, w)).
  { rewrite Hclient. simpl. unfold mem_statObject.
    destruct (bucket w (workingBucket this)) as [objs|e] eqn:Hb; [|by eexists].
    rewrite find_current_None; [by eexists|]. by apply Habsent. }
  destruct Hget as [e1 Hget]. destruct Hstat as [e2 Hstat].
  pose proof Hstable as Hpresent. rewrite Hclient in Hpresent.
  apply getObject_resolved in Hpresent as (_ & objs & o & Hb & Hfind).
  assert (Hstat' : ∃ s, statObject (client this) (stableBucket this) fileName w
                        = (Resolved s, w)).
  { rewrite Hclient. simpl. unfold mem_statObject. rewrite Hb, Hfind.
    by eexists. }
  destruct Hstat' as [s Hstat'].
  split; [|split; [|split; [|split; [|split]]]].
  - apply downloadFileAsync_rejected. split; [|done].
    rewrite Hbs. by repeat econstructor.
  - apply fileExistsAsync_false. rewrite Hbs. by repeat econstructor.
  - unfold listFilesAsync. rewrite Hbs. simpl.
    pose proof (listObjects_state (workingBucket this) "" true w) as Hw.
    pose proof (listed_names_absent w _ _ Habsent) as Hnames.
    destruct (listObjects (client this) (workingBucket this) "" true w)
      as [stream w1]. simpl in *. subst w1.
    eexists. split; [done|]. rewrite elem_of_pushName_fold.
    intros [Hin|[_ Hin]]; [by apply elem_of_nil in Hin|done].
  - apply (downloadFileAsync_resolved this fileName admin w
             [] (stableBucket this) [workingBucket this] w);
      [done|constructor|done].
  - apply (fileExistsAsync_true this fileName admin w
             [] (stableBucket this) [workingBucket this] w s);
      [done|constructor|done].
  - unfold listFilesAsync. rewrite Hbs'. simpl.
    pose proof (listObjects_state (stableBucket this) "" true w) as Hw.
    pose proof (listed_names_present w _ _ _ _ Hb Hfind) as Hnames.
    destruct (listObjects (client this) (stableBucket this) "" true w)
      as [stream w1]. simpl in *. subst w1.
    pose proof (listObjects_state (workingBucket this) "" true w) as Hw.
    destruct (listObjects (client this) (workingBucket this) "" true w)
      as [stream' w1]. simpl in *. subst w1.
    eexists. split; [done|]. rewrite !elem_of_pushName_fold. auto.
Qed.

End MemScenario.

(** C3: for a Viewer or a Contributor the search order is the working
    bucket alone, and every call that download, download-version, exists,
    list, list-with-metadata, get-tags and version-list make on the store
    is a read of that bucket; in the in-memory store their results are the
    same in any two states that hold the same working bucket; and for a
    name stored in the stable bucket only, download rejects with the "not
    found" error, exists resolves to [false] and list omits the name, while
    the same three calls by an Admin return the content, [true], and a list
    holding the name. *)
Theorem nonadmin_reads_working_only :
  (∀ W (Date : JsDate W) (this : BlobStorageService W) fileName versionId ctx w,
     role ctx = Viewer ∨ role ctx = Contributor →
     let onWorking c := callBucket c = workingBucket this ∧ isWrite c = false in
     readBuckets this ctx = [workingBucket this] ∧
     Forall onWorking (callsOf (downloadFileAsync (withTrace this) fileName ctx) w) ∧
     Forall onWorking
       (callsOf (downloadFileVersionAsync (withTrace this) fileName versionId ctx) w) ∧
     Forall onWorking (callsOf (fileExistsAsync (withTrace this) fileName ctx) w) ∧
     Forall onWorking (callsOf (listFilesAsync (withTrace this) ctx) w) ∧
     Forall onWorking
       (callsOf (listFilesWithMetadataAsync (tracedDate Date) (withTrace this) ctx) w) ∧
     Forall onWorking (callsOf (getFileTagsAsync (withTrace this) fileName ctx) w) ∧
     Forall onWorking
       (callsOf (listFileVersionsAsync (tracedDate Date) (withTrace this)
                   fileName ctx) w)) ∧
  (∀ config fileName versionId ctx w w',
     let this := constructor config MemStore.minio in
     role ctx = Viewer ∨ role ctx = Contributor →
     MemStore.bucket w (workingBucket this) = MemStore.bucket w' (workingBucket this) →
     (downloadFileAsync this fileName ctx w).1 =
       (downloadFileAsync this fileName ctx w').1 ∧
     (downloadFileVersionAsync this fileName versionId ctx w).1 =
       (downloadFileVersionAsync this fileName versionId ctx w').1 ∧
     (fileExistsAsync this fileName ctx w).1 =
       (fileExistsAsync this fileName ctx w').1 ∧
     (listFilesAsync this ctx w).1 = (listFilesAsync this ctx w').1 ∧
     (listFilesWithMetadataAsync MemStore.date this ctx w).1 =
       (listFilesWithMetadataAsync MemStore.date this ctx w').1 ∧
     (getFileTagsAsync this fileName ctx w).1 =
       (getFileTagsAsync this fileName ctx w').1 ∧
     (listFileVersionsAsync MemStore.date this fileName ctx w).1 =
       (listFileVersionsAsync MemStore.date this fileName ctx w').1) ∧
  (∀ config fileName ctx admin w content,
     let this := constructor config MemStore.minio in
     role ctx = Viewer ∨ role ctx = Contributor →
     role admin = Admin →
     fileName ≠ "" →
     getObject (client this) (stableBucket this) fileName None w =
       (Resolved content, w) →
     (∀ objs, MemStore.bucket w (workingBucket this) = Resolved objs →
              fileName ∉ MemStore.so_key <$> objs) →
     downloadFileAsync this fileName ctx w =
       (Rejected (JsError ("File " +:+ fileName +:+ " not found")), w) ∧
     fileExistsAsync this fileName ctx w = (Resolved false, w) ∧
     (∃ files, listFilesAsync this ctx w = (Resolved files, w) ∧
               fileName ∉ files) ∧
     downloadFileAsync this fileName admin w = (Resolved content, w) ∧
     fileExistsAsync this fileName admin w = (Resolved true, w) ∧
     (∃ files, listFilesAsync this admin w = (Resolved files, w) ∧
               fileName ∈ files)).
Proof.
  assert (Hnonadmin : ∀ ctx, role ctx = Viewer ∨ role ctx = Contributor →
                             role ctx ≠ Admin).
  { intros ctx [-> | ->]; discriminate. }
  split; [|split].
  - intros W Date this fileName versionId ctx w Hrole onWorking.
    apply Hnonadmin in Hrole.
    split; [by apply readBuckets_nonadmin|].
    by apply nonadmin_read_calls.
  - intros config fileName versionId ctx w w' this Hrole Hb.
    apply Hnonadmin in Hrole. by apply nonadmin_reads_agree.
  - intros config fileName ctx admin w content this Hrole Hadmin Hname
      Hstable Habsent.
    apply Hnonadmin in Hrole. by apply stable_only_visibility.
Qed.

Lemma nonadmin_reads_working_only_witness :
  downloadFileAsync memService "release.pdf" victor stableOnly =
    (Rejected (JsError "File release.pdf not found"), stableOnly) ∧
  fileExistsAsync memService "release.pdf" victor stableOnly =
    (Resolved false, stableOnly) ∧
  (∃ files, listFilesAsync memService victor stableOnly =
              (Resolved files, stableOnly) ∧ "release.pdf" ∉ files) ∧
  downloadFileAsync memService "release.pdf" root stableOnly =
    (Resolved "released", stableOnly) ∧
  fileExistsAsync memService "release.pdf" root stableOnly =
    (Resolved true, stableOnly) ∧
  (∃ files, listFilesAsync memService root stableOnly =
              (Resolved files, stableOnly) ∧ "release.pdf" ∈ files).
Proof.
  apply (proj2 (proj2 nonadmin_reads_working_only) calcpad "release.pdf"
           victor root stableOnly "released").
  - by left.
  - reflexivity.
  - discriminate.
  - vm_compute. reflexivity.
  - intros objs Hb. vm_compute in Hb. injection Hb as <-.
    apply not_elem_of_nil.
Defined.

(** ** Tags written and read back through the store *)

Section MemTags.
Import MemStore.

Lemma find_current_retag k tags objs o :
  List.find (isCurrent k) objs = Some o →
  ∃ o', List.find (isCurrent k) (retag k tags <$> objs) = Some o' ∧
        so_tagging o' = tags.
Proof.
  induction objs as [|x objs IH]; simpl; [done|].
  unfold retag at 1. destruct (isCurrent k x) eqn:Hx.
  - intros _. eexists. split.
    + unfold isCurrent in *. simpl. by rewrite Hx.
    + unfold retag. by rewrite Hx.
  - rewrite Hx. apply IH.
Qed.

Lemma setObjectTagging_then_get b k tags w w' :
  mem_setObjectTagging b k tags w = (Resolved (), w') →
  mem_getObjectTagging b k w' = (Resolved (taggingResponse tags), w').
Proof.
  unfold mem_setObjectTagging, mem_getObjectTagging.
  destruct (bucket w b) as [objs|e] eqn:Hb; [|done].
  destruct (List.find (isCurrent k) objs) as [o|] eqn:Hfind; [|done].
  intros [= <-].
  rewrite (bucket_setBucket_eq _ _ _ (retag k tags <$> objs) _ Hb).
  destruct (find_current_retag k tags objs o Hfind) as (o' & -> & ->).
  done.
Qed.

End MemTags.

(** C1, as stated, fails: a tag that is the empty string is written by the
    encoder and dropped by the decoder, so the sequence that comes back is
    shorter than the one that went in. *)
Lemma tag_roundtrip_drops_empty_tag :
  ¬ (∀ tags : list string, (length tags ≤ 50)%nat →
       decodeTags (taggingResponse (encodeTags tags)) = tags).
Proof. intros H. specialize (H [""]). simpl in H. discriminate H. lia. Qed.

(** C1 (amended): encoding a tag sequence under the keys [tag-0], [tag-1],
    ... and decoding what an order-preserving backend returns yields the
    original sequence with its empty strings removed, in the original order
    and with duplicates kept; a sequence without empty strings comes back
    unchanged; and so do the tags that set-tags stored in the in-memory
    store when the same caller reads them with get-tags. *)
Theorem tag_roundtrip (tags : list string) :
  encodeTags tags = imap (fun i tag => ("tag-" +:+ pretty i, tag)) tags ∧
  decodeTags (taggingResponse (encodeTags tags)) = List.filter nonEmpty tags ∧
  (Forall (fun tag => tag ≠ "") tags →
   decodeTags (taggingResponse (encodeTags tags)) = tags) ∧
  (∀ config fileName ctx w w',
     let this := constructor config MemStore.minio in
     setFileTagsAsync this fileName tags ctx w = (Resolved true, w') →
     getFileTagsAsync this fileName ctx w' =
       (Resolved (List.filter nonEmpty tags), w')).
Proof.
  split; [apply encodeTags_spec|].
  assert (Hdec : decodeTags (taggingResponse (encodeTags tags)) =
                 List.filter nonEmpty tags).
  { by rewrite decodeTags_response, values_encodeTags. }
  split; [done|]. split.
  { intros Hne. by rewrite Hdec, filter_nonEmpty_id. }
  intros config fileName ctx w w' this Hset.
  unfold setFileTagsAsync, tryCatch, await, resolve in Hset. simpl in Hset.
  destruct (MemStore.mem_setObjectTagging _ _ _ w) as [[[]|e] w1] eqn:Hcall;
    [|done].
  injection Hset as <-.
  apply setObjectTagging_then_get in Hcall.
  unfold getFileTagsAsync. rewrite tagBuckets_readBuckets.
  rewrite tagsFrom_firstResolved. rewrite <- Hdec.
  assert (∃ post, readBuckets this ctx = [] ++ getBucketName this ctx :: post)
    as [post ->].
  { unfold readBuckets. case_bool_decide; by eexists. }
  eapply firstResolved_resolved; [constructor|].
  unfold await, resolve. simpl. by rewrite Hcall.
Qed.

Lemma tag_roundtrip_witness :
  decodeTags (taggingResponse (encodeTags ["Draft"; "Reviewed"; "Draft"])) =
    ["Draft"; "Reviewed"; "Draft"] ∧
  getFileTagsAsync memService "report.pdf" alice
    (after (setFileTagsAsync memService "report.pdf" ["Final"; ""; "Final"] alice)
       bothBuckets) =
    (Resolved ["Final"; "Final"],
     after (setFileTagsAsync memService "report.pdf" ["Final"; ""; "Final"] alice)
       bothBuckets).
Proof.
  split.
  - apply (tag_roundtrip ["Draft"; "Reviewed"; "Draft"]).
    repeat constructor; discriminate.
  - destruct (tag_roundtrip ["Final"; ""; "Final"]) as (_ & _ & _ & Hstore).
    apply (Hstore calcpad "report.pdf" alice bothBuckets).
    vm_compute. reflexivity.
Defined.

(** * Further properties *)

(** ** Listing names *)

Lemma elem_of_truthyNames items x :
  x ∈ truthyNames items ↔ x ≠ "" ∧ Some x ∈ item_name <$> items.
Proof.
  unfold truthyNames. rewrite list_elem_of_omap. split.
  - intros (obj & Hin & Hname). destruct (item_name obj) as [name|] eqn:Hn;
      simpl in Hname; [|done].
    destruct (bool_decide (name = "")) eqn:He; simpl in Hname; [done|].
    injection Hname as ->. apply bool_decide_eq_false_1 in He.
    split; [done|]. apply list_elem_of_fmap. by exists obj.
  - intros [Hne Hin]. apply list_elem_of_fmap in Hin as (obj & Hn & Hin).
    exists obj. split; [done|]. rewrite <- Hn. simpl.
    by rewrite bool_decide_eq_false_2.
Qed.




Section Listing.
Context {W : Type} (this : BlobStorageService W).

Lemma listFrom_foldl buckets : ∀ files w,
  listFrom this buckets files w =
  (Resolved (foldl pushName files (listedItems this buckets w).1),
   (listedItems this buckets w).2).
Proof.
  induction buckets as [|b bs IH]; intros files w; simpl; [done|].
  destruct (listObjects (client this) b "" true w) as [stream w1].
  rewrite IH. destruct (listedItems this bs w1) as [items w2]. simpl.
  by rewrite foldl_app.
Qed.

Lemma listFilesAsync_elem ctx w :
  ∃ files,
    listFilesAsync this ctx w =
      (Resolved files, (listedItems this (readBuckets this ctx) w).2) ∧
    (∀ x, x ∈ files ↔
          x ≠ "" ∧
          Some x ∈ item_name <$> (listedItems this (readBuckets this ctx) w).1).
Proof.
  unfold listFilesAsync. rewrite listFrom_foldl.
  eexists. split; [done|].
  intros x. rewrite elem_of_pushName_fold. split.
  - intros [Hx|Hx]; [by apply elem_of_nil in Hx|done].
  - auto.
Qed.


End Listing.

(** ** Metadata of one file *)

Section Metadata.
Context {W : Type} (Date : JsDate W) (this : BlobStorageService W).

Lemma metadataFrom_firstResolved fileName bs :
  metadataFrom Date this fileName bs =
  firstResolved
    (fun b => let! stat := statObject (client this) b fileName in
              resolve (Some (statMetadata Date fileName stat)))
    (resolve None) bs.
Proof. induction bs as [|b bs IH]; simpl; by rewrite ?IH. Qed.

(** X2: get-metadata and exists agree: from the same state both probe the
    buckets of the search order with [statObject] and stop at the first
    that answers, so the metadata is that of this bucket exactly when
    exists is [true], it is [null] exactly when exists is [false], and
    neither call ever rejects. *)
Theorem metadata_agrees_with_exists fileName ctx w :
  let stat b := statObject (client this) b fileName in
  (∃ pre b post w1 s w2,
     readBuckets this ctx = pre ++ b :: post ∧
     allReject stat pre w w1 ∧ stat b w1 = (Resolved s, w2) ∧
     getFileMetadataAsync Date this fileName ctx w =
       (Resolved (Some (statMetadata Date fileName s)), w2) ∧
     fileExistsAsync this fileName ctx w = (Resolved true, w2)) ∨
  (∃ w', allReject stat (readBuckets this ctx) w w' ∧
         getFileMetadataAsync Date this fileName ctx w = (Resolved None, w') ∧
         fileExistsAsync this fileName ctx w = (Resolved false, w')).
Proof.
  intros stat. unfold getFileMetadataAsync.
  rewrite metadataFrom_firstResolved.
  destruct (firstResolved_cases stat (throw (JsError "")) (readBuckets this ctx) w)
    as [(pre & b & post & w1 & s & w2 & Hbs & Hpre & Hb & _)|(w' & Hall & _)].
  - left. exists pre, b, post, w1, s, w2.
    split; [done|]. split; [done|]. split; [done|]. split.
    + rewrite Hbs. eapply firstResolved_resolved.
      * by apply (allReject_await _ (fun s => Some (statMetadata Date fileName s))).
      * unfold await, resolve. fold (stat b). by rewrite Hb.
    + by eapply fileExistsAsync_true.
  - right. exists w'. split; [done|]. split.
    + apply (allReject_await _ (fun s => Some (statMetadata Date fileName s)))
        in Hall.
      by rewrite (firstResolved_rejected _ _ _ _ _ Hall).
    + by apply fileExistsAsync_false.
Qed.

End Metadata.

(** ** Reading back what was uploaded *)

Section MemUpload.
Import MemStore.

Lemma find_current_retired k objs :
  List.find (isCurrent k) (retire k <$> objs) = None.
Proof.
  induction objs as [|o objs IH]; simpl; [done|].
  unfold retire at 1.
  destruct (bool_decide (so_key o = k)) eqn:Hk; unfold isCurrent at 1; simpl.
  - by rewrite Hk.
  - by rewrite Hk.
Qed.

Lemma find_current_snoc k objs o :
  List.find (isCurrent k) objs = None → isCurrent k o = true →
  List.find (isCurrent k) (objs ++ [o]) = Some o.
Proof.
  intros Hnone Ho. induction objs as [|x objs IH]; simpl in *.
  - by rewrite Ho.
  - destruct (isCurrent k x); [done|]. by apply IH.
Qed.

Lemma find_current_retag_eq k tags objs o :
  List.find (isCurrent k) objs = Some o →
  List.find (isCurrent k) (retag k tags <$> objs) = Some (retag k tags o).
Proof.
  induction objs as [|x objs IH]; simpl; [done|].
  destruct (isCurrent k x) eqn:Hx.
  - intros [= <-]. unfold retag at 1. rewrite Hx.
    unfold isCurrent in *. simpl. by rewrite Hx.
  - intros Hfind. unfold retag at 1. rewrite Hx, Hx. by apply IH.
Qed.

Lemma retag_fields k tags o :
  isCurrent k o = true →
  so_body (retag k tags o) = so_body o ∧ so_tagging (retag k tags o) = tags ∧
  so_metaData (retag k tags o) = so_metaData o.
Proof. intros Ho. unfold retag. by rewrite Ho. Qed.

Context (config : MinioConfig).
Let this := constructor config minio.

(** What a resolved upload leaves in the caller's bucket. *)
Lemma upload_stored fileName stream ctx contentType tags metadata w r w' :
  uploadFileAsync date this fileName stream ctx contentType tags metadata w =
    (Resolved r, w') →
  r = fileName ∧
  ∃ objs o,
    bucket w' (getBucketName this ctx) = Resolved objs ∧
    List.find (isCurrent fileName) objs = Some o ∧
    so_body o = stream ∧
    so_metaData o = uploadMetaData date ctx contentType metadata (clock w) ∧
    so_tagging o = match tags with
                   | Some (tag :: rest) => encodeTags (tag :: rest)
                   | _ => []
                   end.
Proof.
  unfold uploadFileAsync. simpl. unfold await, resolve.
  set (b := getBucketName this ctx).
  set (w0 := {| buckets := buckets w; offline := offline w; clock := clock w + 1 |}).
  unfold mem_putObject.
  destruct (bucket w0 b) as [objs|e] eqn:Hb; [|done].
  set (o := {| so_key := fileName; so_versionId := pretty (clock w0);
               so_body := stream;
               so_metaData := uploadMetaData date ctx contentType metadata (clock w);
               so_tagging := []; so_lastModified := clock w0;
               so_isLatest := true |}).
  set (objs1 := (retire fileName <$> objs) ++ [o]).
  set (w1 := setBucket w0 b objs1 1).
  assert (Hb1 : bucket w1 b = Resolved objs1).
  { by apply bucket_setBucket_eq with (objs0 := objs). }
  assert (Hfind : List.find (isCurrent fileName) objs1 = Some o).
  { apply find_current_snoc; [apply find_current_retired|].
    unfold isCurrent. simpl. by rewrite bool_decide_eq_true_2. }
  assert (Hplain : (Resolved fileName, w1) = (Resolved r, w') →
    r = fileName ∧
    ∃ objs o,
      bucket w' b = Resolved objs ∧
      List.find (isCurrent fileName) objs = Some o ∧
      so_body o = stream ∧
      so_metaData o = uploadMetaData date ctx contentType metadata (clock w) ∧
      so_tagging o = []).
  { intros [= <- <-]. split; [done|]. by exists objs1, o; repeat split. }
  destruct tags as [[|tag rest]|]; [exact Hplain| |exact Hplain].
  unfold mem_setObjectTagging. rewrite Hb1, Hfind.
  intros [= <- <-]. split; [done|].
  exists (retag fileName (encodeTags (tag :: rest)) <$> objs1),
         (retag fileName (encodeTags (tag :: rest)) o).
  split; [by apply bucket_setBucket_eq with (objs0 := objs1)|].
  split; [by apply find_current_retag_eq|].
  assert (Ho : isCurrent fileName o = true).
  { unfold isCurrent. simpl. by rewrite bool_decide_eq_true_2. }
  destruct (retag_fields fileName (encodeTags (tag :: rest)) o Ho)
    as (-> & -> & ->).
  done.
Qed.

Lemma readBuckets_head ctx :
  ∃ post, readBuckets this ctx = [] ++ getBucketName this ctx :: post.
Proof. unfold readBuckets. case_bool_decide; by eexists. Qed.

(** X3: After an upload has resolved, the same caller reads back what was
    stored: download returns the uploaded bytes, exists is [true],
    get-tags returns the uploaded tags without the empty ones (no tags when
    none were supplied), and list contains the name when it is not
    empty. *)
Theorem upload_then_read fileName stream ctx contentType tags metadata w r w' :
  uploadFileAsync date this fileName stream ctx contentType tags metadata w =
    (Resolved r, w') →
  r = fileName ∧
  downloadFileAsync this fileName ctx w' = (Resolved stream, w') ∧
  fileExistsAsync this fileName ctx w' = (Resolved true, w') ∧
  getFileTagsAsync this fileName ctx w' =
    (Resolved (List.filter nonEmpty (default [] tags)), w') ∧
  (fileName ≠ "" →
   ∃ files, (listFilesAsync this ctx w').1 = Resolved files ∧ fileName ∈ files).
Proof.
  intros Hup.
  apply upload_stored in Hup as (-> & objs & o & Hb & Hfind & Hbody & _ & Htags).
  destruct (readBuckets_head ctx) as [post Hbs].
  split; [done|]. split; [|split; [|split]].
  - eapply downloadFileAsync_resolved; [exact Hbs|constructor|].
    simpl. unfold mem_getObject. simpl. by rewrite Hb, Hfind, Hbody.
  - eapply fileExistsAsync_true; [exact Hbs|constructor|].
    simpl. unfold mem_statObject. by rewrite Hb, Hfind.
  - unfold getFileTagsAsync. rewrite tagBuckets_readBuckets, Hbs.
    rewrite tagsFrom_firstResolved.
    eapply firstResolved_resolved; [constructor|].
    unfold await, resolve. simpl. unfold mem_getObjectTagging.
    rewrite Hb, Hfind, Htags. do 2 f_equal.
    destruct tags as [[|tag rest]|]; try done.
    by rewrite decodeTags_response, values_encodeTags.
  - intros Hname.
    destruct (listFilesAsync_elem this ctx w') as (files & Hlist & Hmem).
    exists files. rewrite Hlist. split; [done|]. apply Hmem. split; [done|].
    rewrite Hbs. simpl.
    pose proof (listed_names_present this eq_refl w' _ _ _ _ Hb Hfind) as Hin.
    simpl in Hin.
    destruct (mem_listObjects (getBucketName this ctx) "" true w')
      as [stream' w1]. simpl in Hin.
    destruct (listedItems this post w1) as [items w2]. simpl.
    rewrite fmap_app. apply elem_of_app. by left.
Qed.

End MemUpload.

Lemma upload_then_read_witness :
  let w' := after (uploadFileAsync MemStore.date memService "notes.txt" "bytes"
                     alice None (Some ["Draft"; ""]) None)
                  (MemStore.fresh calcpad) in
  downloadFileAsync memService "notes.txt" alice w' = (Resolved "bytes", w') ∧
  getFileTagsAsync memService "notes.txt" alice w' = (Resolved ["Draft"], w').
Proof.
  intros w'.
  destruct (upload_then_read calcpad "notes.txt" "bytes" alice None
              (Some ["Draft"; ""]) None (MemStore.fresh calcpad) "notes.txt" w')
    as (_ & Hdownload & _ & Htags & _); [reflexivity|].
  split; [exact Hdownload|exact Htags].
Defined.

(** ** Tag writes of an Admin *)

Section MemAdminTags.
Import MemStore.
Context (config : MinioConfig).
Let this := constructor config minio.

Lemma statObject_absent w b k :
  (∀ objs, bucket w b = Resolved objs → k ∉ so_key <$> objs) →
  ∃ e, mem_statObject b k w = (Rejected e, w).
Proof.
  intros Habsent. unfold mem_statObject.
  destruct (bucket w b) as [objs|e] eqn:Hb; [|by eexists].
  rewrite find_current_None; [by eexists|]. by apply Habsent.
Qed.

Lemma setObjectTagging_absent w b k tags :
  (∀ objs, bucket w b = Resolved objs → k ∉ so_key <$> objs) →
  ∃ e, mem_setObjectTagging b k tags w = (Rejected e, w).
Proof.
  intros Habsent. unfold mem_setObjectTagging.
  destruct (bucket w b) as [objs|e] eqn:Hb; [|by eexists].
  rewrite find_current_None; [by eexists|]. by apply Habsent.
Qed.

(** X4: An Admin sees a file that is stored in the working bucket only, but
    cannot tag it: exists is [true] (the search falls back to the working
    bucket) while set-tags and delete-tags address the stable bucket,
    resolve to [false] and leave the store as it was. *)
Theorem admin_cannot_tag_working_only fileName tags admin w s :
  role admin = Admin →
  statObject (client this) (workingBucket this) fileName w = (Resolved s, w) →
  (∀ objs, bucket w (stableBucket this) = Resolved objs →
           fileName ∉ so_key <$> objs) →
  fileExistsAsync this fileName admin w = (Resolved true, w) ∧
  setFileTagsAsync this fileName tags admin w = (Resolved false, w) ∧
  deleteFileTagsAsync this fileName admin w = (Resolved false, w).
Proof.
  intros Hadmin Hworking Habsent.
  destruct (statObject_absent w _ _ Habsent) as [e Hstat].
  split; [|split].
  - eapply (fileExistsAsync_true this fileName admin w [stableBucket this]);
      [by apply readBuckets_admin| |exact Hworking].
    econstructor; [exact Hstat|constructor].
  - unfold setFileTagsAsync, tryCatch, await, resolve.
    rewrite (getBucketName_admin this admin Hadmin).
    change (setObjectTagging (client this)) with mem_setObjectTagging.
    by destruct (setObjectTagging_absent w _ _ (encodeTags tags) Habsent)
      as [e' ->].
  - unfold deleteFileTagsAsync, tryCatch, await, resolve.
    rewrite (getBucketName_admin this admin Hadmin).
    change (setObjectTagging (client this)) with mem_setObjectTagging.
    by destruct (setObjectTagging_absent w _ _ [] Habsent) as [e' ->].
Qed.

End MemAdminTags.

Lemma admin_cannot_tag_working_only_witness :
  fileExistsAsync memService "report.pdf" root threeUploads =
    (Resolved true, threeUploads) ∧
  setFileTagsAsync memService "report.pdf" ["Final"] root threeUploads =
    (Resolved false, threeUploads) ∧
  deleteFileTagsAsync memService "report.pdf" root threeUploads =
    (Resolved false, threeUploads).
Proof.
  eapply (admin_cannot_tag_working_only calcpad "report.pdf" ["Final"] root
            threeUploads).
  - reflexivity.
  - vm_compute. reflexivity.
  - intros objs Hstable. vm_compute in Hstable.
    injection Hstable as <-. apply not_elem_of_nil.
Defined.

(** ** Start-up of the buckets *)

Section Startup.
Context {W : Type} (c : BucketClient W).

(** One round of the start-up loop, on the traced client. *)
Lemma initializeFrom_cons b rest w log :
  initializeFrom (tracedBuckets c) (b :: rest) (w, log) =
  match client_bucketExists c b w with
  | (Resolved true, w1) =>
      initializeFrom (tracedBuckets c) rest (w1, log ++ [BucketExists b])
  | (_, w1) =>
      match client_makeBucket c b w1 with
      | (Resolved _, w2) =>
          initializeFrom (tracedBuckets c) rest
            (w2, log ++ [BucketExists b; MakeBucket b])
      | (Rejected e, w2) =>
          (Rejected e, (w2, log ++ [BucketExists b; MakeBucket b]))
      end
  end.
Proof.
  simpl. unfold bucketExists, createBucket, enableVersioning.
  unfold await, tryCatch, resolve, throw. simpl. unfold loggedBucket.
  destruct (client_bucketExists c b w) as [[[|]|e] w1]; simpl; [done| |];
    destruct (client_makeBucket c b w1) as [[[]|e'] w2]; simpl;
    by rewrite <- app_assoc.
Qed.

Lemma ensureBucket_run b rest w log new w1 :
  ensureBucket c b w new w1 →
  initializeFrom (tracedBuckets c) (b :: rest) (w, log) =
  initializeFrom (tracedBuckets c) rest (w1, log ++ new).
Proof.
  intros Hensure. rewrite initializeFrom_cons.
  destruct Hensure as [w0 w1 Hex|w0 r w1 w2 Hex Hr Hmk]; rewrite Hex.
  - done.
  - destruct r as [[|]|e]; [done| |]; by rewrite Hmk.
Qed.

Lemma createFails_run b rest w log new e w1 :
  createFails c b w new e w1 →
  initializeFrom (tracedBuckets c) (b :: rest) (w, log) =
  (Rejected e, (w1, log ++ new)).
Proof.
  intros Hfail. rewrite initializeFrom_cons.
  destruct Hfail as [w0 r w1 e w2 Hex Hr Hmk]. rewrite Hex.
  destruct r as [[|]|e']; [done| |]; by rewrite Hmk.
Qed.

(** Each bucket is either made sure of or fails. *)
Lemma ensure_or_fail b w :
  (∃ new w1, ensureBucket c b w new w1) ∨
  (∃ new e w1, createFails c b w new e w1).
Proof.
  destruct (client_bucketExists c b w) as [r w1] eqn:Hex.
  assert (Hmake : r ≠ Resolved true →
    (∃ new w1, ensureBucket c b w new w1) ∨
    (∃ new e w1, createFails c b w new e w1)).
  { intros Hr. destruct (client_makeBucket c b w1) as [[[]|e] w2] eqn:Hmk.
    - left. eexists _, _. by eapply ensure_created.
    - right. eexists _, _, _. by eapply create_fails. }
  destruct r as [[|]|e]; [|by apply Hmake..].
  left. eexists _, _. by apply ensure_present.
Qed.

End Startup.

(** X5: Start-up asks for the two buckets [calcpad-storage-working] and
    [calcpad-storage-stable], in this order, and creates a bucket exactly
    when the client did not report it present (also when the question
    itself failed); it resolves when both buckets are made sure of, and
    rejects with the error of the first creation that fails, without
    going on to the next bucket. *)
Theorem startup_creates_missing_buckets {W} (c : BucketClient W) w :
  let working := "calcpad-storage-working" in
  let stable := "calcpad-storage-stable" in
  (∃ calls1 w1 calls2 w2,
     ensureBucket c working w calls1 w1 ∧ ensureBucket c stable w1 calls2 w2 ∧
     initializeMinIOBuckets (tracedBuckets c) (w, []) =
       (Resolved (), (w2, calls1 ++ calls2))) ∨
  (∃ calls1 w1 calls2 e w2,
     ensureBucket c working w calls1 w1 ∧ createFails c stable w1 calls2 e w2 ∧
     initializeMinIOBuckets (tracedBuckets c) (w, []) =
       (Rejected e, (w2, calls1 ++ calls2))) ∨
  (∃ calls1 e w1,
     createFails c working w calls1 e w1 ∧
     initializeMinIOBuckets (tracedBuckets c) (w, []) =
       (Rejected e, (w1, calls1))).
Proof.
  intros working stable.
  unfold initializeMinIOBuckets, initialBuckets, tryCatch, throw.
  fold working stable.
  destruct (ensure_or_fail c working w)
    as [(calls1 & w1 & H1)|(calls1 & e & w1 & H1)].
  - rewrite (ensureBucket_run c _ _ _ [] _ _ H1).
    change ([] ++ calls1) with calls1.
    destruct (ensure_or_fail c stable w1)
      as [(calls2 & w2 & H2)|(calls2 & e & w2 & H2)].
    + left. exists calls1, w1, calls2, w2. split; [done|]. split; [done|].
      by rewrite (ensureBucket_run c _ _ _ _ _ _ H2).
    + right. left. exists calls1, w1, calls2, e, w2.
      split; [done|]. split; [done|].
      by rewrite (createFails_run c _ _ _ _ _ _ _ H2).
  - right. right. exists calls1, e, w1. split; [done|].
    by rewrite (createFails_run c _ _ _ _ _ _ _ H1).
Qed.

Section MemStartup.
Import MemStore.

Lemma initializeFrom_mem_cons b rest w :
  b ∉ offline w →
  initializeFrom memBuckets (b :: rest) w =
  initializeFrom memBuckets rest
    (if bool_decide (is_Some (buckets w !! b)) then w else setBucket w b [] 0).
Proof.
  intros Hon. simpl. unfold bucketExists, createBucket, enableVersioning.
  unfold await, tryCatch, resolve, throw. simpl.
  unfold mem_bucketExists, mem_makeBucket.
  rewrite !bool_decide_eq_false_2 by done.
  destruct (bool_decide (is_Some (buckets w !! b))) eqn:Hex; simpl; [done|].
  by rewrite bool_decide_eq_false_2, Hex by done.
Qed.

Lemma initialize_mem w :
  Forall (fun b => b ∉ offline w) initialBuckets →
  ∃ w',
    initializeMinIOBuckets memBuckets w = (Resolved (), w') ∧
    offline w' = offline w ∧ clock w' = clock w ∧
    ∀ b, buckets w' !! b =
         match buckets w !! b with
         | Some objs => Some objs
         | None => if bool_decide (b ∈ initialBuckets) then Some [] else None
         end.
Proof.
  intros Hon. unfold initialBuckets in *.
  apply Forall_cons in Hon as [Hon1 Hon2]. apply Forall_cons in Hon2 as [Hon2 _].
  unfold initializeMinIOBuckets, initialBuckets, tryCatch.
  rewrite initializeFrom_mem_cons by done.
  set (w1 := if bool_decide (is_Some (buckets w !! "calcpad-storage-working"))
             then w else setBucket w "calcpad-storage-working" [] 0).
  assert (Hoff1 : offline w1 = offline w) by (unfold w1; by case_bool_decide).
  rewrite initializeFrom_mem_cons by (by rewrite Hoff1).
  simpl. unfold resolve. eexists. split; [done|].
  assert (Hclock1 : clock w1 = clock w).
  { unfold w1. case_bool_decide; simpl; lia. }
  assert (Hb1 : ∀ b, buckets w1 !! b =
    match buckets w !! b with
    | Some objs => Some objs
    | None => if bool_decide (b = "calcpad-storage-working") then Some [] else None
    end).
  { intros b. unfold w1. case_bool_decide as Hex; simpl.
    - destruct (buckets w !! b) as [objs|] eqn:Hb; [done|].
      case_bool_decide as Hbw; [|done]. subst b. rewrite Hb in Hex.
      by destruct Hex.
    - rewrite lookup_insert. case_decide as Hbw.
      + subst b. rewrite bool_decide_eq_true_2 by done.
        destruct (buckets w !! "calcpad-storage-working") eqn:Hb; [|done].
        destruct Hex. by eexists.
      + rewrite bool_decide_eq_false_2 by done.
        by destruct (buckets w !! b). }
  split; [|split].
  - case_bool_decide; simpl; by rewrite ?Hoff1.
  - case_bool_decide; simpl; lia.
  - intros b. case_bool_decide as Hex; simpl.
    + rewrite Hb1. destruct (buckets w !! b) as [objs|] eqn:Hb; [done|].
      case_bool_decide as Hbw.
      * subst b. by rewrite bool_decide_eq_true_2 by (repeat constructor).
      * case_bool_decide as Hin; [|done].
        apply elem_of_cons in Hin as [->|Hin]; [done|].
        apply list_elem_of_singleton in Hin as ->.
        rewrite Hb1, Hb in Hex. rewrite bool_decide_eq_false_2 in Hex by done.
        by destruct Hex.
    + rewrite lookup_insert. case_decide as Hbs.
      * subst b. rewrite Hb1 in Hex.
        destruct (buckets w !! "calcpad-storage-stable") eqn:Hb.
        { destruct Hex. by eexists. }
        by rewrite bool_decide_eq_true_2 by (repeat constructor).
      * rewrite Hb1. destruct (buckets w !! b) as [objs|] eqn:Hb; [done|].
        case_bool_decide as Hbw.
        { subst b. by rewrite bool_decide_eq_true_2 by (repeat constructor). }
        rewrite bool_decide_eq_false_2; [done|].
        intros Hin. apply elem_of_cons in Hin as [->|Hin]; [done|].
        by apply list_elem_of_singleton in Hin as ->.
Qed.

Lemma initialize_mem_present w :
  Forall (fun b => (b ∉ offline w) ∧ is_Some (buckets w !! b)) initialBuckets →
  initializeMinIOBuckets memBuckets w = (Resolved (), w).
Proof.
  intros Hall. unfold initialBuckets in *.
  apply Forall_cons in Hall as [[Hon1 Hex1] Hall].
  apply Forall_cons in Hall as [[Hon2 Hex2] _].
  unfold initializeMinIOBuckets, initialBuckets, tryCatch.
  rewrite initializeFrom_mem_cons by done.
  rewrite bool_decide_eq_true_2 by done.
  rewrite initializeFrom_mem_cons by done.
  by rewrite bool_decide_eq_true_2 by done.
Qed.

End MemStartup.

(** X6: On the in-memory store, start-up with both bucket names reachable
    resolves; afterwards the two buckets exist, every bucket that existed
    holds what it held, a bucket that was missing is empty, no other
    bucket appears, and running start-up again changes nothing. *)
Theorem startup_keeps_existing_buckets (w : MemStore.World) :
  Forall (fun b => b ∉ MemStore.offline w) initialBuckets →
  ∃ w',
    initializeMinIOBuckets memBuckets w = (Resolved (), w') ∧
    (∀ b, MemStore.buckets w' !! b =
          match MemStore.buckets w !! b with
          | Some objs => Some objs
          | None => if bool_decide (b ∈ initialBuckets) then Some [] else None
          end) ∧
    MemStore.offline w' = MemStore.offline w ∧
    MemStore.clock w' = MemStore.clock w ∧
    initializeMinIOBuckets memBuckets w' = (Resolved (), w').
Proof.
  intros Hon. destruct (initialize_mem w Hon) as (w' & Hinit & Hoff & Hclock & Hb).
  exists w'. repeat split; try done.
  apply initialize_mem_present. rewrite Hoff.
  apply Forall_forall. intros b Hin.
  split; [by eapply Forall_forall in Hon|].
  rewrite Hb. destruct (MemStore.buckets w !! b); [done|].
  by rewrite bool_decide_eq_true_2.
Qed.

Lemma startup_keeps_existing_buckets_witness :
  ∃ w',
    initializeMinIOBuckets memBuckets noBuckets = (Resolved (), w') ∧
    MemStore.buckets w' !! "calcpad-storage-working" = Some [] ∧
    MemStore.buckets w' !! "calcpad-working" = None ∧
    initializeMinIOBuckets memBuckets w' = (Resolved (), w').
Proof.
  destruct (startup_keeps_existing_buckets noBuckets)
    as (w' & Hinit & Hb & _ & _ & Hagain).
  { repeat constructor; apply not_elem_of_nil. }
  exists w'. split; [exact Hinit|]. split; [|split; [|exact Hagain]].
  - rewrite Hb. reflexivity.
  - rewrite Hb. reflexivity.
Defined.

(** ** The buckets of start-up and the buckets of the service *)

Lemma list_ascii_of_string_app (s t : string) :
  String.list_ascii_of_string (s +:+ t) = String.list_ascii_of_string s ++ String.list_ascii_of_string t.
Proof. induction s as [|a s IH]; simpl; [done|]. by rewrite IH. Qed.

Lemma string_app_inj_r (s1 s2 t : string) : s1 +:+ t = s2 +:+ t → s1 = s2.
Proof.
  intros Heq. apply (f_equal String.list_ascii_of_string) in Heq.
  rewrite !list_ascii_of_string_app in Heq. apply app_inv_tail in Heq.
  rewrite <- (String.string_of_list_ascii_of_string s1),
          <- (String.string_of_list_ascii_of_string s2).
  by rewrite Heq.
Qed.

Lemma working_is_not_stable (s1 s2 : string) :
  s1 +:+ "-working" ≠ s2 +:+ "-stable".
Proof.
  intros Heq. apply (f_equal String.list_ascii_of_string) in Heq.
  rewrite !list_ascii_of_string_app in Heq.
  apply (f_equal reverse) in Heq. rewrite !reverse_app in Heq.
  simpl in Heq. discriminate Heq.
Qed.

(** The buckets a service is built with are those that start-up makes sure
    of exactly when the configured base name is [calcpad-storage]. *)
Lemma service_buckets_initial {W} (config : MinioConfig) (minio : Client W) :
  let this := constructor config minio in
  (workingBucket this ∈ initialBuckets ↔ bucketName config = "calcpad-storage") ∧
  (stableBucket this ∈ initialBuckets ↔ bucketName config = "calcpad-storage").
Proof.
  simpl. unfold initialBuckets. split; split.
  - intros Hin. apply elem_of_cons in Hin as [Heq|Hin].
    + by apply (string_app_inj_r _ "calcpad-storage" "-working").
    + apply list_elem_of_singleton in Hin.
      by apply (working_is_not_stable _ "calcpad-storage") in Hin.
  - intros ->. by left.
  - intros Hin. apply elem_of_cons in Hin as [Heq|Hin].
    + symmetry in Heq.
      by apply (working_is_not_stable "calcpad-storage") in Heq.
    + apply list_elem_of_singleton in Hin.
      by apply (string_app_inj_r _ "calcpad-storage" "-stable").
  - intros ->. right. by left.
Qed.

Section MemUploadOutcome.
Import MemStore.
Context (config : MinioConfig).
Let this := constructor config minio.

Lemma upload_outcome fileName stream ctx contentType tags metadata w :
  match bucket w (getBucketName this ctx) with
  | Resolved _ =>
      ∃ w', uploadFileAsync date this fileName stream ctx contentType tags
              metadata w = (Resolved fileName, w')
  | Rejected e =>
      ∃ w', uploadFileAsync date this fileName stream ctx contentType tags
              metadata w = (Rejected e, w')
  end.
Proof.
  unfold uploadFileAsync. simpl. unfold await, resolve.
  set (b := getBucketName this ctx).
  set (w0 := {| buckets := buckets w; offline := offline w; clock := clock w + 1 |}).
  change (bucket w b) with (bucket w0 b).
  unfold mem_putObject.
  destruct (bucket w0 b) as [objs|e] eqn:Hb; [|by eexists].
  set (o := {| so_key := fileName; so_versionId := pretty (clock w0);
               so_body := stream;
               so_metaData := uploadMetaData date ctx contentType metadata (clock w);
               so_tagging := []; so_lastModified := clock w0;
               so_isLatest := true |}).
  set (objs1 := (retire fileName <$> objs) ++ [o]).
  destruct tags as [[|tag rest]|]; [by eexists| |by eexists].
  unfold mem_setObjectTagging.
  rewrite (bucket_setBucket_eq w0 b objs objs1 1 Hb). unfold objs1.
  rewrite (find_current_snoc fileName _ o); [by eexists|apply find_current_retired|].
  unfold isCurrent. simpl. by rewrite bool_decide_eq_true_2.
Qed.

End MemUploadOutcome.

(** X7: On a store that holds no bucket, start-up followed by an upload: the
    upload resolves exactly when the configured base name is
    [calcpad-storage]; with any other base name the service writes to
    buckets that start-up did not create. *)
Theorem upload_after_startup_needs_default_name (config : MinioConfig)
    fileName stream ctx contentType tags metadata (w : MemStore.World) :
  MemStore.buckets w = ∅ → MemStore.offline w = [] →
  let this := constructor config MemStore.minio in
  let started := after (initializeMinIOBuckets memBuckets) w in
  (workingBucket this ∈ initialBuckets ↔ bucketName config = "calcpad-storage") ∧
  (stableBucket this ∈ initialBuckets ↔ bucketName config = "calcpad-storage") ∧
  (isResolved (uploadFileAsync MemStore.date this fileName stream ctx
                 contentType tags metadata started).1 = true ↔
   bucketName config = "calcpad-storage").
Proof.
  intros Hempty Hoff this started.
  destruct (service_buckets_initial config MemStore.minio) as [Hworking Hstable].
  split; [exact Hworking|]. split; [exact Hstable|].
  destruct (initialize_mem w) as (w' & Hinit & Hoff' & _ & Hb).
  { rewrite Hoff. apply Forall_forall. intros b _. apply not_elem_of_nil. }
  assert (Hstarted : started = w') by (unfold started, after; by rewrite Hinit).
  rewrite Hstarted.
  assert (Hbucket : MemStore.bucket w' (getBucketName this ctx) =
    if bool_decide (getBucketName this ctx ∈ initialBuckets)
    then Resolved [] else Rejected (S3Error "NoSuchBucket")).
  { unfold MemStore.bucket. rewrite Hoff', Hoff.
    rewrite bool_decide_eq_false_2 by apply not_elem_of_nil.
    rewrite Hb, Hempty, lookup_empty. by case_bool_decide. }
  pose proof (upload_outcome config fileName stream ctx contentType tags
                metadata w') as Hup.
  fold this in Hup. rewrite Hbucket in Hup.
  assert (Hprimary : getBucketName this ctx ∈ initialBuckets ↔
                     bucketName config = "calcpad-storage").
  { unfold getBucketName.
    destruct (bool_decide (roleValue (role ctx) ≤ 2));
      [exact Hworking|exact Hstable]. }
  rewrite <- Hprimary.
  case_bool_decide as Hin; destruct Hup as [w'' ->]; simpl; split; done.
Qed.

Lemma upload_after_startup_needs_default_name_witness :
  isResolved (uploadFileAsync MemStore.date memService "report.pdf" "bytes" alice
                None None None
                (after (initializeMinIOBuckets memBuckets) noBuckets)).1 = true ↔
  "calcpad" = "calcpad-storage".
Proof.
  apply (upload_after_startup_needs_default_name calcpad "report.pdf" "bytes"
           alice None None None noBuckets); reflexivity.
Defined.

(** ** Authentication *)

Lemma substring_all (s : string) : String.substring 0 (String.length s) s = s.
Proof. induction s as [|a s IH]; simpl; [done|]. by rewrite IH. Qed.

Lemma prefix_split (p h : string) :
  String.prefix p h = true →
  h = p +:+ String.substring (String.length p)
              (String.length h - String.length p) h.
Proof.
  revert h. induction p as [|a p IH]; intros h; simpl.
  - intros _. by rewrite Nat.sub_0_r, substring_all.
  - destruct h as [|b h]; [done|]. simpl.
    destruct (Ascii.ascii_dec a b) as [->|]; [|done].
    intros Hp. exact (f_equal (String b) (IH h Hp)).
Qed.

Lemma prefix_app (p t : string) : String.prefix p (p +:+ t) = true.
Proof.
  induction p as [|a p IH]; simpl; [by destruct t|].
  by destruct (Ascii.ascii_dec a a).
Qed.

Lemma substring_app (p t : string) :
  String.substring (String.length p)
    (String.length (p +:+ t) - String.length p) (p +:+ t) = t.
Proof.
  induction p as [|a p IH]; simpl.
  - by rewrite Nat.sub_0_r, substring_all.
  - exact IH.
Qed.

Lemma bearer_token (token : string) :
  String.substring 7 (String.length ("Bearer " +:+ token) - 7)
    ("Bearer " +:+ token) = token.
Proof. exact (substring_app "Bearer " token). Qed.

Section Authenticate.
Context (jwtVerify : string → settled JwtPayload).

Lemma authenticate_bearer req token payload :
  req_authorization req = Some ("Bearer " +:+ token) →
  jwtVerify token = Resolved payload →
  caller jwtVerify req =
    Some {| userId := payload_userId payload;
            username := payload_username payload;
            role := payload_role payload |}.
Proof.
  intros Hheader Hverify. unfold caller, authenticate. rewrite Hheader.
  rewrite prefix_app, bearer_token. unfold verifyToken.
  by rewrite Hverify.
Qed.

Lemma caller_bearer req ctx :
  caller jwtVerify req = Some ctx →
  ∃ token payload,
    req_authorization req = Some ("Bearer " +:+ token) ∧
    jwtVerify token = Resolved payload ∧
    ctx = {| userId := payload_userId payload;
             username := payload_username payload;
             role := payload_role payload |}.
Proof.
  unfold caller, authenticate.
  destruct (req_authorization req) as [h|]; [|done].
  destruct (String.prefix "Bearer " h) eqn:Hprefix; [|done].
  apply prefix_split in Hprefix.
  set (token := String.substring 7 (String.length h - 7) h) in *.
  unfold verifyToken. destruct (jwtVerify token) as [payload|e] eqn:Hverify;
    [|done].
  simpl. intros [= <-]. exists token, payload. by rewrite Hprefix at 1.
Qed.

Lemma authenticate_caller req :
  match caller jwtVerify req with
  | Some ctx =>
      ∃ req', authenticate jwtVerify req = inr req' ∧
              req_userContext req' = Some ctx ∧
              req_fileName req' = req_fileName req ∧
              req_versionId req' = req_versionId req ∧
              req_file req' = req_file req ∧ req_tags req' = req_tags req ∧
              req_metadata req' = req_metadata req ∧
              req_body req' = req_body req
  | None => ∃ message, authenticate jwtVerify req = inl (respond 401 message)
  end.
Proof.
  unfold caller, authenticate.
  destruct (req_authorization req) as [h|]; [|by eexists].
  destruct (String.prefix "Bearer " h); [|by eexists].
  destruct (verifyToken jwtVerify _) as [payload|]; [|by eexists].
  simpl. eexists. by repeat split.
Qed.

End Authenticate.

(** X8: The authentication middleware lets a request through exactly when its
    authorization header is [Bearer ] followed by a token that verifies;
    the caller it attaches is the one the token was signed for, and the
    token handed to the verification is the header without its first seven
    characters. *)
Theorem authenticate_needs_bearer_token
    (jwtVerify : string → settled JwtPayload) (req : Request) (ctx : UserContext) :
  caller jwtVerify req = Some ctx ↔
  ∃ token payload,
    req_authorization req = Some ("Bearer " +:+ token) ∧
    jwtVerify token = Resolved payload ∧
    ctx = {| userId := payload_userId payload;
             username := payload_username payload;
             role := payload_role payload |}.
Proof.
  split; [apply caller_bearer|].
  intros (token & payload & Hheader & Hverify & ->).
  by apply authenticate_bearer with (token := token).
Qed.

Lemma authenticate_needs_bearer_token_witness :
  caller tokens (requestFor "alice-token" "report.pdf") = Some alice ∧
  caller tokens (requestFor "mallory-token" "report.pdf") = None.
Proof.
  split; [|reflexivity].
  apply (authenticate_needs_bearer_token tokens
           (requestFor "alice-token" "report.pdf") alice).
  exists "alice-token",
    {| payload_userId := "u1"; payload_username := "alice";
       payload_role := Contributor |}.
  repeat split.
Defined.

(** ** Calls that a request can cause *)

Section Preserves.
Context {W : Type} (P : Call → Prop).

Lemma preserves_resolve {A} (a : A) :
  preserves (W := W) P (resolve a).
Proof. by intros w log Hlog. Qed.

Lemma preserves_throw {A} e :
  preserves (W := W) (A := settled A) P (throw e).
Proof. by intros w log Hlog. Qed.

Lemma preserves_sync {A} (r : settled A) :
  preserves (W := W) P (sync r).
Proof. by intros w log Hlog. Qed.

Lemma preserves_bind {A B} (p : W * list Call → A * (W * list Call))
    (k : A → W * list Call → B * (W * list Call)) :
  preserves P p → (∀ a, preserves P (k a)) →
  preserves P (fun s => let '(a, s) := p s in k a s).
Proof.
  intros Hp Hk w log Hlog. specialize (Hp w log Hlog).
  destruct (p (w, log)) as [a [w1 log1]]. by apply Hk.
Qed.

Lemma preserves_await {A B} (p : Promise (W * list Call) A)
    (k : A → Promise (W * list Call) B) :
  preserves P p → (∀ a, preserves P (k a)) → preserves P (await p k).
Proof.
  intros Hp Hk w log Hlog. specialize (Hp w log Hlog). unfold await.
  destruct (p (w, log)) as [[a|e] [w1 log1]]; [by apply Hk|done].
Qed.

Lemma preserves_tryCatch {A} (p : Promise (W * list Call) A)
    (h : exn → Promise (W * list Call) A) :
  preserves P p → (∀ e, preserves P (h e)) → preserves P (tryCatch p h).
Proof.
  intros Hp Hh w log Hlog. specialize (Hp w log Hlog). unfold tryCatch.
  destruct (p (w, log)) as [[a|e] [w1 log1]]; [done|by apply Hh].
Qed.

Lemma preserves_logged {A} (c : Call) (q : W → A * W) :
  P c → preserves P (logged c q).
Proof.
  intros Hc w log Hlog. unfold logged. destruct (q w) as [a w1]. simpl.
  apply Forall_app. split; [done|]. by constructor.
Qed.

Lemma preserves_handle (body : Promise (W * list Call) Response) :
  preserves P body → preserves P (handle body).
Proof.
  intros Hbody. apply preserves_tryCatch; [done|].
  intros e. apply preserves_resolve.
Qed.

End Preserves.

Section ServiceCalls.
Context {W : Type} (Date : JsDate W) (this : BlobStorageService W)
        (P : Call → Prop).

Section Reads.
Hypothesis reads : ∀ c, isWrite c = false → P c.

Lemma downloadFrom_preserves fileName buckets :
  preserves P (downloadFrom (withTrace this) fileName buckets).
Proof.
  induction buckets as [|b bs IH]; simpl; [apply preserves_throw|].
  apply preserves_tryCatch; [|done]. apply preserves_logged. by apply reads.
Qed.

Lemma downloadVersionFrom_preserves fileName versionId buckets :
  preserves P (downloadVersionFrom (withTrace this) fileName versionId buckets).
Proof.
  induction buckets as [|b bs IH]; simpl; [apply preserves_throw|].
  apply preserves_tryCatch; [|done]. apply preserves_logged. by apply reads.
Qed.

Lemma existsIn_preserves fileName buckets :
  preserves P (existsIn (withTrace this) fileName buckets).
Proof.
  induction buckets as [|b bs IH]; simpl; [apply preserves_resolve|].
  apply preserves_tryCatch; [|done].
  apply preserves_await; [|intros; apply preserves_resolve].
  apply preserves_logged. by apply reads.
Qed.

Lemma metadataFrom_preserves fileName buckets :
  preserves P (metadataFrom (tracedDate Date) (withTrace this) fileName buckets).
Proof.
  induction buckets as [|b bs IH]; simpl; [apply preserves_resolve|].
  apply preserves_tryCatch; [|done].
  apply preserves_await; [|intros; apply preserves_resolve].
  apply preserves_logged. by apply reads.
Qed.

Lemma tagsFrom_preserves fileName buckets :
  preserves P (tagsFrom (withTrace this) fileName buckets).
Proof.
  induction buckets as [|b bs IH]; simpl; [apply preserves_resolve|].
  apply preserves_tryCatch; [|done].
  apply preserves_await; [|intros; apply preserves_resolve].
  apply preserves_logged. by apply reads.
Qed.

Lemma listFrom_preserves buckets : ∀ files,
  preserves P (listFrom (withTrace this) buckets files).
Proof.
  induction buckets as [|b bs IH]; intros files; simpl;
    [apply preserves_resolve|].
  apply (preserves_bind P
           (listObjects (client (withTrace this)) b "" true)
           (fun stream => listFrom (withTrace this) bs
                            (foldl pushName files (yielded stream)))).
  - apply preserves_logged. by apply reads.
  - intros stream. apply IH.
Qed.

Lemma lastModifiedOrNow_preserves obj :
  preserves P (lastModifiedOrNow (tracedDate Date) obj).
Proof.
  intros w log Hlog. unfold lastModifiedOrNow.
  destruct (item_lastModified obj); [done|]. simpl.
  by destruct (newDate Date w).
Qed.

Lemma forAwaitMetadata_preserves b objs : ∀ files,
  preserves P (forAwaitMetadata (tracedDate Date) (withTrace this) b objs files).
Proof.
  induction objs as [|obj objs IH]; intros files; simpl; [by intros w log|].
  apply (preserves_bind P
           (pushMetadata (tracedDate Date) (withTrace this) b files obj)
           (fun files => forAwaitMetadata (tracedDate Date) (withTrace this)
                           b objs files)); [|done].
  unfold pushMetadata.
  destruct (item_name obj) as [name|]; [|by intros w log].
  destruct (Js.truthy (Some name)); [|by intros w log].
  intros w log Hlog. simpl. unfold logged.
  destruct (statObject (client this) b name w) as [[stat|e] w1]; simpl.
  - assert (Hlog1 : Forall P (log ++ [StatObject b name])).
    { apply Forall_app. split; [done|]. constructor; [by apply reads|done]. }
    pose proof (lastModifiedOrNow_preserves obj w1 _ Hlog1) as Hlm.
    by destruct (lastModifiedOrNow (tracedDate Date) obj
                   (w1, log ++ [StatObject b name])) as [lm [w2 log2]].
  - apply Forall_app. split; [done|]. constructor; [by apply reads|done].
Qed.

Lemma listWithMetadataFrom_preserves buckets : ∀ files,
  preserves P (listWithMetadataFrom (tracedDate Date) (withTrace this)
                 buckets files).
Proof.
  induction buckets as [|b bs IH]; intros files; simpl;
    [apply preserves_resolve|].
  apply (preserves_bind P
           (listObjects (client (withTrace this)) b "" true)
           (fun stream s =>
              let '(files, s) :=
                forAwaitMetadata (tracedDate Date) (withTrace this) b
                  (yielded stream) files s in
              listWithMetadataFrom (tracedDate Date) (withTrace this) bs files s)).
  - apply preserves_logged. by apply reads.
  - intros stream.
    apply (preserves_bind P
             (forAwaitMetadata (tracedDate Date) (withTrace this) b
                (yielded stream) files)
             (fun files => listWithMetadataFrom (tracedDate Date)
                             (withTrace this) bs files)); [|done].
    apply forAwaitMetadata_preserves.
Qed.

Lemma forAwaitVersions_preserves fileName objs : ∀ versions,
  preserves P (forAwaitVersions (tracedDate Date) fileName objs versions).
Proof.
  intros versions w log Hlog.
  by rewrite forAwaitVersions_calls.
Qed.

Lemma versionsFrom_preserves fileName buckets :
  preserves P (versionsFrom (tracedDate Date) (withTrace this) fileName buckets).
Proof.
  induction buckets as [|b bs IH]; simpl; [apply preserves_resolve|].
  apply (preserves_bind P
           (listObjects (client (withTrace this)) b fileName true)
           (fun stream s =>
              let '(versions, s) :=
                forAwaitVersions (tracedDate Date) fileName (yielded stream) [] s in
              match failure stream with
              | Some _ => versionsFrom (tracedDate Date) (withTrace this)
                            fileName bs s
              | None =>
                  if bool_decide (0 < length versions)%nat
                  then (Resolved (arraySort (newestFirst (tracedDate Date))
                                    versions), s)
                  else versionsFrom (tracedDate Date) (withTrace this)
                         fileName bs s
              end)).
  - apply preserves_logged. by apply reads.
  - intros stream w log Hlog.
    pose proof (forAwaitVersions_preserves fileName (yielded stream) [] w log Hlog)
      as Hrun.
    destruct (forAwaitVersions _ _ _ _ _) as [versions [w1 log1]].
    simpl in Hrun. destruct (failure stream); [by apply IH|].
    case_bool_decide; [done|by apply IH].
Qed.

End Reads.

Section Writes.
Hypothesis writes : ∀ c, isRemove c = false → P c.

Lemma uploadFileAsync_preserves fileName stream ctx contentType tags metadata :
  preserves P (uploadFileAsync (tracedDate Date) (withTrace this) fileName
                 stream ctx contentType tags metadata).
Proof.
  intros w log Hlog. unfold uploadFileAsync. simpl.
  destruct (newDate Date w) as [t w0].
  assert (Hput : preserves P
    (putObject (client (withTrace this)) (getBucketName (withTrace this) ctx)
       fileName stream
       (uploadMetaData (tracedDate Date) ctx contentType metadata t))).
  { apply preserves_logged. by apply writes. }
  apply (preserves_await P _ _ Hput); [|done].
  intros _. apply preserves_await; [|intros; apply preserves_resolve].
  destruct tags as [[|tag rest]|]; try apply preserves_resolve.
  apply preserves_logged. by apply writes.
Qed.

Lemma setFileTagsAsync_preserves fileName tags ctx :
  preserves P (setFileTagsAsync (withTrace this) fileName tags ctx).
Proof.
  unfold setFileTagsAsync.
  apply preserves_tryCatch; [|intros; apply preserves_resolve].
  apply preserves_await; [|intros; apply preserves_resolve].
  apply preserves_logged. by apply writes.
Qed.

Lemma deleteFileTagsAsync_preserves fileName ctx :
  preserves P (deleteFileTagsAsync (withTrace this) fileName ctx).
Proof.
  unfold deleteFileTagsAsync.
  apply preserves_tryCatch; [|intros; apply preserves_resolve].
  apply preserves_await; [|intros; apply preserves_resolve].
  apply preserves_logged. by apply writes.
Qed.

End Writes.

End ServiceCalls.

(** ** Answers of the handlers *)

Section Yields.
Context {W : Type}.

Lemma yields_resolve {A} (Q : A → Prop) (a : A) :
  Q a → yields (W := W) Q (resolve a).
Proof. intros Ha w r w' [= <- _]. done. Qed.

Lemma yields_await {A B} (Q : B → Prop) (p : Promise W A) (k : A → Promise W B) :
  (∀ a, yields Q (k a)) → yields Q (await p k).
Proof.
  intros Hk w r w' Hrun. unfold await in Hrun.
  destruct (p w) as [[a|e] w1]; [by eapply Hk|done].
Qed.

Lemma handle_answers (Q : Response → Prop) (body : Promise W Response) s :
  yields Q body → Q (respond 500 "Internal server error") →
  ∃ res s', handle body s = (Resolved res, s') ∧ Q res.
Proof.
  intros Hbody H500. unfold handle, tryCatch, resolve.
  destruct (body s) as [[res|e] s'] eqn:Hrun.
  - exists res, s'. split; [done|]. by eapply Hbody.
  - by exists (respond 500 "Internal server error"), s'.
Qed.

End Yields.

Ltac yield :=
  repeat first
    [ apply yields_resolve; unfold served; simpl; tauto
    | apply yields_await; intros
    | match goal with
      | |- yields _ (if ?b then _ else _) => destruct b
      | |- yields _ (match ?x with _ => _ end) => destruct x
      end ].

Section Serve.
Context {W : Type} (Date : JsDate W) (lib : Libraries)
        (jwtVerify : string → settled JwtPayload)
        (this : BlobStorageService W).

(** How the middlewares of a route dispose of a request. *)
Lemma serve_cases route req s :
  match caller jwtVerify req with
  | None =>
      ∃ message,
        serve Date lib jwtVerify this route req s =
          (Resolved (respond 401 message), s)
  | Some ctx =>
      if bool_decide (roleValue (role ctx) < roleValue (requiredRole route))
      then serve Date lib jwtVerify this route req s =
             (Resolved (respond 403 "Insufficient permissions"), s)
      else ∃ req',
             req_userContext req' = Some ctx ∧
             req_fileName req' = req_fileName req ∧
             req_versionId req' = req_versionId req ∧
             req_file req' = req_file req ∧ req_tags req' = req_tags req ∧
             req_metadata req' = req_metadata req ∧
             req_body req' = req_body req ∧
             serve Date lib jwtVerify this route req s =
               (createRoutes Date lib jwtVerify this route).2 req' s
  end.
Proof.
  pose proof (authenticate_caller jwtVerify req) as Hauth.
  destruct (caller jwtVerify req) as [ctx|].
  - destruct Hauth as (req' & Hauth & Hctx & ? & ? & ? & ? & ? & ?).
    assert (Hviewer : bool_decide (roleValue (role ctx) < 1) = false).
    { apply bool_decide_eq_false_2. destruct (role ctx); simpl; lia. }
    destruct route; unfold serve; simpl; rewrite Hauth; simpl;
      rewrite ?Hviewer; simpl;
      try (exists req'; by repeat split).
    all: unfold requireRole; rewrite Hctx; simpl.
    all: match goal with
         | |- context [bool_decide ?Q] => destruct (bool_decide Q)
         end; [done|exists req'; by repeat split].
  - destruct Hauth as [message Hauth].
    exists message. destruct route; unfold serve; simpl; by rewrite Hauth.
Qed.

End Serve.

Section Handlers.
Context {W : Type} (Date : JsDate W) (lib : Libraries)
        (jwtVerify : string → settled JwtPayload)
        (this : BlobStorageService W).

(** A handler that runs for a caller of sufficient role always answers,
    with one of four statuses. *)
Lemma handler_served route req ctx s :
  req_userContext req = Some ctx →
  ¬ roleValue (role ctx) < roleValue (requiredRole route) →
  ∃ res s',
    (createRoutes Date lib jwtVerify this route).2 req s = (Resolved res, s') ∧
    served res.
Proof.
  intros Hctx Hrole.
  destruct route; simpl in *;
    unfold uploadFile, downloadFile, deleteFile, listFiles,
      listFilesWithMetadata, fileExists, getFileMetadata, getFileTags,
      setFileTags, deleteFileTags, getFileVersions, downloadFileVersion,
      getFileBase64, parseField, fileNotFound;
    rewrite Hctx; rewrite ?bool_decide_eq_false_2 by done;
    (apply handle_answers; [yield|unfold served; simpl; tauto]).
Qed.

End Handlers.

(** X9: Every blob route answers every request, whatever the store does.  The
    answer is 401, with the store untouched, when the request carries no
    token that verifies; it is 403, with the store untouched, when the
    caller's role is below the one the route requires; otherwise it is
    200, 400, 404 or 500. *)
Theorem request_status {W} (Date : JsDate W) (lib : Libraries)
    (jwtVerify : string → settled JwtPayload) (this : BlobStorageService W)
    (route : BlobRoute) (req : Request) (s : W) :
  match caller jwtVerify req with
  | None =>
      ∃ message,
        serve Date lib jwtVerify this route req s =
          (Resolved (respond 401 message), s)
  | Some ctx =>
      if bool_decide (roleValue (role ctx) < roleValue (requiredRole route))
      then serve Date lib jwtVerify this route req s =
             (Resolved (respond 403 "Insufficient permissions"), s)
      else ∃ res s',
             serve Date lib jwtVerify this route req s = (Resolved res, s') ∧
             status res ∈ [200; 400; 404; 500]
  end.
Proof.
  pose proof (serve_cases Date lib jwtVerify this route req s) as Hserve.
  destruct (caller jwtVerify req) as [ctx|]; [|done].
  case_bool_decide as Hrole; [done|].
  destruct Hserve as (req' & Hctx & _ & _ & _ & _ & _ & _ & ->).
  destruct (handler_served Date lib jwtVerify this route req' ctx s Hctx Hrole)
    as (res & s' & Hrun & Hserved).
  exists res, s'. split; [done|].
  destruct Hserved as [-> | [-> | [-> | ->]]]; repeat constructor.
Qed.

(** ** Calls of the handlers *)

Section HandlerCalls.
Context {W : Type} (Date : JsDate W) (lib : Libraries)
        (jwtVerify : string → settled JwtPayload)
        (this : BlobStorageService W) (P : Call → Prop).

Lemma parseField_preserves {A} (parse : string → settled A) field :
  preserves (W := W) P (parseField parse field).
Proof.
  unfold parseField. destruct field as [text|]; [|apply preserves_resolve].
  destruct (Js.truthy (Some text)); [|apply preserves_resolve].
  apply preserves_await; [apply preserves_sync|intros; apply preserves_resolve].
Qed.

Section Reads.
Hypothesis reads : ∀ c, isWrite c = false → P c.

Lemma fileExistsAsync_preserves fileName ctx :
  preserves P (fileExistsAsync (withTrace this) fileName ctx).
Proof. by apply existsIn_preserves. Qed.

Lemma getFileTagsAsync_preserves fileName ctx :
  preserves P (getFileTagsAsync (withTrace this) fileName ctx).
Proof. by apply tagsFrom_preserves. Qed.

Lemma getFileBase64Async_preserves fileName ctx :
  preserves P (getFileBase64Async (withTrace this) (toBase64 lib) fileName ctx).
Proof.
  apply preserves_await; [|intros; apply preserves_resolve].
  by apply downloadFrom_preserves.
Qed.

(** The handler of a route open to every authenticated caller only
    reads. *)
Lemma reading_handler_preserves route req :
  requiredRole route = Viewer →
  preserves P
    ((createRoutes (tracedDate Date) lib jwtVerify (withTrace this) route).2 req).
Proof.
  intros Hroute. destruct route; try discriminate Hroute; simpl;
    apply preserves_handle;
    (destruct (req_userContext req) as [ctx|]; [|apply preserves_resolve]).
  - apply preserves_await; [apply fileExistsAsync_preserves|].
    intros [|]; simpl; [|apply preserves_resolve].
    apply preserves_await; [|intros; apply preserves_resolve].
    by apply downloadFrom_preserves.
  - apply preserves_await; [|intros; apply preserves_resolve].
    by apply listFrom_preserves.
  - apply preserves_await; [|intros; apply preserves_resolve].
    by apply listWithMetadataFrom_preserves.
  - apply preserves_await; [apply fileExistsAsync_preserves|].
    intros; apply preserves_resolve.
  - apply preserves_await; [apply fileExistsAsync_preserves|].
    intros [|]; simpl; [|apply preserves_resolve].
    apply preserves_await; [|intros; apply preserves_resolve].
    by apply metadataFrom_preserves.
  - apply preserves_await; [apply fileExistsAsync_preserves|].
    intros [|]; simpl; [|apply preserves_resolve].
    apply preserves_await; [|intros; apply preserves_resolve].
    apply getFileTagsAsync_preserves.
  - apply preserves_await; [apply fileExistsAsync_preserves|].
    intros [|]; simpl; [|apply preserves_resolve].
    apply preserves_await; [|intros; apply preserves_resolve].
    by apply versionsFrom_preserves.
  - apply preserves_await; [apply fileExistsAsync_preserves|].
    intros [|]; simpl; [|apply preserves_resolve].
    apply preserves_await; [|intros; apply preserves_resolve].
    by apply downloadVersionFrom_preserves.
  - apply preserves_await; [apply fileExistsAsync_preserves|].
    intros [|]; simpl; [|apply preserves_resolve].
    apply preserves_await; [|intros; apply preserves_resolve].
    apply getFileBase64Async_preserves.
Qed.

End Reads.

Section Writes.
Hypothesis writes : ∀ c, isRemove c = false → P c.

Lemma reads_of_writes c : isWrite c = false → P c.
Proof. intros Hc. apply writes. by destruct c. Qed.

(** Only the handler of the delete route removes objects. *)
Lemma handler_preserves route req :
  route ≠ DeleteFile →
  preserves P
    ((createRoutes (tracedDate Date) lib jwtVerify (withTrace this) route).2 req).
Proof.
  intros Hroute.
  destruct route; try done;
    try (apply reading_handler_preserves; [apply reads_of_writes|done]);
    simpl; apply preserves_handle;
    (destruct (req_userContext req) as [ctx|]; [|apply preserves_resolve]);
    (match goal with
     | |- context [bool_decide ?Q] => destruct (bool_decide Q)
     end; [apply preserves_resolve|]).
  - destruct (req_file req) as [file|]; [|apply preserves_resolve].
    apply preserves_await; [apply parseField_preserves|intros tags].
    apply preserves_await; [apply parseField_preserves|intros metadata].
    apply preserves_await; [|intros; apply preserves_resolve].
    by apply uploadFileAsync_preserves.
  - apply preserves_await;
      [apply fileExistsAsync_preserves, reads_of_writes|].
    intros [|]; simpl; [|apply preserves_resolve].
    destruct (validateTags lib (req_body req)) as [message|tags];
      [apply preserves_resolve|].
    apply preserves_await; [by apply setFileTagsAsync_preserves|].
    intros [|]; apply preserves_resolve.
  - apply preserves_await;
      [apply fileExistsAsync_preserves, reads_of_writes|].
    intros [|]; simpl; [|apply preserves_resolve].
    apply preserves_await; [by apply deleteFileTagsAsync_preserves|].
    intros [|]; apply preserves_resolve.
Qed.

End Writes.

End HandlerCalls.

(** X10: What a request can do to the store, read off the calls that reach the
    client.  A request without a valid token, or from a caller below the
    role of the route, makes no call at all.  A Viewer's request, and any
    request on a route open to every role, only reads.  An object is only
    ever removed by an Admin's request on the delete route. *)
Theorem request_calls {W} (Date : JsDate W) (lib : Libraries)
    (jwtVerify : string → settled JwtPayload) (this : BlobStorageService W)
    (route : BlobRoute) (req : Request) (w : W) :
  let calls :=
    callsOf (serve (tracedDate Date) lib jwtVerify (withTrace this) route req) w in
  match caller jwtVerify req with
  | None => calls = []
  | Some ctx =>
      (roleValue (role ctx) < roleValue (requiredRole route) → calls = []) ∧
      (role ctx = Viewer ∨ requiredRole route = Viewer →
       Forall (fun c => isWrite c = false) calls) ∧
      (role ctx ≠ Admin ∨ route ≠ DeleteFile →
       Forall (fun c => isRemove c = false) calls)
  end.
Proof.
  intros calls. subst calls. unfold callsOf.
  pose proof (serve_cases (tracedDate Date) lib jwtVerify (withTrace this)
                route req (w, [])) as Hserve.
  destruct (caller jwtVerify req) as [ctx|];
    [|destruct Hserve as [message ->]; done].
  case_bool_decide as Hrole.
  { rewrite Hserve. simpl. by repeat split. }
  destruct Hserve as (req' & _ & _ & _ & _ & _ & _ & _ & ->).
  split; [done|]. split.
  - intros Hviewer.
    assert (Hroute : requiredRole route = Viewer).
    { destruct Hviewer as [Hviewer|]; [|done].
      rewrite Hviewer in Hrole. destruct route; simpl in *; done || lia. }
    by apply (reading_handler_preserves Date lib jwtVerify this
                (fun c => isWrite c = false)).
  - intros Hremove.
    assert (Hroute : route ≠ DeleteFile).
    { destruct Hremove as [Hadmin|]; [|done].
      intros ->. destruct (role ctx); simpl in *; done || lia. }
    by apply (handler_preserves Date lib jwtVerify this
                (fun c => isRemove c = false)).
Qed.

Lemma request_calls_witness :
  Forall (fun c => isWrite c = false)
    (callsOf (serve (tracedDate MemStore.date) strictLibraries tokens
                (withTrace memService) GetDownload
                (requestFor "victor-token" "report.pdf"))
       bothBuckets) ∧
  callsOf (serve (tracedDate MemStore.date) strictLibraries tokens
             (withTrace memService) PutTags
             (requestFor "victor-token" "report.pdf"))
    bothBuckets = [].
Proof.
  assert (Hcaller : caller tokens (requestFor "victor-token" "report.pdf") =
                    Some victor) by reflexivity.
  split.
  - pose proof (request_calls MemStore.date strictLibraries tokens memService
                  GetDownload (requestFor "victor-token" "report.pdf")
                  bothBuckets) as Hcalls.
    cbv zeta in Hcalls. rewrite Hcaller in Hcalls.
    destruct Hcalls as (_ & Hreads & _). apply Hreads. by left.
  - pose proof (request_calls MemStore.date strictLibraries tokens memService
                  PutTags (requestFor "victor-token" "report.pdf")
                  bothBuckets) as Hcalls.
    cbv zeta in Hcalls. rewrite Hcaller in Hcalls.
    destruct Hcalls as (Hnone & _). apply Hnone. simpl. lia.
Defined.

Section NotFound.
Context {W : Type} (Date : JsDate W) (lib : Libraries)
        (jwtVerify : string → settled JwtPayload)
        (this : BlobStorageService W).

Lemma handler_not_found route req ctx s s' :
  checksExistence route = true →
  req_userContext req = Some ctx →
  ¬ roleValue (role ctx) < roleValue (requiredRole route) →
  fileExistsAsync this (req_fileName req) ctx s = (Resolved false, s') →
  (createRoutes Date lib jwtVerify this route).2 req s =
    (Resolved (fileNotFound (req_fileName req)), s').
Proof.
  intros Hroute Hctx Hrole Hexists.
  destruct route; try discriminate Hroute; simpl in *;
    unfold downloadFile, deleteFile, getFileMetadata, getFileTags,
      setFileTags, deleteFileTags, getFileVersions, downloadFileVersion,
      getFileBase64, handle, tryCatch, await;
    rewrite Hctx; rewrite ?bool_decide_eq_false_2 by done;
    by rewrite Hexists.
Qed.

End NotFound.

(** X11: Every route that names a file, other than the existence check itself,
    answers 404 with the name when the caller cannot see the file, and does
    nothing beyond the probe: the store is left as the existence check
    left it. *)
Theorem missing_file_is_404 {W} (Date : JsDate W) (lib : Libraries)
    (jwtVerify : string → settled JwtPayload) (this : BlobStorageService W)
    (route : BlobRoute) (req : Request) (ctx : UserContext) (s s' : W) :
  checksExistence route = true →
  caller jwtVerify req = Some ctx →
  ¬ roleValue (role ctx) < roleValue (requiredRole route) →
  fileExistsAsync this (req_fileName req) ctx s = (Resolved false, s') →
  serve Date lib jwtVerify this route req s =
    (Resolved (respond 404 ("File '" +:+ req_fileName req +:+ "' not found")), s').
Proof.
  intros Hroute Hcaller Hrole Hexists.
  pose proof (serve_cases Date lib jwtVerify this route req s) as Hserve.
  rewrite Hcaller in Hserve. rewrite bool_decide_eq_false_2 in Hserve by done.
  destruct Hserve as (req' & Hctx & Hname & _ & _ & _ & _ & _ & ->).
  rewrite <- Hname in *.
  by apply (handler_not_found Date lib jwtVerify this route req' ctx).
Qed.

Lemma missing_file_is_404_witness :
  serve MemStore.date strictLibraries tokens memService PutTags
    (requestFor "alice-token" "release.pdf") stableOnly =
    (Resolved (respond 404 "File 'release.pdf' not found"), stableOnly).
Proof.
  apply (missing_file_is_404 MemStore.date strictLibraries tokens memService
           PutTags (requestFor "alice-token" "release.pdf") alice).
  - reflexivity.
  - reflexivity.
  - simpl. lia.
  - vm_compute. reflexivity.
Defined.

(** X12: The outcomes of a tag update, for a caller that the route lets
    through.  The file is looked up first: 404 when the caller cannot see
    it.  Then the body is validated: 400 with the validation message, and
    no write.  Then the tags are written, numbered in order, to the stable
    bucket for an Admin and to the working bucket for a Contributor: 200
    when the store accepts them, 500 when it rejects them. *)
Theorem put_tags_outcomes {W} (Date : JsDate W) (lib : Libraries)
    (jwtVerify : string → settled JwtPayload) (this : BlobStorageService W)
    (req : Request) (ctx : UserContext) (s : W) :
  caller jwtVerify req = Some ctx →
  role ctx ≠ Viewer →
  let fileName := req_fileName req in
  let bucket :=
    match role ctx with
    | Admin => stableBucket this
    | _ => workingBucket this
    end in
  ∃ found s1,
    fileExistsAsync this fileName ctx s = (Resolved found, s1) ∧
    serve Date lib jwtVerify this PutTags req s =
      if negb found
      then (Resolved (respond 404 ("File '" +:+ fileName +:+ "' not found")), s1)
      else
        match validateTags lib (req_body req) with
        | inl message => (Resolved (respond 400 message), s1)
        | inr tags =>
            match setObjectTagging (client this) bucket fileName
                    (encodeTags tags) s1 with
            | (Resolved _, s2) =>
                (Resolved (ok (JsonMessage
                                 ("Tags updated for file '" +:+ fileName +:+ "'"))),
                 s2)
            | (Rejected _, s2) =>
                (Resolved (respond 500 "Failed to update tags"), s2)
            end
        end.
Proof.
  intros Hcaller Hrole fileName bucket. subst fileName.
  pose proof (serve_cases Date lib jwtVerify this PutTags req s) as Hserve.
  rewrite Hcaller in Hserve.
  assert (Hcontributor : ¬ roleValue (role ctx) < roleValue Contributor).
  { destruct (role ctx); simpl; done || lia. }
  rewrite bool_decide_eq_false_2 in Hserve by done.
  destruct Hserve as (req' & Hctx & Hname & _ & _ & _ & _ & Hbody & ->).
  simpl. unfold setFileTags, handle. rewrite Hctx, Hname, Hbody.
  rewrite bool_decide_eq_false_2 by done. cbv zeta.
  destruct (fileExistsAsync this (req_fileName req) ctx s) as [r s1] eqn:Hexists.
  assert (Hfound : ∃ found, r = Resolved found).
  { destruct (fileExistsAsync_cases this _ _ _ _ _ Hexists) as [->|[-> _]];
      by eexists. }
  destruct Hfound as [found ->]. exists found, s1. split; [done|].
  unfold tryCatch, await. rewrite Hexists.
  destruct found; simpl; [|done].
  destruct (validateTags lib (req_body req)) as [message|tags]; [done|].
  unfold setFileTagsAsync, tryCatch, await, resolve.
  assert (Hbucket : getBucketName this ctx = bucket).
  { unfold getBucketName, bucket. destruct (role ctx); done. }
  rewrite Hbucket.
  by destruct (setObjectTagging (client this) bucket (req_fileName req)
                 (encodeTags tags) s1) as [[[]|e] s2].
Qed.

Lemma put_tags_outcomes_witness :
  serve MemStore.date strictLibraries tokens memService PutTags
    (requestFor "alice-token" "report.pdf") bothBuckets =
    (Resolved (respond 400 "tags is required"), bothBuckets).
Proof.
  destruct (put_tags_outcomes MemStore.date strictLibraries tokens memService
              (requestFor "alice-token" "report.pdf") alice bothBuckets)
    as (found & s1 & Hexists & Hserve); [reflexivity|done|].
  rewrite Hserve.
  assert (Hfound : fileExistsAsync memService "report.pdf" alice bothBuckets =
                   (Resolved true, bothBuckets)) by (vm_compute; reflexivity).
  simpl in Hexists. rewrite Hfound in Hexists.
  by injection Hexists as <- <-.
Defined.

Section UploadRequest.
Context {W : Type} (Date : JsDate W) (lib : Libraries)
        (this : BlobStorageService W).






End UploadRequest.



(** ** Calls that never reject *)

Section Answers.
Context {W : Type}.

Lemma answers_resolve {A} (Q : A → Prop) (a : A) :
  Q a → answers (W := W) Q (resolve a).
Proof. intros Ha w. by exists a, w. Qed.

Lemma answers_await {A B} (Q : B → Prop) (p : Promise W A) (k : A → Promise W B) :
  answers (fun _ => True) p → (∀ a, answers Q (k a)) → answers Q (await p k).
Proof.
  intros Hp Hk w. unfold await.
  destruct (Hp w) as (a & w1 & -> & _). apply Hk.
Qed.

Lemma answers_tryCatch {A} (p : Promise W A) (h : exn → Promise W A) :
  (∀ e, answers (fun _ => True) (h e)) →
  answers (fun _ => True) (tryCatch p h).
Proof.
  intros Hh w. unfold tryCatch.
  destruct (p w) as [[r|e] w1]; [by exists r, w1|apply Hh].
Qed.

Lemma answers_handle (Q : Response → Prop) (body : Promise W Response) :
  answers Q body → answers Q (handle body).
Proof.
  intros Hbody w. unfold handle, tryCatch.
  by destruct (Hbody w) as (res & w1 & -> & Hres); exists res, w1.
Qed.

Context (Date : JsDate W) (this : BlobStorageService W).

Lemma fileExistsAsync_answers fileName ctx :
  answers (fun _ => True) (fileExistsAsync this fileName ctx).
Proof.
  unfold fileExistsAsync.
  induction (readBuckets this ctx) as [|b bs IH]; simpl;
    [by apply answers_resolve|by apply answers_tryCatch].
Qed.

Lemma getFileMetadataAsync_answers fileName ctx :
  answers (fun _ => True) (getFileMetadataAsync Date this fileName ctx).
Proof.
  unfold getFileMetadataAsync.
  induction (readBuckets this ctx) as [|b bs IH]; simpl;
    [by apply answers_resolve|by apply answers_tryCatch].
Qed.

Lemma tagsFrom_answers fileName buckets :
  answers (fun _ => True) (tagsFrom this fileName buckets).
Proof.
  induction buckets as [|b bs IH]; simpl;
    [by apply answers_resolve|by apply answers_tryCatch].
Qed.

Lemma listFilesAsync_answers ctx :
  answers (fun _ => True) (listFilesAsync this ctx).
Proof.
  intros w. unfold listFilesAsync. rewrite listFrom_foldl. by eexists _, _.
Qed.

Lemma listWithMetadataFrom_answers buckets : ∀ files,
  answers (fun _ => True) (listWithMetadataFrom Date this buckets files).
Proof.
  induction buckets as [|b bs IH]; intros files w; simpl;
    [by eexists _, _|].
  destruct (listObjects (client this) b "" true w) as [stream w1].
  destruct (forAwaitMetadata Date this b (yielded stream) files w1)
    as [files' w2].
  apply IH.
Qed.

Lemma versionsFrom_answers fileName buckets :
  answers (fun _ => True) (versionsFrom Date this fileName buckets).
Proof.
  induction buckets as [|b bs IH]; intros w; simpl; [by eexists _, _|].
  destruct (listObjects (client this) b fileName true w) as [stream w1].
  destruct (forAwaitVersions Date fileName (yielded stream) [] w1)
    as [versions w2].
  destruct (failure stream); [apply IH|].
  case_bool_decide; [by eexists _, _|apply IH].
Qed.

End Answers.

Section HiddenErrors.
Context {W : Type} (Date : JsDate W) (lib : Libraries)
        (jwtVerify : string → settled JwtPayload)
        (this : BlobStorageService W).

Lemma handler_hides_store_errors route req ctx :
  catchesStoreErrors route = true →
  req_userContext req = Some ctx →
  answers (fun res => status res = 200 ∨
                      checksExistence route = true ∧ status res = 404)
    ((createRoutes Date lib jwtVerify this route).2 req).
Proof.
  intros Hroute Hctx.
  destruct route; try discriminate Hroute; simpl;
    apply answers_handle; rewrite Hctx.
  - apply answers_await; [apply listFilesAsync_answers|].
    intros files. apply answers_resolve. by left.
  - apply answers_await; [apply listWithMetadataFrom_answers|].
    intros files. apply answers_resolve. by left.
  - apply answers_await; [apply fileExistsAsync_answers|].
    intros found. apply answers_resolve. by left.
  - apply answers_await; [apply fileExistsAsync_answers|].
    intros [|]; simpl; [|apply answers_resolve; by right].
    apply answers_await; [apply getFileMetadataAsync_answers|].
    intros metadata. apply answers_resolve. by left.
  - apply answers_await; [apply fileExistsAsync_answers|].
    intros [|]; simpl; [|apply answers_resolve; by right].
    apply answers_await; [apply tagsFrom_answers|].
    intros tags. apply answers_resolve. by left.
  - apply answers_await; [apply fileExistsAsync_answers|].
    intros [|]; simpl; [|apply answers_resolve; by right].
    apply answers_await; [apply versionsFrom_answers|].
    intros versions. apply answers_resolve. by left.
Qed.

End HiddenErrors.

(** X14: Six routes never answer 500, because the service calls behind them
    catch every error of the store: list, list-with-metadata and exists
    answer an authenticated request with 200 whatever the store does
    (an unreachable store shows as an empty list or as a file that does
    not exist); metadata, get-tags and versions answer 200 or 404. *)
Theorem store_errors_hidden {W} (Date : JsDate W) (lib : Libraries)
    (jwtVerify : string → settled JwtPayload) (this : BlobStorageService W)
    (route : BlobRoute) (req : Request) (ctx : UserContext) (s : W) :
  catchesStoreErrors route = true →
  caller jwtVerify req = Some ctx →
  ∃ res s',
    serve Date lib jwtVerify this route req s = (Resolved res, s') ∧
    (status res = 200 ∨ checksExistence route = true ∧ status res = 404).
Proof.
  intros Hroute Hcaller.
  pose proof (serve_cases Date lib jwtVerify this route req s) as Hserve.
  rewrite Hcaller in Hserve.
  assert (Hviewer : ¬ roleValue (role ctx) < roleValue (requiredRole route)).
  { destruct route; try discriminate Hroute; destruct (role ctx); simpl; lia. }
  rewrite bool_decide_eq_false_2 in Hserve by done.
  destruct Hserve as (req' & Hctx & _ & _ & _ & _ & _ & _ & ->).
  apply (handler_hides_store_errors Date lib jwtVerify this route req' ctx
           Hroute Hctx).
Qed.

Lemma store_errors_hidden_witness :
  ∃ res s',
    serve MemStore.date strictLibraries tokens memService GetList
      (requestFor "victor-token" "") workingOffline = (Resolved res, s') ∧
    status res = 200.
Proof.
  destruct (store_errors_hidden MemStore.date strictLibraries tokens memService
              GetList (requestFor "victor-token" "") victor workingOffline)
    as (res & s' & Hserve & [Hok|[Hcheck _]]);
    [reflexivity|reflexivity| |discriminate Hcheck].
  by exists res, s'.
Defined.

(** X15: The outcomes of a delete request from an Admin.  The file is
    looked up first: 404 when it is in neither bucket the Admin reads.
    Otherwise the object is removed from the working bucket and then from
    the stable bucket, wherever it was found: 200 when at least one of the
    two removals resolves, 500 when both are rejected. *)
Theorem delete_request_outcomes {W} (Date : JsDate W) (lib : Libraries)
    (jwtVerify : string → settled JwtPayload) (this : BlobStorageService W)
    (req : Request) (ctx : UserContext) (s : W) :
  caller jwtVerify req = Some ctx →
  role ctx = Admin →
  let fileName := req_fileName req in
  ∃ found s1,
    fileExistsAsync this fileName ctx s = (Resolved found, s1) ∧
    serve Date lib jwtVerify this DeleteFile req s =
      if negb found
      then (Resolved (respond 404 ("File '" +:+ fileName +:+ "' not found")), s1)
      else
        let '(r1, s2) :=
          removeObject (client this) (workingBucket this) fileName s1 in
        let '(r2, s3) :=
          removeObject (client this) (stableBucket this) fileName s2 in
        if isResolved r1 || isResolved r2
        then (Resolved (ok (JsonMessage
                              ("File '" +:+ fileName +:+ "' deleted successfully"))),
              s3)
        else (Resolved (respond 500 "Failed to delete file"), s3).
Proof.
  intros Hcaller Hrole fileName. subst fileName.
  pose proof (serve_cases Date lib jwtVerify this DeleteFile req s) as Hserve.
  rewrite Hcaller in Hserve.
  assert (Hadmin : ¬ roleValue (role ctx) < roleValue Admin).
  { rewrite Hrole. simpl. lia. }
  rewrite bool_decide_eq_false_2 in Hserve by done.
  destruct Hserve as (req' & Hctx & Hname & _ & _ & _ & _ & _ & ->).
  simpl. unfold deleteFile, handle. rewrite Hctx, Hname.
  rewrite bool_decide_eq_false_2 by done. cbv zeta.
  destruct (fileExistsAsync_answers this (req_fileName req) ctx s)
    as (found & s1 & Hexists & _).
  exists found, s1. split; [done|].
  unfold tryCatch, await at 1. rewrite Hexists.
  destruct found; simpl; [|done].
  unfold await. rewrite deleteFileAsync_unfold.
  destruct (removeObject (client this) (workingBucket this) _ s1) as [r1 s2].
  destruct (removeObject (client this) (stableBucket this) _ s2) as [r2 s3].
  by destruct (isResolved r1 || isResolved r2).
Qed.

Lemma delete_request_outcomes_witness :
  serve MemStore.date strictLibraries tokens memService DeleteFile
    (requestFor "root-token" "missing.pdf") bothBuckets =
    (Resolved (respond 404 "File 'missing.pdf' not found"), bothBuckets).
Proof.
  destruct (delete_request_outcomes MemStore.date strictLibraries tokens
              memService (requestFor "root-token" "missing.pdf") root
              bothBuckets)
    as (found & s1 & Hexists & Hserve); [reflexivity|reflexivity|].
  rewrite Hserve.
  assert (Hfound : fileExistsAsync memService "missing.pdf" root bothBuckets =
                   (Resolved false, bothBuckets)) by (vm_compute; reflexivity).
  simpl in Hexists. rewrite Hfound in Hexists.
  by injection Hexists as <- <-.
Defined.
